(** * Alert configuration syncer (pkg/controllers/user/alert/configsyncer)

    A shallow embedding of [configsyncer.go]: the partition of alert rules
    by group, the Alertmanager routing tree and receivers built from it, the
    Prometheus rule groups handed to the operator CRD manager, and the
    conditional update of the Alertmanager secret.

    Go values are modelled as follows.
    - [string] and [[]byte] are Rocq strings (sequences of bytes).
    - [int] and [time.Duration] are [Z]; the one arithmetic operation of the
      file, [time.Duration(n) * time.Second], wraps in 64 bits.
    - a nullable pointer is an [option]; a [map[string]T] is a [gmap string T],
      a nil slice is the empty list.
    - an [error] is a value of [error]; a [(T, error)] pair whose value is
      ignored on error is a [result T].
    - the collaborators reached through the fields of [ConfigSyncer] (listers,
      the Alertmanager handle, the operator CRD manager, the secret client)
      are the fields of the record [ConfigSyncer]; their effects are recorded
      in a [World]: the secret store and the trace of calls. *)

From Stdlib Require Import ZArith Ascii DecimalString Permutation.
From stdpp Require Import base option list gmap strings sorting.

Local Open Scope Z_scope.

Module configsyncer.

(** ** Errors *)

(** Go errors as this package makes and inspects them: errors of the API
    machinery (of which [apierrors.IsNotFound] recognises the not-found
    ones), [errors.Wrapf] and [fmt.Errorf]. *)
Inductive error : Type :=
| StatusNotFound (msg : string)
| StatusOther (msg : string)
| Wrapf (cause : error) (msg : string)
| Errorf (msg : string).

Fixpoint error_string (e : error) : string :=
  match e with
  | StatusNotFound msg => msg
  | StatusOther msg => msg
  | Wrapf cause msg => msg +:+ ": " +:+ error_string cause
  | Errorf msg => msg
  end.

Definition IsNotFound (e : error) : bool :=
  match e with
  | StatusNotFound _ => true
  | _ => false
  end.

Inductive result (A : Type) : Type :=
| Ok (a : A)
| Err (e : error)
| Panic (msg : string).
Arguments Ok {A} a.
Arguments Err {A} e.
Arguments Panic {A} msg.

Definition is_Ok {A} (r : result A) : bool :=
  match r with Ok _ => true | _ => false end.

Definition is_Some_b {A} (o : option A) : bool :=
  match o with Some _ => true | None => false end.

Definition is_Err {A} (r : result A) : bool :=
  match r with Err _ => true | _ => false end.

(** ** Package constants *)

Definition defaultGroupInterval : Z := 10.
Definition eventGroupInterval : Z := 1.
Definition defaultGroupWait : Z := 10.
Definition defaultRepeatInterval : Z := 10.

(** ** Durations *)

Definition wrap64 (z : Z) : Z := (z + 2 ^ 63) mod 2 ^ 64 - 2 ^ 63.

Definition Second : Z := 1000000000.

(** [model.Duration(time.Duration(n) * time.Second)] *)
Definition seconds (n : Z) : Z := wrap64 (n * Second).

(** ** Strings *)

(** [strconv.Itoa] *)
Definition Itoa (n : Z) : string := NilZero.string_of_int (Z.to_int n).

(** The order of [sort.Strings]: Go compares strings byte by byte. *)
Definition string_le (s1 s2 : string) : Prop := String.leb s1 s2 = true.

#[global] Instance string_le_dec : RelDecision string_le.
Proof. intros s1 s2. unfold string_le. apply _. Defined.

#[global] Instance string_le_total : Total string_le.
Proof. intros s1 s2. apply String.leb_total. Qed.

#[global] Instance string_le_antisym : AntiSymm (=) string_le.
Proof. intros s1 s2. apply String.leb_antisym. Qed.

Definition sort_Strings (l : list string) : list string :=
  merge_sort string_le l.

(** The keys of a Go map, collected by [for k := range m] and then sorted. *)
Definition sorted_keys {V} (m : gmap string V) : list string :=
  sort_Strings (map_to_list m).*1.

(** ** The Alertmanager configuration (package alertconfig, as used here) *)

#[local] Unset Elimination Schemes.
Inductive Route : Type := mkRoute {
  Receiver : string;
  Match : gmap string string;
  GroupWait : option Z;
  RepeatInterval : option Z;
  GroupInterval : option Z;
  Routes : list Route
}.
#[local] Set Elimination Schemes.

Record PagerdutyConfig : Type := {
  pd_ServiceKey : string;
  pd_Description : string
}.

Record WebhookConfig : Type := { wh_URL : string }.

Record SlackConfig : Type := {
  sl_APIURL : string;
  sl_Channel : string;
  sl_Text : string;
  sl_Title : string;
  sl_TitleLink : string;
  sl_Color : string
}.

Record EmailConfig : Type := {
  em_Smarthost : string;
  em_AuthPassword : string;
  em_AuthUsername : string;
  em_RequireTLS : option bool;
  em_To : string;
  em_Headers : gmap string string;
  em_From : string;
  em_HTML : string
}.

Record ReceiverT : Type := {
  rc_Name : string;
  PagerdutyConfigs : list PagerdutyConfig;
  WebhookConfigs : list WebhookConfig;
  SlackConfigs : list SlackConfig;
  EmailConfigs : list EmailConfig
}.

Record Config : Type := {
  Global_PagerdutyURL : string;
  Receivers : list ReceiverT;
  cfg_Route : Route
}.

(** ** Notifiers and recipients (package v3, as used here) *)

Record PagerdutyNotifier : Type := { nt_ServiceKey : string }.
Record WebhookNotifier : Type := { nt_WebhookURL : string }.
Record SlackNotifier : Type := {
  nt_SlackURL : string;
  nt_SlackDefaultRecipient : string
}.
Record SMTPNotifier : Type := {
  nt_Host : string;
  nt_Port : Z;
  nt_Password : string;
  nt_Username : string;
  nt_TLS : bool;
  nt_DefaultRecipient : string;
  nt_Sender : string
}.

Record Notifier : Type := {
  nt_Name : string;
  PagerdutyConfig_ : option PagerdutyNotifier;
  WebhookConfig_ : option WebhookNotifier;
  SlackConfig_ : option SlackNotifier;
  SMTPConfig_ : option SMTPNotifier
}.

Record Recipient : Type := {
  NotifierName : string;
  Recipient_ : string
}.

Record CommonRuleField : Type := {
  DisplayName : string;
  Severity : string;
  GroupWaitSeconds : Z;
  GroupIntervalSeconds : Z;
  RepeatIntervalSeconds : Z
}.

(** ** The route builder *)

Definition newRoute (match_ : gmap string string)
    (groupWait groupInterval repeatInterval : Z) : Route :=
  {| Receiver := default "" (match_ !! "group_id");
     Match := match_;
     GroupWait := Some (seconds groupWait);
     RepeatInterval := Some (seconds repeatInterval);
     GroupInterval :=
       if negb (groupInterval =? defaultGroupInterval)
       then Some (seconds groupInterval) else None;
     Routes := [] |}.

Definition appendRoute (route subRoute : Route) : Route :=
  {| Receiver := Receiver route;
     Match := Match route;
     GroupWait := GroupWait route;
     RepeatInterval := RepeatInterval route;
     GroupInterval := GroupInterval route;
     Routes := Routes route ++ [subRoute] |}.

Definition addRule (ruleID : string) (route : Route) (comm : CommonRuleField)
    : Route :=
  let r2 := newRoute {[ "rule_id" := ruleID ]}
              (GroupWaitSeconds comm) (GroupIntervalSeconds comm)
              (RepeatIntervalSeconds comm) in
  appendRoute route r2.

(** ** The recipient resolver *)

Definition getNotifier (clusterName : string) (id : string)
    (notifiers : list Notifier) : option Notifier :=
  List.find (fun n => String.eqb (clusterName +:+ ":" +:+ nt_Name n) id)
            notifiers.

(** The double quote character, for the Go raw-string templates below. *)
Definition dq : string := String "034"%char EmptyString.

Definition tmpl (name : string) : string :=
  "{{ template " +:+ dq +:+ name +:+ dq +:+ " . }}".

Definition slack_color : string :=
  "{{ if eq (index .Alerts 0).Labels.severity " +:+ dq +:+ "critical" +:+ dq
  +:+ " }}danger{{ else if eq (index .Alerts 0).Labels.severity " +:+ dq
  +:+ "warning" +:+ dq +:+ " }}warning{{ else }}good{{ end }}".

Definition addRecipient (clusterName : string) (notifiers : list Notifier)
    (acc : ReceiverT * bool) (r : Recipient) : ReceiverT * bool :=
  let '(receiver, receiverExist) := acc in
  if negb (String.eqb (NotifierName r) "") then
    match getNotifier clusterName (NotifierName r) notifiers with
    | None => acc
    | Some notifier =>
      match PagerdutyConfig_ notifier, WebhookConfig_ notifier,
            SlackConfig_ notifier, SMTPConfig_ notifier with
      | Some pc, _, _, _ =>
        let pagerduty :=
          {| pd_ServiceKey :=
               if negb (String.eqb (Recipient_ r) "")
               then Recipient_ r else nt_ServiceKey pc;
             pd_Description := tmpl "rancher.title" |} in
        ({| rc_Name := rc_Name receiver;
            PagerdutyConfigs := PagerdutyConfigs receiver ++ [pagerduty];
            WebhookConfigs := WebhookConfigs receiver;
            SlackConfigs := SlackConfigs receiver;
            EmailConfigs := EmailConfigs receiver |}, true)
      | None, Some wc, _, _ =>
        let webhook :=
          {| wh_URL := if negb (String.eqb (Recipient_ r) "")
                       then Recipient_ r else nt_WebhookURL wc |} in
        ({| rc_Name := rc_Name receiver;
            PagerdutyConfigs := PagerdutyConfigs receiver;
            WebhookConfigs := WebhookConfigs receiver ++ [webhook];
            SlackConfigs := SlackConfigs receiver;
            EmailConfigs := EmailConfigs receiver |}, true)
      | None, None, Some sc, _ =>
        let slack :=
          {| sl_APIURL := nt_SlackURL sc;
             sl_Channel := if negb (String.eqb (Recipient_ r) "")
                           then Recipient_ r else nt_SlackDefaultRecipient sc;
             sl_Text := tmpl "slack.text";
             sl_Title := tmpl "rancher.title";
             sl_TitleLink := "";
             sl_Color := slack_color |} in
        ({| rc_Name := rc_Name receiver;
            PagerdutyConfigs := PagerdutyConfigs receiver;
            WebhookConfigs := WebhookConfigs receiver;
            SlackConfigs := SlackConfigs receiver ++ [slack];
            EmailConfigs := EmailConfigs receiver |}, true)
      | None, None, None, Some mc =>
        let email :=
          {| em_Smarthost := nt_Host mc +:+ ":" +:+ Itoa (nt_Port mc);
             em_AuthPassword := nt_Password mc;
             em_AuthUsername := nt_Username mc;
             em_RequireTLS := Some (nt_TLS mc);
             em_To := if negb (String.eqb (Recipient_ r) "")
                      then Recipient_ r else nt_DefaultRecipient mc;
             em_Headers := {[ "Subject" := tmpl "rancher.title" ]};
             em_From := nt_Sender mc;
             em_HTML := tmpl "email.text" |} in
        ({| rc_Name := rc_Name receiver;
            PagerdutyConfigs := PagerdutyConfigs receiver;
            WebhookConfigs := WebhookConfigs receiver;
            SlackConfigs := SlackConfigs receiver;
            EmailConfigs := EmailConfigs receiver ++ [email] |}, true)
      | None, None, None, None => acc
      end
    end
  else acc.

(** Returns the receiver as the loop leaves it, with the flag. *)
Definition addRecipients (clusterName : string) (notifiers : list Notifier)
    (receiver : ReceiverT) (recipients : list Recipient) : ReceiverT * bool :=
  foldl (addRecipient clusterName notifiers) (receiver, false) recipients.

Definition newReceiver (name : string) : ReceiverT :=
  {| rc_Name := name; PagerdutyConfigs := []; WebhookConfigs := [];
     SlackConfigs := []; EmailConfigs := [] |}.


(** ** The secret store and the trace of collaborator calls *)

(** A secret, as far as this package reads and writes it: its [Data] map,
    which Go leaves nil when the stored secret has no data. *)
Record Secret : Type := { Data : option (gmap string string) }.

(** [configSecret.Data[key]]: reading a nil map or a missing key gives the
    zero value. *)
Definition Data_get (s : Secret) (key : string) : string :=
  default "" (default ∅ (Data s) !! key).

Section Syncer.

(** Payload types of package v3 and the rule type of the Prometheus
    operator. This package tests the payloads against nil and hands the
    metric payload to [manager.Metric2Rule]; it looks inside none of
    them. *)
Context {MetricRule EventRule SystemServiceRule NodeRule PodRule
         WorkloadRule Rule : Type}.

Record ClusterAlertRule : Type := {
  car_Name : string;
  car_AlertState : string;
  car_GroupName : string;
  car_Common : CommonRuleField;
  car_NodeRule : option NodeRule;
  car_EventRule : option EventRule;
  car_SystemServiceRule : option SystemServiceRule;
  car_MetricRule : option MetricRule
}.

Record ProjectAlertRule : Type := {
  par_Name : string;
  par_AlertState : string;
  par_ProjectName : string;
  par_GroupName : string;
  par_Common : CommonRuleField;
  par_PodRule : option PodRule;
  par_WorkloadRule : option WorkloadRule;
  par_MetricRule : option MetricRule
}.

Record ClusterAlertGroup : Type := { cag_Recipients : list Recipient }.
Record ProjectAlertGroup : Type := { pag_Recipients : list Recipient }.

(** *** The operator CRD manager *)

Record RuleGroup : Type := {
  rg_Name : string;
  rg_Rules : list Rule
}.

Record PrometheusRule : Type := {
  pr_Name : string;
  pr_Namespace : string;
  pr_Groups : list RuleGroup
}.

(** Modelled from the spec: [GetDefaultPrometheusRule] of the operator CRD
    manager, which is not in this package: the default artifact of a
    namespace and scope name, with no rule group yet. *)
Definition GetDefaultPrometheusRule (namespace name : string)
    : PrometheusRule :=
  {| pr_Name := name; pr_Namespace := namespace; pr_Groups := [] |}.

(** Modelled from the spec: [GetRuleGroup] of the operator CRD manager:
    a rule-group entry keyed by the group id, with no rule yet. *)
Definition GetRuleGroup (groupID : string) : RuleGroup :=
  {| rg_Name := groupID; rg_Rules := [] |}.

(** Modelled from the spec: [AddRule] of the operator CRD manager: append
    a rule expression to a rule-group entry. *)
Definition AddRule (ruleGroup : RuleGroup) (rule : Rule) : RuleGroup :=
  {| rg_Name := rg_Name ruleGroup;
     rg_Rules := rg_Rules ruleGroup ++ [rule] |}.

(** Modelled from the spec: [AddRuleGroup] of the operator CRD manager:
    attach a rule-group entry to the artifact. *)
Definition AddRuleGroup (promRule : PrometheusRule) (ruleGroup : RuleGroup)
    : PrometheusRule :=
  {| pr_Name := pr_Name promRule;
     pr_Namespace := pr_Namespace promRule;
     pr_Groups := pr_Groups promRule ++ [ruleGroup] |}.

(** *** The syncer and its collaborators *)

Record AlertManager : Type := {
  IsDeploy : bool;
  GetAlertManagerEndpoint : result string
}.

Record PromOperatorCRDManager : Type := {
  (** the error of [SyncPrometheusRule], nil when the publish succeeds *)
  SyncPrometheusRule_err : PrometheusRule -> option error
}.

Record SecretsGetter : Type := {
  (** an error of [Get] other than the absence of the secret *)
  secret_Get_err : string -> string -> option error;
  (** the error of [Update], nil when the write succeeds *)
  secret_Update_err : string -> string -> Secret -> option error
}.

Record ConfigSyncer : Type := {
  secretsGetter : SecretsGetter;
  (** [Get(namespace, name)] of the group listers: the Go pair *)
  projectAlertGroupLister :
    string -> string -> option ProjectAlertGroup * option error;
  clusterAlertGroupLister :
    string -> string -> option ClusterAlertGroup * option error;
  (** [List("", labels.NewSelector())] of the other listers *)
  projectAlertRuleLister : result (list ProjectAlertRule);
  clusterAlertRuleLister : result (list ClusterAlertRule);
  notifierLister : result (list Notifier);
  clusterName : string;
  alertManager : AlertManager;
  operatorCRDManager : PromOperatorCRDManager
}.

Inductive Call : Type :=
| CallGetAlertManagerEndpoint
| CallListNotifiers
| CallListClusterAlertRules
| CallListProjectAlertRules
| CallSyncPrometheusRule (promRule : PrometheusRule)
| CallSecretGet (namespace name : string)
| CallSecretUpdate (namespace name : string) (secret : Secret).

Record World : Type := {
  secrets : gmap (string * string) Secret;
  trace : list Call
}.

Definition log (c : Call) (w : World) : World :=
  {| secrets := secrets w; trace := trace w ++ [c] |}.

(** *** A state and error monad for the effectful part *)

Definition M (A : Type) : Type := World -> result A * World.

Definition ret {A} (a : A) : M A := fun w => (Ok a, w).

Definition bind {A B} (m : M A) (k : A -> M B) : M B :=
  fun w =>
    match m w with
    | (Ok a, w') => k a w'
    | (Err e, w') => (Err e, w')
    | (Panic msg, w') => (Panic msg, w')
    end.

Definition raise {A} (e : error) : M A := fun w => (Err e, w).
Definition panic {A} (msg : string) : M A := fun w => (Panic msg, w).

(** perform a call whose outcome the collaborator decides *)
Definition call {A} (c : Call) (r : result A) : M A :=
  fun w => (r, log c w).

(** [v, err := f(); if err != nil { return errors.Wrapf(err, msg) }] *)
Definition wrapf {A} (m : M A) (msg : string) : M A :=
  fun w =>
    match m w with
    | (Err e, w') => (Err (Wrapf e msg), w')
    | other => other
    end.

Definition lift {A} (r : result A) : M A := fun w => (r, w).

Notation "'do' x <- c ; k" := (bind c (fun x => k))
  (at level 10, x name, c at level 100, k at level 200).

Definition SyncPrometheusRule (d : ConfigSyncer) (promRule : PrometheusRule)
    : M unit :=
  call (CallSyncPrometheusRule promRule)
    match SyncPrometheusRule_err (operatorCRDManager d) promRule with
    | Some e => Err e
    | None => Ok tt
    end.

(** [secretClient.Get(name, metav1.GetOptions{})] in a namespace *)
Definition secret_Get (d : ConfigSyncer) (namespace name : string)
    : M Secret :=
  fun w =>
    let w' := log (CallSecretGet namespace name) w in
    match secret_Get_err (secretsGetter d) namespace name with
    | Some e => (Err e, w')
    | None =>
      match secrets w !! (namespace, name) with
      | Some s => (Ok s, w')
      | None => (Err (StatusNotFound ("secrets " +:+ name +:+ " not found")), w')
      end
    end.

(** [secretClient.Update(secret)]: the secret keeps the name it was read
    under; a successful update replaces the stored secret. *)
Definition secret_Update (d : ConfigSyncer) (namespace name : string)
    (s : Secret) : M unit :=
  fun w =>
    match secret_Update_err (secretsGetter d) namespace name s with
    | Some e => (Err e, log (CallSecretUpdate namespace name s) w)
    | None =>
      (Ok tt, {| secrets := <[(namespace, name) := s]> (secrets w);
                 trace := trace w ++ [CallSecretUpdate namespace name s] |})
    end.

(** *** Functions and values of other packages *)

Variable ref_Parse : string -> string * string.
Variable GetRuleID : string -> string -> string.
Variable ObjectInCluster : string -> ProjectAlertRule -> bool.
Variable ClusterMonitoringInfo : string * string.
Variable ProjectMonitoringInfo : string -> string * string.
Variable ClusterAlertManagerInfo : string * string.
Variable GetAlertManagerSecretName : string -> string.
Variable Metric2Rule :
  string -> string -> string -> string -> string -> MetricRule -> Rule.
Variable GetAlertManagerDefaultConfig : Config.
Variable yaml_Marshal : Config -> result string.
Variable NotificationTmpl : string.

(** *** The partition of the rules (first half of [sync]) *)

Definition inactive (state : string) : bool := String.eqb state "inactive".

(** one turn of the loop over [clusterAlertRules] *)
Definition cAlertsMap_add (m : gmap string (list ClusterAlertRule))
    (alert : ClusterAlertRule) : gmap string (list ClusterAlertRule) :=
  if negb (inactive (car_AlertState alert)) then
    <[car_GroupName alert :=
        default [] (m !! car_GroupName alert) ++ [alert]]> m
  else m.

Definition cAlertsMap_of (clusterAlertRules : list ClusterAlertRule)
    : gmap string (list ClusterAlertRule) :=
  foldl cAlertsMap_add ∅ clusterAlertRules.

(** one turn of the loop over [projectAlertRules] *)
Definition pAlertsMap_add (d : ConfigSyncer)
    (m : gmap string (gmap string (list ProjectAlertRule)))
    (alert : ProjectAlertRule)
    : gmap string (gmap string (list ProjectAlertRule)) :=
  if ObjectInCluster (clusterName d) alert then
    if negb (inactive (par_AlertState alert)) then
      let projectName := (ref_Parse (par_ProjectName alert)).2 in
      let m := match m !! projectName with
               | Some _ => m
               | None => <[projectName := ∅]> m
               end in
      let groups := default ∅ (m !! projectName) in
      <[projectName :=
          <[par_GroupName alert :=
              default [] (groups !! par_GroupName alert) ++ [alert]]> groups]> m
    else m
  else m.

Definition pAlertsMap_of (d : ConfigSyncer)
    (projectAlertRules : list ProjectAlertRule)
    : gmap string (gmap string (list ProjectAlertRule)) :=
  foldl (pAlertsMap_add d) ∅ projectAlertRules.

(** *** The metric rule publisher *)

(** the inner loop of [addClusterAlert2Operator] over the rules of a group *)
Definition clusterRuleGroup (d : ConfigSyncer) (groupID : string)
    (alertRules : list ClusterAlertRule) : RuleGroup :=
  foldl (fun ruleGroup alertRule =>
           match car_MetricRule alertRule with
           | Some metricRule =>
             let ruleID :=
               GetRuleID (car_GroupName alertRule) (car_Name alertRule) in
             let promRule :=
               Metric2Rule groupID ruleID
                 (Severity (car_Common alertRule))
                 (DisplayName (car_Common alertRule))
                 (clusterName d) metricRule in
             AddRule ruleGroup promRule
           | None => ruleGroup
           end)
        (GetRuleGroup groupID) alertRules.

(** the loop of [addClusterAlert2Operator] over the keys: the flag
    [enabled] and the artifact *)
Definition clusterPromRule (d : ConfigSyncer)
    (groupRules : gmap string (list ClusterAlertRule)) (keys : list string)
    : bool * PrometheusRule :=
  let namespace := ClusterMonitoringInfo.2 in
  let promRule := GetDefaultPrometheusRule namespace (clusterName d) in
  foldl (fun '(enabled, promRule) groupID =>
           let alertRules := default [] (groupRules !! groupID) in
           (true, AddRuleGroup promRule
                    (clusterRuleGroup d groupID alertRules)))
        (false, promRule) keys.

Definition addClusterAlert2Operator (d : ConfigSyncer)
    (groupRules : gmap string (list ClusterAlertRule)) (keys : list string)
    : M unit :=
  let '(enabled, promRule) := clusterPromRule d groupRules keys in
  if negb enabled then ret tt
  else SyncPrometheusRule d promRule.

Definition projectRuleGroup (d : ConfigSyncer) (groupID : string)
    (alertRules : list ProjectAlertRule) : RuleGroup :=
  foldl (fun ruleGroup alertRule =>
           match par_MetricRule alertRule with
           | Some metricRule =>
             let ruleID :=
               GetRuleID (par_GroupName alertRule) (par_Name alertRule) in
             let promRule :=
               Metric2Rule groupID ruleID
                 (Severity (par_Common alertRule))
                 (DisplayName (par_Common alertRule))
                 (clusterName d) metricRule in
             AddRule ruleGroup promRule
           | None => ruleGroup
           end)
        (GetRuleGroup groupID) alertRules.

(** the body of the loop of [addProjectAlert2Operator] up to the test of
    [enabled] *)
Definition projectPromRule (d : ConfigSyncer)
    (projectGroups : gmap string (gmap string (list ProjectAlertRule)))
    (projectID : string) : bool * PrometheusRule :=
  let groupRules := default ∅ (projectGroups !! projectID) in
  let projectName := (ref_Parse projectID).2 in
  let namespace := (ProjectMonitoringInfo projectName).2 in
  let promRule := GetDefaultPrometheusRule namespace projectName in
  let groupIDs := sorted_keys groupRules in
  foldl (fun '(enabled, promRule) groupID =>
           let alertRules := default [] (groupRules !! groupID) in
           (true, AddRuleGroup promRule
                    (projectRuleGroup d groupID alertRules)))
        (false, promRule) groupIDs.

Fixpoint addProjectAlert2Operator (d : ConfigSyncer)
    (projectGroups : gmap string (gmap string (list ProjectAlertRule)))
    (keys : list string) : M unit :=
  match keys with
  | [] => ret tt
  | projectID :: keys' =>
    let '(enabled, promRule) := projectPromRule d projectGroups projectID in
    if negb enabled then addProjectAlert2Operator d projectGroups keys'
    else
      do _ <- SyncPrometheusRule d promRule;
      addProjectAlert2Operator d projectGroups keys'
  end.

(** *** The config assembler *)

Definition receivers_add (config : Config) (receiver : ReceiverT) : Config :=
  {| Global_PagerdutyURL := Global_PagerdutyURL config;
     Receivers := Receivers config ++ [receiver];
     cfg_Route := cfg_Route config |}.

(** [d.appendRoute(config.Route, r1)] *)
Definition root_append (config : Config) (r1 : Route) : Config :=
  {| Global_PagerdutyURL := Global_PagerdutyURL config;
     Receivers := Receivers config;
     cfg_Route := appendRoute (cfg_Route config) r1 |}.

(** the body of the loop of [addClusterAlert2Config] over the rules of a
    group *)
Definition clusterRuleRoute (groupID : string) (r1 : Route)
    (alert : ClusterAlertRule) : Route :=
  if inactive (car_AlertState alert) then r1
  else
    let ruleID := GetRuleID groupID (car_Name alert) in
    let r1 :=
      match car_EventRule alert with
      | Some _ =>
        let r2 := newRoute (<["alert_type" := "event"]>
                              {[ "rule_id" := ruleID ]})
                    defaultGroupWait defaultRepeatInterval
                    eventGroupInterval in
        appendRoute r1 r2
      | None => r1
      end in
    if is_Some_b (car_MetricRule alert)
       || is_Some_b (car_SystemServiceRule alert)
       || is_Some_b (car_NodeRule alert)
    then addRule ruleID r1 (car_Common alert)
    else r1.

Definition clusterGroupRoute (groupID : string)
    (groupRules : list ClusterAlertRule) : Route :=
  let r1 := newRoute {[ "group_id" := groupID ]}
              defaultGroupWait defaultRepeatInterval defaultGroupInterval in
  foldl (clusterRuleRoute groupID) r1 groupRules.

(** [err != nil && !apierrors.IsNotFound(err)]: the error when the test
    holds *)
Definition fatal (err : option error) : option error :=
  match err with
  | Some e => if negb (IsNotFound e) then Some e else None
  | None => None
  end.

Fixpoint addClusterAlert2Config (d : ConfigSyncer) (config : Config)
    (alerts : gmap string (list ClusterAlertRule)) (keys : list string)
    (notifiers : list Notifier) : result Config :=
  match keys with
  | [] => Ok config
  | groupID :: keys' =>
    let groupRules := default [] (alerts !! groupID) in
    let groupName := (ref_Parse groupID).2 in
    let receiver := newReceiver groupID in
    let '(group, err) :=
      clusterAlertGroupLister d (clusterName d) groupName in
    match fatal err with
    | Some e =>
      Err (Errorf ("get cluster alert group " +:+ clusterName d +:+ ":"
                   +:+ groupName +:+ " failed, " +:+ error_string e))
    | None =>
      match group with
      | None => addClusterAlert2Config d config alerts keys' notifiers
      | Some group =>
        let '(receiver, exist') :=
          addRecipients (clusterName d) notifiers receiver
            (cag_Recipients group) in
        if exist' then
          let config := receivers_add config receiver in
          let r1 := clusterGroupRoute groupID groupRules in
          addClusterAlert2Config d (root_append config r1) alerts keys'
            notifiers
        else addClusterAlert2Config d config alerts keys' notifiers
      end
    end
  end.

(** the body of the loop of [addProjectAlert2Config] over the rules of a
    group *)
Definition projectRuleRoute (groupID : string) (r1 : Route)
    (alert : ProjectAlertRule) : Route :=
  if inactive (par_AlertState alert) then r1
  else if is_Some_b (par_PodRule alert)
          || is_Some_b (par_WorkloadRule alert)
          || is_Some_b (par_MetricRule alert)
  then
    let ruleID := GetRuleID groupID (par_Name alert) in
    addRule ruleID r1 (par_Common alert)
  else r1.

Definition projectGroupRoute (groupID : string)
    (rules : list ProjectAlertRule) : Route :=
  let r1 := newRoute {[ "group_id" := groupID ]}
              defaultGroupWait defaultRepeatInterval defaultGroupInterval in
  foldl (projectRuleRoute groupID) r1 rules.

(** the loop of [addProjectAlert2Config] over the groups of one project *)
Fixpoint addProjectGroups2Config (d : ConfigSyncer) (config : Config)
    (projectName : string) (groups : gmap string (list ProjectAlertRule))
    (groupIDs : list string) (notifiers : list Notifier) : result Config :=
  match groupIDs with
  | [] => Ok config
  | groupID :: groupIDs' =>
    let rules := default [] (groups !! groupID) in
    let groupName := (ref_Parse groupID).2 in
    let '(group, err) := projectAlertGroupLister d projectName groupName in
    match fatal err with
    | Some e =>
      Err (Errorf ("get project alert group " +:+ projectName +:+ ":"
                   +:+ groupName +:+ " failed, " +:+ error_string e))
    | None =>
      match group with
      | None =>
        addProjectGroups2Config d config projectName groups groupIDs'
          notifiers
      | Some group =>
        let receiver := newReceiver groupID in
        let '(receiver, exist') :=
          addRecipients (clusterName d) notifiers receiver
            (pag_Recipients group) in
        if exist' then
          let config := receivers_add config receiver in
          let r1 := projectGroupRoute groupID rules in
          addProjectGroups2Config d (root_append config r1) projectName
            groups groupIDs' notifiers
        else
          addProjectGroups2Config d config projectName groups groupIDs'
            notifiers
      end
    end
  end.

Fixpoint addProjectAlert2Config (d : ConfigSyncer) (config : Config)
    (projectGroups : gmap string (gmap string (list ProjectAlertRule)))
    (keys : list string) (notifiers : list Notifier) : result Config :=
  match keys with
  | [] => Ok config
  | projectName :: keys' =>
    let groups := default ∅ (projectGroups !! projectName) in
    let groupIDs := sorted_keys groups in
    match addProjectGroups2Config d config projectName groups groupIDs
            notifiers with
    | Ok config =>
      addProjectAlert2Config d config projectGroups keys' notifiers
    | other => other
    end
  end.

(** *** The sync orchestrator *)

Definition set_PagerdutyURL (config : Config) (url : string) : Config :=
  {| Global_PagerdutyURL := url;
     Receivers := Receivers config;
     cfg_Route := cfg_Route config |}.

(** [sync] from the call of [addClusterAlert2Operator] to [yaml.Marshal]:
    the serialized configuration document *)
Definition sync_document (d : ConfigSyncer) (notifiers : list Notifier)
    (cAlertsMap : gmap string (list ClusterAlertRule))
    (pAlertsMap : gmap string (gmap string (list ProjectAlertRule)))
    : M string :=
  let cAlertsKey := sorted_keys cAlertsMap in
  let pAlertsKey := sorted_keys pAlertsMap in
  do _ <- addClusterAlert2Operator d cAlertsMap cAlertsKey;
  do _ <- addProjectAlert2Operator d pAlertsMap pAlertsKey;
  let config :=
    set_PagerdutyURL GetAlertManagerDefaultConfig
      "https://events.pagerduty.com/generic/2010-04-15/create_event.json" in
  do config <-
    lift (addClusterAlert2Config d config cAlertsMap cAlertsKey notifiers);
  do config <-
    lift (addProjectAlert2Config d config pAlertsMap pAlertsKey notifiers);
  wrapf (lift (yaml_Marshal config)) "Marshal secrets".

(** [sync] from the endpoint check to [yaml.Marshal] *)
Definition sync_data (d : ConfigSyncer) : M string :=
  do _ <- call CallGetAlertManagerEndpoint
            (GetAlertManagerEndpoint (alertManager d));
  do notifiers <- wrapf (call CallListNotifiers (notifierLister d))
                    "List notifiers";
  do clusterAlertRules <-
    wrapf (call CallListClusterAlertRules (clusterAlertRuleLister d))
      "List cluster alert rules";
  do projectAlertRules <-
    wrapf (call CallListProjectAlertRules (projectAlertRuleLister d))
      "List project alert rules";
  sync_document d notifiers (cAlertsMap_of clusterAlertRules)
    (pAlertsMap_of d projectAlertRules).

(** the end of [sync]: read the secret and update it when the bytes
    differ *)
Definition sync_secret (d : ConfigSyncer) (data : string) : M unit :=
  let '(altermanagerAppName, altermanagerAppNamespace) :=
    ClusterAlertManagerInfo in
  let secretName := GetAlertManagerSecretName altermanagerAppName in
  do configSecret <-
    wrapf (secret_Get d altermanagerAppNamespace secretName) "Get secrets";
  if negb (String.eqb (Data_get configSecret "alertmanager.yaml") data) then
    match Data configSecret with
    | None => panic "assignment to entry in nil map"
    | Some m =>
      let newConfigSecret :=
        {| Data := Some (<["notification.tmpl" := NotificationTmpl]>
                           (<["alertmanager.yaml" := data]> m)) |} in
      wrapf (secret_Update d altermanagerAppNamespace secretName
               newConfigSecret) "Update secrets"
    end
  else ret tt.

Definition sync (d : ConfigSyncer) : M unit :=
  if negb (IsDeploy (alertManager d)) then ret tt
  else
    do data <- sync_data d;
    sync_secret d data.

(** *** Vocabulary of the statements *)

(** a computation that touches the world only by appending [t] to the
    trace, and returns [r] whatever the world *)
Definition logs_only {A} (m : M A) (r : result A) (t : list Call) : Prop :=
  forall w, m w = (r, {| secrets := secrets w; trace := trace w ++ t |}).

Definition is_update (c : Call) : bool :=
  match c with CallSecretUpdate _ _ _ => true | _ => false end.

Definition is_publish (c : Call) : bool :=
  match c with CallSyncPrometheusRule _ => true | _ => false end.

Definition is_listing (c : Call) : bool :=
  match c with
  | CallListNotifiers | CallListClusterAlertRules
  | CallListProjectAlertRules => true
  | _ => false
  end.

(** the number of writes to the secret store in a trace *)
Definition secret_updates (t : list Call) : nat :=
  length (List.filter is_update t).

(** a computation that leaves the secret store alone: it only logs calls,
    none of them a write to the store, and returns the same result in
    every world *)
Definition no_secret_access {A} (m : M A) : Prop :=
  exists r t, logs_only m r t /\ secret_updates t = 0%nat.

(** the same syncer over another answer of the two rule listers *)
Definition with_rules (d : ConfigSyncer)
    (clusterRules : result (list ClusterAlertRule))
    (projectRules : result (list ProjectAlertRule)) : ConfigSyncer :=
  {| secretsGetter := secretsGetter d;
     projectAlertGroupLister := projectAlertGroupLister d;
     clusterAlertGroupLister := clusterAlertGroupLister d;
     projectAlertRuleLister := projectRules;
     clusterAlertRuleLister := clusterRules;
     notifierLister := notifierLister d;
     clusterName := clusterName d;
     alertManager := alertManager d;
     operatorCRDManager := operatorCRDManager d |}.

(** a rule that the partition files under the group [g] *)
Definition in_cluster_group (g : string) (alert : ClusterAlertRule) : Prop :=
  inactive (car_AlertState alert) = false /\ car_GroupName alert = g.

#[global] Instance in_cluster_group_dec g alert :
  Decision (in_cluster_group g alert).
Proof. unfold in_cluster_group. apply _. Defined.

(** the group of a key yields a receiver and a group node *)
Definition cluster_produces (d : ConfigSyncer) (notifiers : list Notifier)
    (k : string) : Prop :=
  exists group,
    (clusterAlertGroupLister d (clusterName d) (ref_Parse k).2).1
      = Some group /\
    (addRecipients (clusterName d) notifiers (newReceiver k)
       (cag_Recipients group)).2 = true.

(** a recipient resolves when it names a notifier of the list *)
Definition resolves (d : ConfigSyncer) (notifiers : list Notifier)
    (r : Recipient) : Prop :=
  NotifierName r <> "" /\
  is_Some (getNotifier (clusterName d) (NotifierName r) notifiers).

(** *** The handlers and the remaining helper *)

(** The five handlers registered on the controllers: each ignores the key
    and the object it is handed, runs [sync] and returns a nil object with
    the error of [sync]. *)
Definition ProjectGroupSync (d : ConfigSyncer) (key : string)
    (alert : option ProjectAlertGroup) : M unit := sync d.

Definition ClusterGroupSync (d : ConfigSyncer) (key : string)
    (alert : option ClusterAlertGroup) : M unit := sync d.

Definition ProjectRuleSync (d : ConfigSyncer) (key : string)
    (alert : option ProjectAlertRule) : M unit := sync d.

Definition ClusterRuleSync (d : ConfigSyncer) (key : string)
    (alert : option ClusterAlertRule) : M unit := sync d.

Definition NotifierSync (d : ConfigSyncer) (key : string)
    (alert : option Notifier) : M unit := sync d.

Fixpoint includeProjectMetrics (projectAlerts : list ProjectAlertRule)
    : bool :=
  match projectAlerts with
  | [] => false
  | v :: projectAlerts' =>
    if is_Some_b (par_MetricRule v) then true
    else includeProjectMetrics projectAlerts'
  end.

(** *** Further vocabulary *)

(** the number of channel configs of a receiver *)
Definition n_configs (rc : ReceiverT) : nat :=
  (length (PagerdutyConfigs rc) + length (WebhookConfigs rc)
   + length (SlackConfigs rc) + length (EmailConfigs rc))%nat.

(** a notifier with at least one of the four channels configured *)
Definition has_channel (n : Notifier) : bool :=
  is_Some_b (PagerdutyConfig_ n) || is_Some_b (WebhookConfig_ n)
  || is_Some_b (SlackConfig_ n) || is_Some_b (SMTPConfig_ n).

(** a recipient that names a notifier of the list with a channel *)
Definition yields_config (cn : string) (notifiers : list Notifier)
    (r : Recipient) : bool :=
  negb (String.eqb (NotifierName r) "")
  && match getNotifier cn (NotifierName r) notifiers with
     | Some n => has_channel n
     | None => false
     end.

(** the group of a key is found and its recipients give a receiver *)
Definition cluster_emits (d : ConfigSyncer) (notifiers : list Notifier)
    (k : string) : bool :=
  match (clusterAlertGroupLister d (clusterName d) (ref_Parse k).2).1 with
  | Some group =>
    (addRecipients (clusterName d) notifiers (newReceiver k)
       (cag_Recipients group)).2
  | None => false
  end.

Definition project_emits (d : ConfigSyncer) (notifiers : list Notifier)
    (projectName k : string) : bool :=
  match (projectAlertGroupLister d projectName (ref_Parse k).2).1 with
  | Some group =>
    (addRecipients (clusterName d) notifiers (newReceiver k)
       (pag_Recipients group)).2
  | None => false
  end.

(** the rule ids of the nodes that the cluster assembler makes for a rule,
    in order: one for an event payload, one for a metric, system-service
    or node payload *)
Definition cluster_rule_ids (groupID : string) (alert : ClusterAlertRule)
    : list string :=
  if inactive (car_AlertState alert) then []
  else
    (if is_Some_b (car_EventRule alert)
     then [GetRuleID groupID (car_Name alert)] else [])
    ++ (if is_Some_b (car_MetricRule alert)
           || is_Some_b (car_SystemServiceRule alert)
           || is_Some_b (car_NodeRule alert)
        then [GetRuleID groupID (car_Name alert)] else []).

Definition project_rule_ids (groupID : string) (alert : ProjectAlertRule)
    : list string :=
  if inactive (par_AlertState alert) then []
  else if is_Some_b (par_PodRule alert) || is_Some_b (par_WorkloadRule alert)
          || is_Some_b (par_MetricRule alert)
  then [GetRuleID groupID (par_Name alert)] else [].

(** a rule that the partition files under the project [p] and the group
    [g] *)
Definition in_project_group (d : ConfigSyncer) (p g : string)
    (alert : ProjectAlertRule) : Prop :=
  ObjectInCluster (clusterName d) alert = true /\
  inactive (par_AlertState alert) = false /\
  (ref_Parse (par_ProjectName alert)).2 = p /\
  par_GroupName alert = g.

#[global] Instance in_project_group_dec d p g alert :
  Decision (in_project_group d p g alert).
Proof. unfold in_project_group. apply _. Defined.

(** a rule that the partition files under the project [p] *)
Definition in_project (d : ConfigSyncer) (p : string)
    (alert : ProjectAlertRule) : Prop :=
  ObjectInCluster (clusterName d) alert = true /\
  inactive (par_AlertState alert) = false /\
  (ref_Parse (par_ProjectName alert)).2 = p.

#[global] Instance in_project_dec d p alert : Decision (in_project d p alert).
Proof. unfold in_project. apply _. Defined.

Definition is_secret_call (c : Call) : bool :=
  match c with
  | CallSecretGet _ _ | CallSecretUpdate _ _ _ => true
  | _ => false
  end.

(** the calls of a trace that go to the secret client *)
Definition secret_calls (t : list Call) : list Call :=
  List.filter is_secret_call t.

(** the calls of a trace that publish a rule artifact *)
Definition publishes (t : list Call) : list Call :=
  List.filter is_publish t.

(** what a run of an assembler leaves of the document it was handed: the
    global part and the root node but for its children *)
Definition same_frame (config config' : Config) : Prop :=
  Global_PagerdutyURL config' = Global_PagerdutyURL config /\
  Receiver (cfg_Route config') = Receiver (cfg_Route config) /\
  Match (cfg_Route config') = Match (cfg_Route config) /\
  GroupWait (cfg_Route config') = GroupWait (cfg_Route config) /\
  RepeatInterval (cfg_Route config') = RepeatInterval (cfg_Route config) /\
  GroupInterval (cfg_Route config') = GroupInterval (cfg_Route config).

End Syncer.

Arguments ClusterAlertRule : clear implicits.
Arguments ProjectAlertRule : clear implicits.
Arguments RuleGroup : clear implicits.
Arguments PrometheusRule : clear implicits.
Arguments PromOperatorCRDManager : clear implicits.
Arguments ConfigSyncer : clear implicits.
Arguments Call : clear implicits.
Arguments World : clear implicits.
Arguments M : clear implicits.

End configsyncer.

Import configsyncer.

(** * A concrete instance

    The functions of the other packages, written out so that the syncer can
    be run on examples: [ref.Parse] splits a reference at its first colon,
    [common.GetRuleID] joins the group id and the rule name, and the
    serializer prints the document field by field. The payloads carry no
    content, and a Prometheus rule is the list of strings it was made
    from. *)
Module Fixture.

Fixpoint split_colon (s : string) : option (string * string) :=
  match s with
  | EmptyString => None
  | String c s' =>
    if Ascii.eqb c ":"%char then Some (EmptyString, s')
    else match split_colon s' with
         | Some (a, b) => Some (String c a, b)
         | None => None
         end
  end.

Definition ref_Parse (ref : string) : string * string :=
  match split_colon ref with
  | Some p => p
  | None => ("", ref)
  end.

Definition GetRuleID (groupID ruleName : string) : string :=
  groupID +:+ "_" +:+ ruleName.

Definition Payload : Type := unit.
Definition Rule : Type := list string.

Definition Metric2Rule (groupID ruleID severity displayName clusterName
    : string) (metricRule : Payload) : Rule :=
  [groupID; ruleID; severity; displayName; clusterName].

Definition ObjectInCluster (clusterName : string)
    (alert : ProjectAlertRule Payload Payload Payload) : bool := true.

Definition ClusterMonitoringInfo : string * string :=
  ("cluster-monitoring", "cattle-prometheus").
Definition ProjectMonitoringInfo (projectName : string) : string * string :=
  ("project-monitoring", "cattle-prometheus-" +:+ projectName).
Definition ClusterAlertManagerInfo : string * string :=
  ("cluster-alerting", "cattle-prometheus").
Definition GetAlertManagerSecretName (appName : string) : string :=
  "alertmanager-" +:+ appName.

Definition GetAlertManagerDefaultConfig : Config :=
  {| Global_PagerdutyURL := "";
     Receivers := [newReceiver "rancherlabs"];
     cfg_Route :=
       {| Receiver := "rancherlabs"; Match := ∅;
          GroupWait := Some (seconds 180);
          RepeatInterval := Some (seconds 3600);
          GroupInterval := Some (seconds 180);
          Routes := [] |} |}.

Definition NotificationTmpl : string := "{{ define rancher.title }}".

Definition render_duration (o : option Z) : string :=
  match o with
  | Some z => Itoa z
  | None => "~"
  end.

Definition render_match (m : gmap string string) : string :=
  foldr (fun k acc => k +:+ "=" +:+ default "" (m !! k) +:+ ";" +:+ acc) ""
    (sorted_keys m).

Fixpoint render_route (r : Route) : string :=
  match r with
  | mkRoute receiver match_ gw ri gi routes =>
    "{receiver:" +:+ receiver +:+ ",match:" +:+ render_match match_
    +:+ ",group_wait:" +:+ render_duration gw
    +:+ ",repeat_interval:" +:+ render_duration ri
    +:+ ",group_interval:" +:+ render_duration gi
    +:+ ",routes:["
    +:+ (fix go (l : list Route) : string :=
           match l with
           | [] => ""
           | r' :: l' => render_route r' +:+ go l'
           end) routes
    +:+ "]}"
  end.

Definition render_receiver (rc : ReceiverT) : string :=
  "{name:" +:+ rc_Name rc
  +:+ ",pagerduty:"
  +:+ foldr (fun c acc => pd_ServiceKey c +:+ ";" +:+ acc) ""
        (PagerdutyConfigs rc)
  +:+ ",webhook:"
  +:+ foldr (fun c acc => wh_URL c +:+ ";" +:+ acc) "" (WebhookConfigs rc)
  +:+ ",slack:"
  +:+ foldr (fun c acc => sl_APIURL c +:+ "#" +:+ sl_Channel c +:+ ";"
                          +:+ acc) "" (SlackConfigs rc)
  +:+ ",email:"
  +:+ foldr (fun c acc => em_Smarthost c +:+ "#" +:+ em_To c +:+ ";"
                          +:+ acc) "" (EmailConfigs rc)
  +:+ "}".

Definition yaml_Marshal (config : Config) : result string :=
  Ok ("global:" +:+ Global_PagerdutyURL config
      +:+ " receivers:"
      +:+ foldr (fun rc acc => render_receiver rc +:+ acc) ""
            (Receivers config)
      +:+ " route:" +:+ render_route (cfg_Route config)).

(** the nodes of a routing tree in preorder: depth, label matchers and the
    three timing fields (group wait, group interval, repeat interval) *)
Fixpoint describe (depth : nat) (r : Route)
    : list (nat * string * (option Z * option Z * option Z)) :=
  match r with
  | mkRoute _ match_ gw ri gi routes =>
    (depth, render_match match_, (gw, gi, ri))
    :: (fix go (l : list Route) :=
          match l with
          | [] => []
          | r' :: l' => describe (S depth) r' ++ go l'
          end) routes
  end.

Definition describe_result (r : result Config)
    : option (list (nat * string * (option Z * option Z * option Z))) :=
  match r with
  | Ok config => Some (describe 0 (cfg_Route config))
  | _ => None
  end.

Definition receiver_names (r : result Config) : option (list string) :=
  match r with
  | Ok config => Some (map rc_Name (Receivers config))
  | _ => None
  end.

(** the document stored in the secret of the Alertmanager *)
Definition stored_document (w : World Rule) : string :=
  match secrets w !! ("cattle-prometheus", "alertmanager-cluster-alerting")
  with
  | Some s => Data_get s "alertmanager.yaml"
  | None => ""
  end.

(** the artifacts published to the rule-CR store, in order *)
Definition published (w : World Rule) : list (PrometheusRule Rule) :=
  omap (fun c => match c with
                 | CallSyncPrometheusRule promRule => Some promRule
                 | _ => None
                 end) (trace w).

Abbreviation CRule := (ClusterAlertRule Payload Payload Payload Payload).
Abbreviation PRule := (ProjectAlertRule Payload Payload Payload).
Abbreviation Syncer :=
  (ConfigSyncer Payload Payload Payload Payload Payload Payload Rule).

Abbreviation sync :=
  (sync ref_Parse GetRuleID ObjectInCluster ClusterMonitoringInfo
     ProjectMonitoringInfo ClusterAlertManagerInfo
     GetAlertManagerSecretName Metric2Rule GetAlertManagerDefaultConfig
     yaml_Marshal NotificationTmpl).
Abbreviation addClusterAlert2Config :=
  (addClusterAlert2Config ref_Parse GetRuleID).
Abbreviation addClusterAlert2Operator :=
  (addClusterAlert2Operator GetRuleID ClusterMonitoringInfo Metric2Rule).
Abbreviation clusterPromRule :=
  (clusterPromRule GetRuleID ClusterMonitoringInfo Metric2Rule).
Abbreviation clusterRuleRoute := (clusterRuleRoute GetRuleID).
Abbreviation projectRuleRoute := (projectRuleRoute GetRuleID).
Abbreviation pAlertsMap_of := (pAlertsMap_of ref_Parse ObjectInCluster).
Abbreviation addProjectAlert2Operator :=
  (addProjectAlert2Operator ref_Parse GetRuleID ProjectMonitoringInfo
     Metric2Rule).
Abbreviation projectPromRule :=
  (projectPromRule ref_Parse GetRuleID ProjectMonitoringInfo Metric2Rule).
Abbreviation addProjectGroups2Config :=
  (addProjectGroups2Config ref_Parse GetRuleID).
Abbreviation addProjectAlert2Config :=
  (addProjectAlert2Config ref_Parse GetRuleID).
Abbreviation sync_secret :=
  (sync_secret ClusterAlertManagerInfo GetAlertManagerSecretName
     NotificationTmpl).

Definition no_timing : CommonRuleField :=
  {| DisplayName := "rule"; Severity := "critical";
     GroupWaitSeconds := 0; GroupIntervalSeconds := 0;
     RepeatIntervalSeconds := 0 |}.

Definition timing (gw gi ri : Z) : CommonRuleField :=
  {| DisplayName := "rule"; Severity := "critical";
     GroupWaitSeconds := gw; GroupIntervalSeconds := gi;
     RepeatIntervalSeconds := ri |}.

Definition event_rule (name state group : string) : CRule :=
  {| car_Name := name; car_AlertState := state; car_GroupName := group;
     car_Common := timing 180 180 3600;
     car_NodeRule := None; car_EventRule := Some tt;
     car_SystemServiceRule := None; car_MetricRule := None |}.

Definition metric_rule (name state group : string) (comm : CommonRuleField)
    : CRule :=
  {| car_Name := name; car_AlertState := state; car_GroupName := group;
     car_Common := comm;
     car_NodeRule := None; car_EventRule := None;
     car_SystemServiceRule := None; car_MetricRule := Some tt |}.

Definition slack_notifier (name : string) : Notifier :=
  {| nt_Name := name; PagerdutyConfig_ := None; WebhookConfig_ := None;
     SlackConfig_ := Some {| nt_SlackURL := "https://hooks.slack.test/x";
                             nt_SlackDefaultRecipient := "#alerts" |};
     SMTPConfig_ := None |}.

Definition project_rule (name state project group : string)
    (comm : CommonRuleField) : PRule :=
  {| par_Name := name; par_AlertState := state;
     par_ProjectName := project; par_GroupName := group;
     par_Common := comm;
     par_PodRule := None; par_WorkloadRule := None;
     par_MetricRule := Some tt |}.

Definition pod_rule (name state project group : string)
    (comm : CommonRuleField) : PRule :=
  {| par_Name := name; par_AlertState := state;
     par_ProjectName := project; par_GroupName := group;
     par_Common := comm;
     par_PodRule := Some tt; par_WorkloadRule := None;
     par_MetricRule := None |}.

(** A cluster [c1] with the notifier [n1]. The cluster group [g1] and the
    project group [pg1] exist, each with one recipient that names the
    notifier [recipient]; the lookup of a group named [broken] fails with
    a server error; every other group is not found. *)
Definition syncer (recipient : string) (clusterRules : list CRule)
    (projectRules : list PRule) : Syncer :=
  {| secretsGetter :=
       {| secret_Get_err := fun _ _ => None;
          secret_Update_err := fun _ _ _ => None |};
     projectAlertGroupLister := fun _ name =>
       if String.eqb name "pg1" then
         (Some {| pag_Recipients :=
                    [{| NotifierName := recipient; Recipient_ := "" |}] |},
          None)
       else if String.eqb name "broken" then
         (None, Some (StatusOther "etcdserver: request timed out"))
       else (None, Some (StatusNotFound "projectalertgroup not found"));
     clusterAlertGroupLister := fun _ name =>
       if String.eqb name "g1" then
         (Some {| cag_Recipients :=
                    [{| NotifierName := recipient; Recipient_ := "" |}] |},
          None)
       else if String.eqb name "broken" then
         (None, Some (StatusOther "etcdserver: request timed out"))
       else (None, Some (StatusNotFound "clusteralertgroup not found"));
     projectAlertRuleLister := Ok projectRules;
     clusterAlertRuleLister := Ok clusterRules;
     notifierLister := Ok [slack_notifier "n1"];
     clusterName := "c1";
     alertManager :=
       {| IsDeploy := true;
          GetAlertManagerEndpoint := Ok "http://alertmanager:9093" |};
     operatorCRDManager := {| SyncPrometheusRule_err := fun _ => None |} |}.

(** the same syncer with another Alertmanager handle *)
Definition with_alertManager (d : Syncer) (am : AlertManager) : Syncer :=
  {| secretsGetter := secretsGetter d;
     projectAlertGroupLister := projectAlertGroupLister d;
     clusterAlertGroupLister := clusterAlertGroupLister d;
     projectAlertRuleLister := projectAlertRuleLister d;
     clusterAlertRuleLister := clusterAlertRuleLister d;
     notifierLister := notifierLister d;
     clusterName := clusterName d;
     alertManager := am;
     operatorCRDManager := operatorCRDManager d |}.

(** the same syncer with another answer of the notifier lister *)
Definition with_notifiers (d : Syncer) (ns : result (list Notifier))
    : Syncer :=
  {| secretsGetter := secretsGetter d;
     projectAlertGroupLister := projectAlertGroupLister d;
     clusterAlertGroupLister := clusterAlertGroupLister d;
     projectAlertRuleLister := projectAlertRuleLister d;
     clusterAlertRuleLister := clusterAlertRuleLister d;
     notifierLister := ns;
     clusterName := clusterName d;
     alertManager := alertManager d;
     operatorCRDManager := operatorCRDManager d |}.

Definition world0 : World Rule :=
  {| secrets :=
       {[ ("cattle-prometheus", "alertmanager-cluster-alerting") :=
            {| Data := Some ∅ |} ]};
     trace := [] |}.

Abbreviation cluster_emits := (cluster_emits ref_Parse).
Abbreviation project_emits := (project_emits ref_Parse).
Abbreviation clusterGroupRoute := (clusterGroupRoute GetRuleID).
Abbreviation projectGroupRoute := (projectGroupRoute GetRuleID).
Abbreviation clusterRuleGroup := (clusterRuleGroup GetRuleID Metric2Rule).
Abbreviation in_project_group :=
  (in_project_group ref_Parse ObjectInCluster).
Abbreviation sync_document :=
  (sync_document ref_Parse GetRuleID ClusterMonitoringInfo
     ProjectMonitoringInfo Metric2Rule GetAlertManagerDefaultConfig
     yaml_Marshal).
Abbreviation sync_data :=
  (sync_data ref_Parse GetRuleID ObjectInCluster ClusterMonitoringInfo
     ProjectMonitoringInfo Metric2Rule GetAlertManagerDefaultConfig
     yaml_Marshal).

(** the same syncer with another client of the rule-CR store *)
Definition with_operator (d : Syncer) (op : PromOperatorCRDManager Rule)
    : Syncer :=
  {| secretsGetter := secretsGetter d;
     projectAlertGroupLister := projectAlertGroupLister d;
     clusterAlertGroupLister := clusterAlertGroupLister d;
     projectAlertRuleLister := projectAlertRuleLister d;
     clusterAlertRuleLister := clusterAlertRuleLister d;
     notifierLister := notifierLister d;
     clusterName := clusterName d;
     alertManager := alertManager d;
     operatorCRDManager := op |}.

(** the same syncer with another secret client *)
Definition with_secretsGetter (d : Syncer) (sg : SecretsGetter) : Syncer :=
  {| secretsGetter := sg;
     projectAlertGroupLister := projectAlertGroupLister d;
     clusterAlertGroupLister := clusterAlertGroupLister d;
     projectAlertRuleLister := projectAlertRuleLister d;
     clusterAlertRuleLister := clusterAlertRuleLister d;
     notifierLister := notifierLister d;
     clusterName := clusterName d;
     alertManager := alertManager d;
     operatorCRDManager := operatorCRDManager d |}.

Definition denied : error := StatusOther "admission webhook denied the request".

(** a rule-CR store that refuses the artifacts of the namespace [ns] *)
Definition refusing_in (ns : string) : PromOperatorCRDManager Rule :=
  {| SyncPrometheusRule_err := fun promRule =>
       if String.eqb (pr_Namespace promRule) ns then Some denied else None |}.

(** a backing store whose secret has no data map *)
Definition world_nil : World Rule :=
  {| secrets :=
       {[ ("cattle-prometheus", "alertmanager-cluster-alerting") :=
            {| Data := None |} ]};
     trace := [] |}.

(** a backing store whose secret holds a key of its own *)
Definition world_extra : World Rule :=
  {| secrets :=
       {[ ("cattle-prometheus", "alertmanager-cluster-alerting") :=
            {| Data := Some {[ "extra.yaml" := "kept" ]} |} ]};
     trace := [] |}.

(** a backing store without the secret *)
Definition world_empty : World Rule := {| secrets := ∅; trace := [] |}.

End Fixture.

(** * Properties *)

Section Properties.

Context {MetricRule EventRule SystemServiceRule NodeRule PodRule
         WorkloadRule Rule : Type}.

Variable ref_Parse : string -> string * string.
Variable GetRuleID : string -> string -> string.
Variable ObjectInCluster :
  string -> ProjectAlertRule MetricRule PodRule WorkloadRule -> bool.
Variable ClusterMonitoringInfo : string * string.
Variable ProjectMonitoringInfo : string -> string * string.
Variable ClusterAlertManagerInfo : string * string.
Variable GetAlertManagerSecretName : string -> string.
Variable Metric2Rule :
  string -> string -> string -> string -> string -> MetricRule -> Rule.
Variable GetAlertManagerDefaultConfig : Config.
Variable yaml_Marshal : Config -> result string.
Variable NotificationTmpl : string.

Local Abbreviation CRule :=
  (ClusterAlertRule MetricRule EventRule SystemServiceRule NodeRule).
Local Abbreviation PRule := (ProjectAlertRule MetricRule PodRule WorkloadRule).
Local Abbreviation Syncer :=
  (ConfigSyncer MetricRule EventRule SystemServiceRule NodeRule PodRule
     WorkloadRule Rule).
Local Abbreviation pAlertsMap_of := (pAlertsMap_of ref_Parse ObjectInCluster).
Local Abbreviation clusterRuleGroup := (clusterRuleGroup GetRuleID Metric2Rule).
Local Abbreviation projectRuleGroup := (projectRuleGroup GetRuleID Metric2Rule).
Local Abbreviation clusterPromRule :=
  (clusterPromRule GetRuleID ClusterMonitoringInfo Metric2Rule).
Local Abbreviation projectPromRule :=
  (projectPromRule ref_Parse GetRuleID ProjectMonitoringInfo Metric2Rule).
Local Abbreviation addClusterAlert2Operator :=
  (addClusterAlert2Operator GetRuleID ClusterMonitoringInfo Metric2Rule).
Local Abbreviation addProjectAlert2Operator :=
  (addProjectAlert2Operator ref_Parse GetRuleID ProjectMonitoringInfo
     Metric2Rule).
Local Abbreviation cluster_produces := (cluster_produces ref_Parse).
Local Abbreviation clusterRuleRoute := (clusterRuleRoute GetRuleID).
Local Abbreviation clusterGroupRoute := (clusterGroupRoute GetRuleID).
Local Abbreviation projectRuleRoute := (projectRuleRoute GetRuleID).
Local Abbreviation projectGroupRoute := (projectGroupRoute GetRuleID).
Local Abbreviation addClusterAlert2Config :=
  (addClusterAlert2Config ref_Parse GetRuleID).
Local Abbreviation addProjectGroups2Config :=
  (addProjectGroups2Config ref_Parse GetRuleID).
Local Abbreviation addProjectAlert2Config :=
  (addProjectAlert2Config ref_Parse GetRuleID).
Local Abbreviation sync_document :=
  (sync_document ref_Parse GetRuleID ClusterMonitoringInfo
     ProjectMonitoringInfo Metric2Rule GetAlertManagerDefaultConfig
     yaml_Marshal).
Local Abbreviation sync_data :=
  (sync_data ref_Parse GetRuleID ObjectInCluster ClusterMonitoringInfo
     ProjectMonitoringInfo Metric2Rule GetAlertManagerDefaultConfig
     yaml_Marshal).
Local Abbreviation sync_secret :=
  (sync_secret ClusterAlertManagerInfo GetAlertManagerSecretName
     NotificationTmpl).
Local Abbreviation sync :=
  (sync ref_Parse GetRuleID ObjectInCluster ClusterMonitoringInfo
     ProjectMonitoringInfo ClusterAlertManagerInfo
     GetAlertManagerSecretName Metric2Rule GetAlertManagerDefaultConfig
     yaml_Marshal NotificationTmpl).

(** ** Durations and the route builder *)

Lemma seconds_small (n : Z) :
  -9223372036 <= n <= 9223372036 -> seconds n = n * 1000000000.
Proof.
  intros Hn. unfold seconds, wrap64, Second.
  rewrite Z.mod_small by lia. lia.
Qed.

Lemma newRoute_fields (m : gmap string string) (gw gi ri : Z) :
  Match (newRoute m gw gi ri) = m /\
  GroupWait (newRoute m gw gi ri) = Some (seconds gw) /\
  RepeatInterval (newRoute m gw gi ri) = Some (seconds ri) /\
  GroupInterval (newRoute m gw gi ri)
    = (if decide (gi = 10) then None else Some (seconds gi)) /\
  Routes (newRoute m gw gi ri) = [].
Proof.
  repeat split. unfold newRoute, defaultGroupInterval; simpl.
  destruct (decide (gi = 10)) as [->|Hne]; [reflexivity|].
  destruct (Z.eqb_spec gi 10); [contradiction|reflexivity].
Qed.

Lemma Routes_appendRoute (r r2 : Route) :
  Routes (appendRoute r r2) = Routes r ++ [r2].
Proof. reflexivity. Qed.

(** An event rule that is not inactive gets a child whose third timing
    argument, the repeat interval, is the event interval, and whose
    group interval is left out: the call passes the default repeat interval
    where [newRoute] expects the group interval. *)
Lemma clusterRuleRoute_event (groupID : string) (r1 : Route) (alert : CRule)
    (ev : EventRule) :
  inactive (car_AlertState alert) = false ->
  car_EventRule alert = Some ev ->
  exists r2 rest,
    Routes (clusterRuleRoute groupID r1 alert) = Routes r1 ++ r2 :: rest /\
    Match r2 = <["alert_type" := "event"]>
                 {[ "rule_id" := GetRuleID groupID (car_Name alert) ]} /\
    GroupWait r2 = Some (seconds 10) /\
    RepeatInterval r2 = Some (seconds 1) /\
    GroupInterval r2 = None.
Proof.
  intros Hact Hev. unfold configsyncer.clusterRuleRoute. rewrite Hact, Hev.
  exists (newRoute (<["alert_type" := "event"]>
                      {[ "rule_id" := GetRuleID groupID (car_Name alert) ]})
            defaultGroupWait defaultRepeatInterval eventGroupInterval).
  destruct (is_Some_b (car_MetricRule alert)
            || is_Some_b (car_SystemServiceRule alert)
            || is_Some_b (car_NodeRule alert)).
  - exists [newRoute {[ "rule_id" := GetRuleID groupID (car_Name alert) ]}
              (GroupWaitSeconds (car_Common alert))
              (GroupIntervalSeconds (car_Common alert))
              (RepeatIntervalSeconds (car_Common alert))].
    split; [|repeat split].
    unfold addRule. rewrite !Routes_appendRoute, <- app_assoc. reflexivity.
  - exists []. split; [|repeat split]. apply Routes_appendRoute.
Qed.

Lemma clusterRuleRoute_rule (groupID : string) (r1 : Route) (alert : CRule) :
  inactive (car_AlertState alert) = false ->
  car_EventRule alert = None ->
  is_Some_b (car_MetricRule alert) || is_Some_b (car_SystemServiceRule alert)
    || is_Some_b (car_NodeRule alert) = true ->
  clusterRuleRoute groupID r1 alert
  = appendRoute r1
      (newRoute {[ "rule_id" := GetRuleID groupID (car_Name alert) ]}
         (GroupWaitSeconds (car_Common alert))
         (GroupIntervalSeconds (car_Common alert))
         (RepeatIntervalSeconds (car_Common alert))).
Proof.
  intros Hact Hev Hkind. unfold configsyncer.clusterRuleRoute.
  rewrite Hact, Hev, Hkind. reflexivity.
Qed.

Lemma projectRuleRoute_rule (groupID : string) (r1 : Route) (alert : PRule) :
  inactive (par_AlertState alert) = false ->
  is_Some_b (par_PodRule alert) || is_Some_b (par_WorkloadRule alert)
    || is_Some_b (par_MetricRule alert) = true ->
  projectRuleRoute groupID r1 alert
  = appendRoute r1
      (newRoute {[ "rule_id" := GetRuleID groupID (par_Name alert) ]}
         (GroupWaitSeconds (par_Common alert))
         (GroupIntervalSeconds (par_Common alert))
         (RepeatIntervalSeconds (par_Common alert))).
Proof.
  intros Hact Hkind. unfold configsyncer.projectRuleRoute.
  rewrite Hact, Hkind. reflexivity.
Qed.

(** C2 (as amended): the child node of a routed non-event rule that is not
    inactive carries the rule's own group-wait and repeat-interval, in
    seconds, and the rule's own group-interval unless that is 10, when the
    field is left out; no value is taken from the group. This holds in the
    cluster scope (metric, system-service and node rules) and in the
    project scope (pod, workload and metric rules). *)
Theorem C2_rule_node_carries_rule_timing :
  (forall (groupID : string) (r1 : Route) (alert : CRule),
      inactive (car_AlertState alert) = false ->
      car_EventRule alert = None ->
      is_Some_b (car_MetricRule alert)
        || is_Some_b (car_SystemServiceRule alert)
        || is_Some_b (car_NodeRule alert) = true ->
      exists r2,
        Routes (clusterRuleRoute groupID r1 alert) = Routes r1 ++ [r2] /\
        Match r2 = {[ "rule_id" := GetRuleID groupID (car_Name alert) ]} /\
        GroupWait r2 = Some (seconds (GroupWaitSeconds (car_Common alert))) /\
        RepeatInterval r2
          = Some (seconds (RepeatIntervalSeconds (car_Common alert))) /\
        GroupInterval r2
          = (if decide (GroupIntervalSeconds (car_Common alert) = 10)
             then None
             else Some (seconds (GroupIntervalSeconds (car_Common alert)))))
  /\
  (forall (groupID : string) (r1 : Route) (alert : PRule),
      inactive (par_AlertState alert) = false ->
      is_Some_b (par_PodRule alert) || is_Some_b (par_WorkloadRule alert)
        || is_Some_b (par_MetricRule alert) = true ->
      exists r2,
        Routes (projectRuleRoute groupID r1 alert) = Routes r1 ++ [r2] /\
        Match r2 = {[ "rule_id" := GetRuleID groupID (par_Name alert) ]} /\
        GroupWait r2 = Some (seconds (GroupWaitSeconds (par_Common alert))) /\
        RepeatInterval r2
          = Some (seconds (RepeatIntervalSeconds (par_Common alert))) /\
        GroupInterval r2
          = (if decide (GroupIntervalSeconds (par_Common alert) = 10)
             then None
             else Some (seconds (GroupIntervalSeconds (par_Common alert))))).
Proof.
  split.
  - intros groupID r1 alert Hact Hev Hkind.
    rewrite (clusterRuleRoute_rule _ _ _ Hact Hev Hkind).
    eexists. split; [apply Routes_appendRoute|].
    destruct (newRoute_fields
                {[ "rule_id" := GetRuleID groupID (car_Name alert) ]}
                (GroupWaitSeconds (car_Common alert))
                (GroupIntervalSeconds (car_Common alert))
                (RepeatIntervalSeconds (car_Common alert)))
      as (H1 & H2 & H3 & H4 & _).
    repeat split; assumption.
  - intros groupID r1 alert Hact Hkind.
    rewrite (projectRuleRoute_rule _ _ _ Hact Hkind).
    eexists. split; [apply Routes_appendRoute|].
    destruct (newRoute_fields
                {[ "rule_id" := GetRuleID groupID (par_Name alert) ]}
                (GroupWaitSeconds (par_Common alert))
                (GroupIntervalSeconds (par_Common alert))
                (RepeatIntervalSeconds (par_Common alert)))
      as (H1 & H2 & H3 & H4 & _).
    repeat split; assumption.
Qed.

(** ** Sorted keys of a map *)

Lemma elem_of_sorted_keys {V} (m : gmap string V) (k : string) :
  k ∈ sorted_keys m <-> is_Some (m !! k).
Proof.
  unfold sorted_keys, sort_Strings.
  rewrite merge_sort_Permutation, list_elem_of_fmap. split.
  - intros [[k' v] [-> Hin]]. apply elem_of_map_to_list in Hin. eauto.
  - intros [v Hv]. exists (k, v). split; [reflexivity|].
    by apply elem_of_map_to_list.
Qed.

Lemma sorted_keys_nil {V} (m : gmap string V) :
  sorted_keys m = [] <-> m = ∅.
Proof.
  split.
  - intros Hnil. apply map_empty. intros k.
    destruct (m !! k) as [v|] eqn:Hk; [|reflexivity].
    assert (k ∈ sorted_keys m) as Hin
      by (apply elem_of_sorted_keys; eauto).
    rewrite Hnil in Hin. by apply elem_of_nil in Hin.
  - intros ->. unfold sorted_keys. by rewrite map_to_list_empty.
Qed.

Lemma NoDup_sorted_keys {V} (m : gmap string V) : NoDup (sorted_keys m).
Proof.
  unfold sorted_keys, sort_Strings. rewrite merge_sort_Permutation.
  apply NoDup_fst_map_to_list.
Qed.

Lemma Sorted_sorted_keys {V} (m : gmap string V) :
  Sorted string_le (sorted_keys m).
Proof. apply Sorted_merge_sort, _. Qed.

(** ** The partition of the rules *)

Lemma cAlertsMap_fold_lookup (rules : list CRule) (g : string)
    (m : gmap string (list CRule)) :
  foldl cAlertsMap_add m rules !! g
  = match filter (in_cluster_group g) rules with
    | [] => m !! g
    | l => Some (default [] (m !! g) ++ l)
    end.
Proof.
  revert m. induction rules as [|a rules IH]; intros m; [reflexivity|].
  simpl. rewrite IH. unfold cAlertsMap_add.
  destruct (inactive (car_AlertState a)) eqn:Hact; simpl.
  - rewrite filter_cons_False; [reflexivity|].
    intros [H _]. congruence.
  - destruct (decide (car_GroupName a = g)) as [Hg|Hg].
    + rewrite filter_cons_True by (split; assumption).
      rewrite Hg, lookup_insert_eq. simpl.
      destruct (filter (in_cluster_group g) rules);
        [reflexivity|by rewrite <- app_assoc].
    + rewrite filter_cons_False by (intros [_ H]; congruence).
      rewrite lookup_insert_ne by assumption. reflexivity.
Qed.

(** The partition maps a group name to the rules of the listing that are
    not inactive and name that group, in the order of the listing, and has
    no entry for a group without such a rule. *)
Lemma cAlertsMap_lookup (rules : list CRule) (g : string) :
  cAlertsMap_of rules !! g
  = match filter (in_cluster_group g) rules with
    | [] => None
    | l => Some l
    end.
Proof.
  unfold cAlertsMap_of. rewrite cAlertsMap_fold_lookup, lookup_empty.
  reflexivity.
Qed.

(** The partition of the cluster rules depends on the listing only
    through the sequence of the rules of each group: listings that agree
    on these give the same map, hence the same sorted keys. *)
Lemma cAlertsMap_of_group_order (rules1 rules2 : list CRule) :
  (forall g, filter (in_cluster_group g) rules1
             = filter (in_cluster_group g) rules2) ->
  cAlertsMap_of rules1 = cAlertsMap_of rules2.
Proof.
  intros Hsame. apply map_eq. intros g.
  by rewrite !cAlertsMap_lookup, Hsame.
Qed.

Lemma cAlertsMap_filter (rules : list CRule) (m : gmap string (list CRule)) :
  foldl cAlertsMap_add m rules
  = foldl cAlertsMap_add m
      (filter (fun a => inactive (car_AlertState a) = false) rules).
Proof.
  revert m. induction rules as [|a rules IH]; intros m; [reflexivity|].
  destruct (inactive (car_AlertState a)) eqn:Hact.
  - rewrite filter_cons_False by congruence. simpl.
    unfold cAlertsMap_add at 2. rewrite Hact. simpl. apply IH.
  - rewrite filter_cons_True by assumption. simpl. apply IH.
Qed.

Lemma pAlertsMap_filter (d : Syncer) (rules : list PRule)
    (m : gmap string (gmap string (list PRule))) :
  foldl (pAlertsMap_add ref_Parse ObjectInCluster d) m rules
  = foldl (pAlertsMap_add ref_Parse ObjectInCluster d) m
      (filter (fun a => inactive (par_AlertState a) = false) rules).
Proof.
  revert m. induction rules as [|a rules IH]; intros m; [reflexivity|].
  destruct (inactive (par_AlertState a)) eqn:Hact.
  - rewrite filter_cons_False by congruence. simpl.
    unfold pAlertsMap_add at 2. rewrite Hact. simpl.
    destruct (ObjectInCluster (clusterName d) a); apply IH.
  - rewrite filter_cons_True by assumption. simpl. apply IH.
Qed.

(** every project of the partition has at least one group *)
Lemma pAlertsMap_groups_nonempty (d : Syncer) (rules : list PRule)
    (p : string) (groups : gmap string (list PRule)) :
  pAlertsMap_of d rules !! p = Some groups -> groups <> ∅.
Proof.
  unfold configsyncer.pAlertsMap_of.
  assert (forall m : gmap string (gmap string (list PRule)),
             (forall q gs, m !! q = Some gs -> gs <> ∅) ->
             forall q gs,
               foldl (pAlertsMap_add ref_Parse ObjectInCluster d) m rules
                 !! q = Some gs -> gs <> ∅) as Hgen.
  { induction rules as [|a rules IH]; intros m Hm q gs; [apply Hm|].
    simpl. apply IH. clear q gs. intros q gs.
    unfold pAlertsMap_add.
    destruct (ObjectInCluster (clusterName d) a); [|apply Hm].
    destruct (negb (inactive (par_AlertState a))); [|apply Hm].
    set (pn := (ref_Parse (par_ProjectName a)).2).
    destruct (decide (pn = q)) as [->|Hne].
    - rewrite lookup_insert_eq. intros [= <-].
      apply insert_non_empty.
    - rewrite lookup_insert_ne by assumption.
      destruct (m !! pn); [apply Hm|].
      rewrite lookup_insert_ne by assumption. apply Hm. }
  apply Hgen. intros q gs. by rewrite lookup_empty.
Qed.

(** ** The metric rule publisher *)

Lemma clusterRuleGroup_fold (d : Syncer) (groupID : string)
    (alertRules : list CRule) (rg : RuleGroup Rule) :
  foldl (fun ruleGroup alertRule =>
           match car_MetricRule alertRule with
           | Some metricRule =>
             AddRule ruleGroup
               (Metric2Rule groupID
                  (GetRuleID (car_GroupName alertRule)
                     (car_Name alertRule))
                  (Severity (car_Common alertRule))
                  (DisplayName (car_Common alertRule))
                  (clusterName d) metricRule)
           | None => ruleGroup
           end) rg alertRules
  = {| rg_Name := rg_Name rg;
       rg_Rules := rg_Rules rg ++
         omap (fun a =>
                 Metric2Rule groupID
                   (GetRuleID (car_GroupName a) (car_Name a))
                   (Severity (car_Common a)) (DisplayName (car_Common a))
                   (clusterName d) <$> car_MetricRule a) alertRules |}.
Proof.
  revert rg. induction alertRules as [|a l IH]; intros rg.
  - simpl. rewrite app_nil_r. by destruct rg.
  - simpl. rewrite IH. destruct (car_MetricRule a); simpl; [|reflexivity].
    by rewrite <- app_assoc.
Qed.

Lemma clusterRuleGroup_spec (d : Syncer) (groupID : string)
    (alertRules : list CRule) :
  clusterRuleGroup d groupID alertRules
  = {| rg_Name := groupID;
       rg_Rules :=
         omap (fun a =>
                 Metric2Rule groupID
                   (GetRuleID (car_GroupName a) (car_Name a))
                   (Severity (car_Common a)) (DisplayName (car_Common a))
                   (clusterName d) <$> car_MetricRule a) alertRules |}.
Proof.
  unfold configsyncer.clusterRuleGroup. cbv zeta.
  rewrite (clusterRuleGroup_fold d groupID alertRules). reflexivity.
Qed.

Lemma projectRuleGroup_fold (d : Syncer) (groupID : string)
    (alertRules : list PRule) (rg : RuleGroup Rule) :
  foldl (fun ruleGroup alertRule =>
           match par_MetricRule alertRule with
           | Some metricRule =>
             AddRule ruleGroup
               (Metric2Rule groupID
                  (GetRuleID (par_GroupName alertRule)
                     (par_Name alertRule))
                  (Severity (par_Common alertRule))
                  (DisplayName (par_Common alertRule))
                  (clusterName d) metricRule)
           | None => ruleGroup
           end) rg alertRules
  = {| rg_Name := rg_Name rg;
       rg_Rules := rg_Rules rg ++
         omap (fun a =>
                 Metric2Rule groupID
                   (GetRuleID (par_GroupName a) (par_Name a))
                   (Severity (par_Common a)) (DisplayName (par_Common a))
                   (clusterName d) <$> par_MetricRule a) alertRules |}.
Proof.
  revert rg. induction alertRules as [|a l IH]; intros rg.
  - simpl. rewrite app_nil_r. by destruct rg.
  - simpl. rewrite IH. destruct (par_MetricRule a); simpl; [|reflexivity].
    by rewrite <- app_assoc.
Qed.

Lemma projectRuleGroup_spec (d : Syncer) (groupID : string)
    (alertRules : list PRule) :
  projectRuleGroup d groupID alertRules
  = {| rg_Name := groupID;
       rg_Rules :=
         omap (fun a =>
                 Metric2Rule groupID
                   (GetRuleID (par_GroupName a) (par_Name a))
                   (Severity (par_Common a)) (DisplayName (par_Common a))
                   (clusterName d) <$> par_MetricRule a) alertRules |}.
Proof.
  unfold configsyncer.projectRuleGroup. cbv zeta.
  rewrite (projectRuleGroup_fold d groupID alertRules). reflexivity.
Qed.

(** the flag and the artifact that a loop over group keys leaves *)
Lemma promRule_fold {R} (entry : string -> RuleGroup R)
    (keys : list string) (enabled : bool) (promRule : PrometheusRule R) :
  foldl (fun '(enabled, promRule) groupID =>
           (true, AddRuleGroup promRule (entry groupID)))
        (enabled, promRule) keys
  = (match keys with [] => enabled | _ :: _ => true end,
     {| pr_Name := pr_Name promRule;
        pr_Namespace := pr_Namespace promRule;
        pr_Groups := pr_Groups promRule ++ map entry keys |}).
Proof.
  revert enabled promRule.
  induction keys as [|k keys IH]; intros enabled promRule.
  - simpl. rewrite app_nil_r. by destruct promRule.
  - simpl. rewrite IH. simpl. rewrite <- app_assoc.
    by destruct keys.
Qed.

Lemma clusterPromRule_spec (d : Syncer)
    (groupRules : gmap string (list CRule)) (keys : list string) :
  clusterPromRule d groupRules keys
  = (match keys with [] => false | _ :: _ => true end,
     {| pr_Name := clusterName d;
        pr_Namespace := ClusterMonitoringInfo.2;
        pr_Groups :=
          map (fun k => clusterRuleGroup d k (default [] (groupRules !! k)))
              keys |}).
Proof.
  unfold configsyncer.clusterPromRule.
  rewrite (promRule_fold
             (fun k => clusterRuleGroup d k (default [] (groupRules !! k)))).
  reflexivity.
Qed.

Lemma projectPromRule_spec (d : Syncer)
    (projectGroups : gmap string (gmap string (list PRule)))
    (projectID : string) :
  let groupRules := default ∅ (projectGroups !! projectID) in
  projectPromRule d projectGroups projectID
  = (match sorted_keys groupRules with [] => false | _ :: _ => true end,
     {| pr_Name := (ref_Parse projectID).2;
        pr_Namespace := (ProjectMonitoringInfo (ref_Parse projectID).2).2;
        pr_Groups :=
          map (fun k => projectRuleGroup d k (default [] (groupRules !! k)))
              (sorted_keys groupRules) |}).
Proof.
  intros groupRules. unfold configsyncer.projectPromRule.
  fold groupRules.
  rewrite (promRule_fold
             (fun k => projectRuleGroup d k (default [] (groupRules !! k)))).
  reflexivity.
Qed.

(** ** Computations that only log *)

Lemma World_eta (w : World Rule) :
  {| secrets := secrets w; trace := trace w ++ [] |} = w.
Proof. destruct w. simpl. by rewrite app_nil_r. Qed.

Lemma logs_only_ret {A} (a : A) : logs_only (Rule:=Rule) (ret a) (Ok a) [].
Proof. intros w. unfold ret. by rewrite World_eta. Qed.

Lemma logs_only_lift {A} (r : result A) : logs_only (Rule:=Rule) (lift r) r [].
Proof. intros w. unfold lift. by rewrite World_eta. Qed.

Lemma logs_only_call {A} (c : Call Rule) (r : result A) :
  logs_only (call c r) r [c].
Proof. intros w. reflexivity. Qed.

Lemma logs_only_wrapf {A} (m : M Rule A) (msg : string) r t :
  logs_only m r t ->
  logs_only (wrapf m msg)
    (match r with Err e => Err (Wrapf e msg) | other => other end) t.
Proof. intros Hm w. unfold wrapf. rewrite Hm. by destruct r. Qed.

Lemma secret_updates_app (t1 t2 : list (Call Rule)) :
  secret_updates (t1 ++ t2) = (secret_updates t1 + secret_updates t2)%nat.
Proof. unfold secret_updates. by rewrite List.filter_app, length_app. Qed.

Lemma no_secret_access_bind {A B} (m : M Rule A) (k : A -> M Rule B) :
  no_secret_access m ->
  (forall a, no_secret_access (k a)) ->
  no_secret_access (bind m k).
Proof.
  intros (r & t & Hm & Ht) Hk. destruct r as [a|e|msg].
  - destruct (Hk a) as (r' & t' & Hka & Ht').
    exists r', (t ++ t'). split.
    + intros w. unfold bind. rewrite Hm, Hka. simpl. by rewrite app_assoc.
    + rewrite secret_updates_app. lia.
  - exists (Err e), t. split; [|done]. intros w. unfold bind. by rewrite Hm.
  - exists (Panic msg), t. split; [|done].
    intros w. unfold bind. by rewrite Hm.
Qed.

Lemma no_secret_access_logs {A} (m : M Rule A) r t :
  logs_only m r t -> secret_updates t = 0%nat -> no_secret_access m.
Proof. intros. exists r, t. done. Qed.

Lemma SyncPrometheusRule_logs (d : Syncer) (promRule : PrometheusRule Rule) :
  logs_only (SyncPrometheusRule d promRule)
    (match SyncPrometheusRule_err (operatorCRDManager d) promRule with
     | Some e => Err e
     | None => Ok tt
     end)
    [CallSyncPrometheusRule promRule].
Proof. apply logs_only_call. Qed.

(** The cluster publisher makes one call, the publish of the cluster
    artifact, when there is a group key, and none otherwise. *)
Lemma addClusterAlert2Operator_logs (d : Syncer)
    (groupRules : gmap string (list CRule)) (keys : list string) :
  logs_only (addClusterAlert2Operator d groupRules keys)
    (match keys with
     | [] => Ok tt
     | _ :: _ =>
       match SyncPrometheusRule_err (operatorCRDManager d)
               (clusterPromRule d groupRules keys).2 with
       | Some e => Err e
       | None => Ok tt
       end
     end)
    (match keys with
     | [] => []
     | _ :: _ =>
       [CallSyncPrometheusRule (clusterPromRule d groupRules keys).2]
     end).
Proof.
  unfold configsyncer.addClusterAlert2Operator.
  destruct (clusterPromRule d groupRules keys) as [enabled promRule] eqn:Hp.
  rewrite clusterPromRule_spec in Hp. injection Hp as Hen Hpr.
  destruct keys as [|k keys]; subst enabled; simpl.
  - apply logs_only_ret.
  - apply SyncPrometheusRule_logs.
Qed.

Lemma addProjectAlert2Operator_quiet (d : Syncer)
    (projectGroups : gmap string (gmap string (list PRule)))
    (keys : list string) :
  no_secret_access (addProjectAlert2Operator d projectGroups keys).
Proof.
  induction keys as [|p keys IH]; simpl.
  - eapply no_secret_access_logs; [apply logs_only_ret|done].
  - destruct (projectPromRule d projectGroups p) as [enabled promRule].
    destruct enabled; simpl; [|exact IH].
    apply no_secret_access_bind; [|intros _; exact IH].
    eapply no_secret_access_logs; [apply SyncPrometheusRule_logs|done].
Qed.

Lemma sync_document_quiet (d : Syncer) (notifiers : list Notifier)
    (cAlertsMap : gmap string (list CRule))
    (pAlertsMap : gmap string (gmap string (list PRule))) :
  no_secret_access (sync_document d notifiers cAlertsMap pAlertsMap).
Proof.
  unfold configsyncer.sync_document.
  apply no_secret_access_bind; [|intros _].
  { eapply no_secret_access_logs; [apply addClusterAlert2Operator_logs|].
    by destruct (sorted_keys cAlertsMap). }
  apply no_secret_access_bind;
    [apply addProjectAlert2Operator_quiet|intros _].
  apply no_secret_access_bind; [|intros c1].
  { eapply no_secret_access_logs; [apply logs_only_lift|done]. }
  apply no_secret_access_bind; [|intros c2].
  { eapply no_secret_access_logs; [apply logs_only_lift|done]. }
  eapply no_secret_access_logs; [apply logs_only_wrapf, logs_only_lift|done].
Qed.

(** Up to the serialized document, [sync] reads and writes nothing of the
    secret store: its result and its calls are the same in every world. *)
Lemma sync_data_quiet (d : Syncer) : no_secret_access (sync_data d).
Proof.
  unfold configsyncer.sync_data.
  apply no_secret_access_bind; [|intros _].
  { eapply no_secret_access_logs; [apply logs_only_call|done]. }
  apply no_secret_access_bind; [|intros notifiers].
  { eapply no_secret_access_logs;
      [apply logs_only_wrapf, logs_only_call|done]. }
  apply no_secret_access_bind; [|intros cr].
  { eapply no_secret_access_logs;
      [apply logs_only_wrapf, logs_only_call|done]. }
  apply no_secret_access_bind; [|intros pr].
  { eapply no_secret_access_logs;
      [apply logs_only_wrapf, logs_only_call|done]. }
  apply sync_document_quiet.
Qed.

Lemma omap_all_None {A B} (f : A -> option B) (l : list A) :
  (forall a, a ∈ l -> f a = None) -> omap f l = [].
Proof.
  induction l as [|a l IH]; intros Hnone; [done|]. simpl.
  rewrite (Hnone a) by apply list_elem_of_here.
  apply IH. intros a' Ha'. apply Hnone. by apply list_elem_of_further.
Qed.

Lemma projectPromRule_enabled (d : Syncer)
    (projectGroups : gmap string (gmap string (list PRule))) (p : string) :
  (projectPromRule d projectGroups p).1
  = bool_decide (default ∅ (projectGroups !! p) <> ∅).
Proof.
  rewrite projectPromRule_spec. simpl.
  destruct (sorted_keys (default ∅ (projectGroups !! p))) as [|k l] eqn:Hk.
  - apply sorted_keys_nil in Hk. rewrite Hk.
    symmetry. apply bool_decide_eq_false. intros H. by apply H.
  - symmetry. apply bool_decide_eq_true. intros Hempty.
    apply sorted_keys_nil in Hempty. congruence.
Qed.

Lemma addProjectAlert2Operator_trace (d : Syncer)
    (projectGroups : gmap string (gmap string (list PRule)))
    (keys : list string) :
  (forall promRule,
      SyncPrometheusRule_err (operatorCRDManager d) promRule = None) ->
  logs_only (addProjectAlert2Operator d projectGroups keys) (Ok tt)
    (map (fun p => CallSyncPrometheusRule (projectPromRule d projectGroups p).2)
         (filter (fun p => default ∅ (projectGroups !! p) <> ∅) keys)).
Proof.
  intros Hok. induction keys as [|p keys IH]; simpl.
  - apply logs_only_ret.
  - pose proof (projectPromRule_enabled d projectGroups p) as Hen.
    destruct (projectPromRule d projectGroups p) as [enabled promRule] eqn:Hp.
    simpl in Hen. subst enabled.
    destruct (decide (default ∅ (projectGroups !! p) <> ∅)) as [Hne|He].
    + rewrite bool_decide_eq_true_2 by assumption. simpl.
      rewrite filter_cons_True by assumption. simpl.
      intros w. unfold bind.
      rewrite (SyncPrometheusRule_logs d promRule w), Hok, IH. simpl.
      rewrite Hp. simpl. by rewrite <- app_assoc.
    + rewrite bool_decide_eq_false_2 by assumption. simpl.
      rewrite filter_cons_False by assumption. exact IH.
Qed.

(** C3 (as amended): the publisher publishes the container of a scope
    exactly when the partition of the scope has a group key, whether or not
    a group produced a metric rule. In the cluster scope the calls of the
    publisher are the one publish of the cluster container when there is a
    key and no call otherwise; in the project scope, when no publish
    fails, the calls are the publishes of the containers of the projects
    whose group map is not empty, in the order of the keys. *)
Theorem C3_publish_iff_partition_has_group :
  (forall (d : Syncer) (groupRules : gmap string (list CRule))
          (keys : list string) (w : World Rule),
      trace (addClusterAlert2Operator d groupRules keys w).2
      = trace w ++
        match keys with
        | [] => []
        | _ :: _ =>
          [CallSyncPrometheusRule (clusterPromRule d groupRules keys).2]
        end)
  /\
  (forall (d : Syncer)
          (projectGroups : gmap string (gmap string (list PRule)))
          (keys : list string) (w : World Rule),
      (forall promRule,
          SyncPrometheusRule_err (operatorCRDManager d) promRule = None) ->
      trace (addProjectAlert2Operator d projectGroups keys w).2
      = trace w ++
        map (fun p =>
               CallSyncPrometheusRule (projectPromRule d projectGroups p).2)
            (filter (fun p => default ∅ (projectGroups !! p) <> ∅) keys)).
Proof.
  split.
  - intros d groupRules keys w.
    by rewrite (addClusterAlert2Operator_logs d groupRules keys w).
  - intros d projectGroups keys w Hok.
    by rewrite (addProjectAlert2Operator_trace d projectGroups keys Hok w).
Qed.

(** C10: for every group key of the partition of a scope the publisher
    attaches to the artifact of the scope a rule-group entry named after
    the key, holding the rules made from the metric rules of the group; a
    group without metric rule gets an entry with an empty rule list. The
    names of the entries of the artifact are the sorted keys. *)
Theorem C10_entry_for_every_group_key :
  (forall (d : Syncer) (groupRules : gmap string (list CRule)),
      let promRule :=
        (clusterPromRule d groupRules (sorted_keys groupRules)).2 in
      map rg_Name (pr_Groups promRule) = sorted_keys groupRules /\
      forall k alertRules,
        groupRules !! k = Some alertRules ->
        exists ruleGroup,
          ruleGroup ∈ pr_Groups promRule /\
          rg_Name ruleGroup = k /\
          ruleGroup = clusterRuleGroup d k alertRules /\
          ((forall a, a ∈ alertRules -> car_MetricRule a = None) ->
           rg_Rules ruleGroup = []))
  /\
  (forall (d : Syncer)
          (projectGroups : gmap string (gmap string (list PRule)))
          (projectID : string) (groups : gmap string (list PRule)),
      projectGroups !! projectID = Some groups ->
      let promRule := (projectPromRule d projectGroups projectID).2 in
      map rg_Name (pr_Groups promRule) = sorted_keys groups /\
      forall k alertRules,
        groups !! k = Some alertRules ->
        exists ruleGroup,
          ruleGroup ∈ pr_Groups promRule /\
          rg_Name ruleGroup = k /\
          ruleGroup = projectRuleGroup d k alertRules /\
          ((forall a, a ∈ alertRules -> par_MetricRule a = None) ->
           rg_Rules ruleGroup = [])).
Proof.
  split.
  - intros d groupRules promRule. subst promRule.
    rewrite clusterPromRule_spec. simpl. split.
    + rewrite map_map. simpl.
      erewrite map_ext; [apply map_id|]. intros k.
      by rewrite clusterRuleGroup_spec.
    + intros k alertRules Hk.
      exists (clusterRuleGroup d k alertRules). repeat split.
      * apply list_elem_of_fmap. exists k. rewrite Hk. split; [done|].
        apply elem_of_sorted_keys. eauto.
      * by rewrite clusterRuleGroup_spec.
      * intros Hnone. rewrite clusterRuleGroup_spec. simpl.
        apply omap_all_None. intros a Ha. by rewrite (Hnone a Ha).
  - intros d projectGroups projectID groups Hp promRule. subst promRule.
    rewrite projectPromRule_spec. simpl. rewrite Hp. simpl. split.
    + rewrite map_map. simpl.
      erewrite map_ext; [apply map_id|]. intros k.
      by rewrite projectRuleGroup_spec.
    + intros k alertRules Hk.
      exists (projectRuleGroup d k alertRules). repeat split.
      * apply list_elem_of_fmap. exists k. rewrite Hk. split; [done|].
        apply elem_of_sorted_keys. eauto.
      * by rewrite projectRuleGroup_spec.
      * intros Hnone. rewrite projectRuleGroup_spec. simpl.
        apply omap_all_None. intros a Ha. by rewrite (Hnone a Ha).
Qed.

(** ** The recipient resolver *)

Lemma addRecipient_name (cn : string) (notifiers : list Notifier)
    (acc : ReceiverT * bool) (r : Recipient) :
  rc_Name (addRecipient cn notifiers acc r).1 = rc_Name acc.1.
Proof.
  destruct acc as [receiver ex]. unfold addRecipient.
  destruct (negb (String.eqb (NotifierName r) "")); [|reflexivity].
  destruct (getNotifier cn (NotifierName r) notifiers) as [n|]; [|reflexivity].
  destruct (PagerdutyConfig_ n), (WebhookConfig_ n), (SlackConfig_ n),
    (SMTPConfig_ n); reflexivity.
Qed.

Lemma addRecipients_name (cn : string) (notifiers : list Notifier)
    (receiver : ReceiverT) (recipients : list Recipient) :
  rc_Name (addRecipients cn notifiers receiver recipients).1
  = rc_Name receiver.
Proof.
  unfold addRecipients.
  change (rc_Name receiver) with (rc_Name (receiver, false).1).
  generalize (receiver, false).
  induction recipients as [|r l IH]; intros acc; [reflexivity|].
  simpl. rewrite IH. apply addRecipient_name.
Qed.

(** When no recipient of the group names a notifier of the list, the
    resolver leaves the receiver as it was and reports that none exists. *)
Lemma addRecipients_unresolved (d : Syncer) (notifiers : list Notifier)
    (receiver : ReceiverT) (recipients : list Recipient) :
  (forall r, r ∈ recipients -> ~ resolves d notifiers r) ->
  addRecipients (clusterName d) notifiers receiver recipients
  = (receiver, false).
Proof.
  unfold addRecipients. generalize (receiver, false).
  induction recipients as [|r l IH]; intros acc Hno; [reflexivity|].
  simpl. rewrite IH.
  - destruct acc as [rc ex]. unfold addRecipient.
    destruct (String.eqb_spec (NotifierName r) "") as [He|Hne];
      [reflexivity|]. simpl.
    destruct (getNotifier (clusterName d) (NotifierName r) notifiers)
      as [n|] eqn:Hn; [|reflexivity].
    exfalso. apply (Hno r); [apply list_elem_of_here|].
    split; [assumption|]. rewrite Hn. eauto.
  - intros r' Hr'. apply Hno. by apply list_elem_of_further.
Qed.

(** ** The config assembler *)

Lemma clusterRuleRoute_head (groupID : string) (r1 : Route) (alert : CRule) :
  Receiver (clusterRuleRoute groupID r1 alert) = Receiver r1 /\
  Match (clusterRuleRoute groupID r1 alert) = Match r1.
Proof.
  unfold configsyncer.clusterRuleRoute.
  destruct (inactive (car_AlertState alert)); [done|].
  destruct (car_EventRule alert);
    destruct (is_Some_b (car_MetricRule alert)
              || is_Some_b (car_SystemServiceRule alert)
              || is_Some_b (car_NodeRule alert)); done.
Qed.

Lemma clusterGroupRoute_head (groupID : string) (rules : list CRule) :
  Receiver (clusterGroupRoute groupID rules) = groupID /\
  Match (clusterGroupRoute groupID rules) = {[ "group_id" := groupID ]}.
Proof.
  unfold configsyncer.clusterGroupRoute.
  set (r1 := newRoute _ _ _ _).
  assert (Receiver r1 = groupID /\ Match r1 = {[ "group_id" := groupID ]})
    as Hr1.
  { subst r1. unfold newRoute. simpl. by simplify_map_eq. }
  revert Hr1. generalize r1. clear r1.
  induction rules as [|a l IH]; intros r1 Hr1; [exact Hr1|].
  simpl. apply IH.
  destruct (clusterRuleRoute_head groupID r1 a) as [-> ->]. exact Hr1.
Qed.

Lemma addClusterAlert2Config_contents (d : Syncer)
    (alerts : gmap string (list CRule)) (notifiers : list Notifier)
    (keys : list string) (config config' : Config) :
  addClusterAlert2Config d config alerts keys notifiers = Ok config' ->
  (forall rc, rc ∈ Receivers config' ->
     rc ∈ Receivers config \/
     (rc_Name rc ∈ keys /\ cluster_produces d notifiers (rc_Name rc))) /\
  (forall r, r ∈ Routes (cfg_Route config') ->
     r ∈ Routes (cfg_Route config) \/
     exists k, k ∈ keys /\ cluster_produces d notifiers k /\
               Receiver r = k /\ Match r = {[ "group_id" := k ]}).
Proof.
  revert config. induction keys as [|k keys IH]; intros config Hrun.
  - simpl in Hrun. injection Hrun as <-. split; intros; by left.
  - simpl in Hrun.
    destruct (clusterAlertGroupLister d (clusterName d) (ref_Parse k).2)
      as [group err] eqn:Hget.
    destruct (fatal err); [discriminate|].
    assert (forall c,
               addClusterAlert2Config d c alerts keys notifiers = Ok config' ->
               Receivers c = Receivers config ->
               Routes (cfg_Route c) = Routes (cfg_Route config) ->
               (forall rc, rc ∈ Receivers config' ->
                  rc ∈ Receivers config \/
                  (rc_Name rc ∈ k :: keys /\
                   cluster_produces d notifiers (rc_Name rc))) /\
               (forall r, r ∈ Routes (cfg_Route config') ->
                  r ∈ Routes (cfg_Route config) \/
                  exists k', k' ∈ k :: keys /\
                    cluster_produces d notifiers k' /\
                    Receiver r = k' /\ Match r = {[ "group_id" := k' ]}))
      as Hskip.
    { intros c Hc Hrc Hrt. destruct (IH c Hc) as [H1 H2]. split.
      - intros rc Hin. destruct (H1 rc Hin) as [H|[H H']].
        + left. by rewrite <- Hrc.
        + right. split; [by apply list_elem_of_further|done].
      - intros r Hin. destruct (H2 r Hin) as [H|(k' & H & H')].
        + left. by rewrite <- Hrt.
        + right. exists k'. split; [by apply list_elem_of_further|done]. }
    destruct group as [group|]; [|by apply (Hskip config)].
    destruct (addRecipients (clusterName d) notifiers (newReceiver k)
                (cag_Recipients group)) as [receiver ex] eqn:Hadd.
    destruct ex; [|by apply (Hskip config)].
    assert (cluster_produces d notifiers k) as Hprod.
    { exists group. rewrite Hget, Hadd. done. }
    assert (rc_Name receiver = k) as Hname.
    { pose proof (addRecipients_name (clusterName d) notifiers
                    (newReceiver k) (cag_Recipients group)) as H.
      by rewrite Hadd in H. }
    destruct (IH _ Hrun) as [H1 H2]. split.
    + intros rc Hin. destruct (H1 rc Hin) as [H|[H H']].
      * simpl in H. apply elem_of_app in H as [H|H]; [by left|].
        apply list_elem_of_singleton in H as ->. right.
        rewrite Hname. split; [apply list_elem_of_here|done].
      * right. split; [by apply list_elem_of_further|done].
    + intros r Hin. destruct (H2 r Hin) as [H|(k' & H & H')].
      * simpl in H. apply elem_of_app in H as [H|H]; [by left|].
        apply list_elem_of_singleton in H as ->. right. exists k.
        split; [apply list_elem_of_here|]. split; [done|].
        apply clusterGroupRoute_head.
      * right. exists k'. split; [by apply list_elem_of_further|done].
Qed.

(** a rule of the listing that is not inactive is in the partition, under
    its group name *)
Lemma cAlertsMap_elem (rules : list CRule) (a : CRule) :
  a ∈ rules -> inactive (car_AlertState a) = false ->
  exists l, cAlertsMap_of rules !! car_GroupName a = Some l /\ a ∈ l.
Proof.
  intros Hin Hact. rewrite cAlertsMap_lookup.
  assert (a ∈ filter (in_cluster_group (car_GroupName a)) rules) as Hf.
  { apply list_elem_of_filter. split; [split|]; done. }
  destruct (filter (in_cluster_group (car_GroupName a)) rules) as [|x l];
    [by apply elem_of_nil in Hf|].
  eauto.
Qed.

Lemma metric_rule_in_clusterPromRule (d : Syncer)
    (alerts : gmap string (list CRule)) (keys : list string)
    (k : string) (l : list CRule) (a : CRule) (mr : MetricRule) :
  k ∈ keys -> alerts !! k = Some l -> a ∈ l -> car_MetricRule a = Some mr ->
  exists rg,
    rg ∈ pr_Groups (clusterPromRule d alerts keys).2 /\
    rg_Name rg = k /\
    Metric2Rule k (GetRuleID (car_GroupName a) (car_Name a))
      (Severity (car_Common a)) (DisplayName (car_Common a))
      (clusterName d) mr ∈ rg_Rules rg.
Proof.
  intros Hk Hl Ha Hmr. exists (clusterRuleGroup d k l).
  rewrite clusterPromRule_spec. simpl. split; [|split].
  - apply list_elem_of_fmap. exists k. by rewrite Hl.
  - by rewrite clusterRuleGroup_spec.
  - rewrite clusterRuleGroup_spec. simpl. apply list_elem_of_omap.
    exists a. split; [done|]. by rewrite Hmr.
Qed.

Lemma metric_rule_in_projectPromRule (d : Syncer)
    (projectGroups : gmap string (gmap string (list PRule)))
    (p : string) (groups : gmap string (list PRule))
    (k : string) (l : list PRule) (a : PRule) (mr : MetricRule) :
  projectGroups !! p = Some groups -> groups !! k = Some l -> a ∈ l ->
  par_MetricRule a = Some mr ->
  exists rg,
    rg ∈ pr_Groups (projectPromRule d projectGroups p).2 /\
    rg_Name rg = k /\
    Metric2Rule k (GetRuleID (par_GroupName a) (par_Name a))
      (Severity (par_Common a)) (DisplayName (par_Common a))
      (clusterName d) mr ∈ rg_Rules rg.
Proof.
  intros Hp Hl Ha Hmr. exists (projectRuleGroup d k l).
  rewrite projectPromRule_spec. simpl. rewrite Hp. simpl. split; [|split].
  - apply list_elem_of_fmap. exists k. rewrite Hl. split; [done|].
    apply elem_of_sorted_keys. eauto.
  - by rewrite projectRuleGroup_spec.
  - rewrite projectRuleGroup_spec. simpl. apply list_elem_of_omap.
    exists a. split; [done|]. by rewrite Hmr.
Qed.

(** C4: a group none of whose recipients resolves to a notifier gets no
    receiver and no group node in the document, whatever its rules, while
    each of its metric rules that is not inactive still has its rule in the
    rule-group entry of the group in the published artifact. In the
    cluster scope this is stated for a whole run over the partition of a
    rule listing; in the project scope, for the turn of the loop of the
    group and for the artifact of its project. *)
Theorem C4_unresolved_group_gated_metrics_kept :
  (forall (d : Syncer) (clusterAlertRules : list CRule)
          (notifiers : list Notifier) (config config' : Config)
          (k : string) (group : ClusterAlertGroup),
      let alerts := cAlertsMap_of clusterAlertRules in
      let keys := sorted_keys alerts in
      (clusterAlertGroupLister d (clusterName d) (ref_Parse k).2).1
        = Some group ->
      (forall r, r ∈ cag_Recipients group -> ~ resolves d notifiers r) ->
      addClusterAlert2Config d config alerts keys notifiers = Ok config' ->
      (forall rc, rc ∈ Receivers config' -> rc_Name rc = k ->
                  rc ∈ Receivers config) /\
      (forall r, r ∈ Routes (cfg_Route config') ->
                 Match r !! "group_id" = Some k ->
                 r ∈ Routes (cfg_Route config)) /\
      (forall (a : CRule) (mr : MetricRule) (w : World Rule),
          a ∈ clusterAlertRules ->
          inactive (car_AlertState a) = false ->
          car_GroupName a = k ->
          car_MetricRule a = Some mr ->
          exists promRule rg,
            CallSyncPrometheusRule promRule
              ∈ trace (addClusterAlert2Operator d alerts keys w).2 /\
            rg ∈ pr_Groups promRule /\
            rg_Name rg = k /\
            Metric2Rule k (GetRuleID (car_GroupName a) (car_Name a))
              (Severity (car_Common a)) (DisplayName (car_Common a))
              (clusterName d) mr ∈ rg_Rules rg))
  /\
  (forall (d : Syncer) (notifiers : list Notifier) (config : Config)
          (projectName : string) (groups : gmap string (list PRule))
          (k : string) (groupIDs : list string) (group : ProjectAlertGroup),
      projectAlertGroupLister d projectName (ref_Parse k).2
        = (Some group, None) ->
      (forall r, r ∈ pag_Recipients group -> ~ resolves d notifiers r) ->
      addProjectGroups2Config d config projectName groups (k :: groupIDs)
        notifiers
      = addProjectGroups2Config d config projectName groups groupIDs
          notifiers)
  /\
  (forall (d : Syncer)
          (projectGroups : gmap string (gmap string (list PRule)))
          (p : string) (groups : gmap string (list PRule))
          (k : string) (l : list PRule) (a : PRule) (mr : MetricRule),
      projectGroups !! p = Some groups -> groups !! k = Some l -> a ∈ l ->
      par_MetricRule a = Some mr ->
      exists rg,
        rg ∈ pr_Groups (projectPromRule d projectGroups p).2 /\
        rg_Name rg = k /\
        Metric2Rule k (GetRuleID (par_GroupName a) (par_Name a))
          (Severity (par_Common a)) (DisplayName (par_Common a))
          (clusterName d) mr ∈ rg_Rules rg).
Proof.
  split; [|split].
  - intros d clusterAlertRules notifiers config config' k group alerts keys
           Hget Hno Hrun.
    assert (~ cluster_produces d notifiers k) as Hnp.
    { intros (g & Hg & Hex). rewrite Hget in Hg. injection Hg as <-.
      rewrite (addRecipients_unresolved d notifiers _ _ Hno) in Hex.
      discriminate. }
    destruct (addClusterAlert2Config_contents d alerts notifiers keys
                config config' Hrun) as [H1 H2].
    split; [|split].
    + intros rc Hin Hname. destruct (H1 rc Hin) as [H|[_ H]]; [done|].
      rewrite Hname in H. contradiction.
    + intros r Hin Hm. destruct (H2 r Hin) as [H|(k' & _ & H & _ & Hk')];
        [done|].
      rewrite Hk' in Hm. simplify_map_eq. contradiction.
    + intros a mr w Hin Hact Hg Hmr.
      destruct (cAlertsMap_elem clusterAlertRules a Hin Hact)
        as (l & Hl & Hal).
      rewrite Hg in Hl. fold alerts in Hl.
      assert (k ∈ keys) as Hk by (apply elem_of_sorted_keys; eauto).
      destruct (metric_rule_in_clusterPromRule d alerts keys k l a mr
                  Hk Hl Hal Hmr) as (rg & Hrg & Hname & Hrule).
      exists (clusterPromRule d alerts keys).2, rg.
      split; [|done].
      rewrite (addClusterAlert2Operator_logs d alerts keys w). simpl.
      destruct keys; [by apply elem_of_nil in Hk|].
      apply elem_of_app. right. apply list_elem_of_here.
  - intros d notifiers config projectName groups k groupIDs group Hget Hno.
    simpl. rewrite Hget. simpl.
    by rewrite (addRecipients_unresolved d notifiers _ _ Hno).
  - intros d projectGroups p groups k l a mr.
    apply metric_rule_in_projectPromRule.
Qed.

(** ** The syncer reads the rule listers once *)

(** Past the listing, nothing depends on what the rule listers hold. *)
Lemma addProjectAlert2Operator_with_rules (d : Syncer) cr pr
    (projectGroups : gmap string (gmap string (list PRule)))
    (keys : list string) :
  addProjectAlert2Operator (with_rules d cr pr) projectGroups keys
  = addProjectAlert2Operator d projectGroups keys.
Proof.
  induction keys as [|p keys IH]; [reflexivity|].
  simpl. rewrite IH. reflexivity.
Qed.

Lemma addClusterAlert2Config_with_rules (d : Syncer) cr pr
    (config : Config) (alerts : gmap string (list CRule))
    (keys : list string) (notifiers : list Notifier) :
  addClusterAlert2Config (with_rules d cr pr) config alerts keys notifiers
  = addClusterAlert2Config d config alerts keys notifiers.
Proof.
  revert config. induction keys as [|k keys IH]; intros config;
    [reflexivity|].
  simpl.
  destruct (clusterAlertGroupLister d (clusterName d) (ref_Parse k).2)
    as [group err].
  destruct (fatal err); [reflexivity|].
  destruct group as [group|]; [|apply IH].
  destruct (addRecipients (clusterName d) notifiers (newReceiver k)
              (cag_Recipients group)) as [receiver ex].
  destruct ex; apply IH.
Qed.

Lemma addProjectGroups2Config_with_rules (d : Syncer) cr pr
    (config : Config) (projectName : string)
    (groups : gmap string (list PRule))
    (groupIDs : list string) (notifiers : list Notifier) :
  addProjectGroups2Config (with_rules d cr pr) config projectName groups
    groupIDs notifiers
  = addProjectGroups2Config d config projectName groups groupIDs notifiers.
Proof.
  revert config. induction groupIDs as [|k keys IH]; intros config;
    [reflexivity|].
  simpl.
  destruct (projectAlertGroupLister d projectName (ref_Parse k).2)
    as [group err].
  destruct (fatal err); [reflexivity|].
  destruct group as [group|]; [|apply IH].
  destruct (addRecipients (clusterName d) notifiers (newReceiver k)
              (pag_Recipients group)) as [receiver ex].
  destruct ex; apply IH.
Qed.

Lemma addProjectAlert2Config_with_rules (d : Syncer) cr pr
    (config : Config)
    (projectGroups : gmap string (gmap string (list PRule)))
    (keys : list string) (notifiers : list Notifier) :
  addProjectAlert2Config (with_rules d cr pr) config projectGroups keys
    notifiers
  = addProjectAlert2Config d config projectGroups keys notifiers.
Proof.
  revert config. induction keys as [|p keys IH]; intros config;
    [reflexivity|].
  simpl. rewrite addProjectGroups2Config_with_rules.
  destruct (addProjectGroups2Config d config p _ _ notifiers);
    [apply IH|reflexivity|reflexivity].
Qed.

Lemma bind_ext {A B} (m m' : M Rule A) (k k' : A -> M Rule B)
    (w : World Rule) :
  m w = m' w -> (forall a w', k a w' = k' a w') ->
  bind m k w = bind m' k' w.
Proof.
  intros Hm Hk. unfold bind. rewrite Hm.
  destruct (m' w) as [[a|e|msg] w']; [apply Hk|reflexivity|reflexivity].
Qed.

Lemma sync_document_with_rules (d : Syncer) cr pr
    (notifiers : list Notifier) (cAlertsMap : gmap string (list CRule))
    (pAlertsMap : gmap string (gmap string (list PRule)))
    (w : World Rule) :
  sync_document (with_rules d cr pr) notifiers cAlertsMap pAlertsMap w
  = sync_document d notifiers cAlertsMap pAlertsMap w.
Proof.
  unfold configsyncer.sync_document.
  apply bind_ext; [reflexivity|intros _ w1].
  apply bind_ext; [by rewrite addProjectAlert2Operator_with_rules|
                   intros _ w2].
  apply bind_ext; [by rewrite addClusterAlert2Config_with_rules|
                   intros c1 w3].
  apply bind_ext; [by rewrite addProjectAlert2Config_with_rules|
                   intros c2 w4].
  reflexivity.
Qed.

Lemma pAlertsMap_of_with_rules (d : Syncer) cr pr (rules : list PRule) :
  pAlertsMap_of (with_rules d cr pr) rules = pAlertsMap_of d rules.
Proof. reflexivity. Qed.

(** ** Inactive rules *)

Lemma cAlertsMap_members_active (rules : list CRule) (k : string)
    (l : list CRule) (a : CRule) :
  cAlertsMap_of rules !! k = Some l -> a ∈ l ->
  a ∈ rules /\ inactive (car_AlertState a) = false /\ car_GroupName a = k.
Proof.
  rewrite cAlertsMap_lookup. intros Hl Ha.
  assert (a ∈ filter (in_cluster_group k) rules) as Hf.
  { destruct (filter (in_cluster_group k) rules); [discriminate|].
    by injection Hl as <-. }
  apply list_elem_of_filter in Hf as [[H1 H2] H3]. done.
Qed.

Lemma pAlertsMap_members_active (d : Syncer) (rules : list PRule)
    (p k : string) (groups : gmap string (list PRule)) (l : list PRule)
    (a : PRule) :
  pAlertsMap_of d rules !! p = Some groups -> groups !! k = Some l ->
  a ∈ l ->
  a ∈ rules /\ inactive (par_AlertState a) = false.
Proof.
  unfold configsyncer.pAlertsMap_of.
  set (Inv := fun (seen : list PRule)
                  (m : gmap string (gmap string (list PRule))) =>
                forall p k groups l a,
                  m !! p = Some groups -> groups !! k = Some l -> a ∈ l ->
                  a ∈ seen /\ inactive (par_AlertState a) = false).
  assert (forall rest seen m,
             Inv seen m ->
             Inv (seen ++ rest)
               (foldl (pAlertsMap_add ref_Parse ObjectInCluster d) m rest))
    as Hgen.
  { induction rest as [|x rest IH]; intros seen m Hm.
    - simpl. by rewrite app_nil_r.
    - simpl. replace (seen ++ x :: rest) with ((seen ++ [x]) ++ rest)
        by (by rewrite <- app_assoc).
      apply IH. clear IH. intros p' k' groups' l' a' Hp Hk Ha.
      assert (forall q gs ll b, m !! q = Some gs -> gs !! k' = Some ll ->
                b ∈ ll ->
                b ∈ seen ++ [x] /\ inactive (par_AlertState b) = false)
        as Hold.
      { intros q gs ll b H1 H2 H3.
        destruct (Hm q k' gs ll b H1 H2 H3). split; [|done].
        apply elem_of_app. by left. }
      unfold pAlertsMap_add in Hp.
      destruct (ObjectInCluster (clusterName d) x); [|by eapply Hold].
      destruct (inactive (par_AlertState x)) eqn:Hact; simpl in Hp;
        [by eapply Hold|].
      set (pn := (ref_Parse (par_ProjectName x)).2) in *.
      destruct (decide (pn = p')) as [Hpn|Hne].
      + subst p'. rewrite lookup_insert_eq in Hp. injection Hp as <-.
        destruct (decide (par_GroupName x = k')) as [Hgk|Hnk].
        * subst k'. rewrite lookup_insert_eq in Hk. injection Hk as <-.
          apply elem_of_app in Ha as [Ha|Ha].
          -- destruct (m !! pn) as [gs|] eqn:Hgs.
             ++ rewrite Hgs in Ha. simpl in Ha.
                destruct (gs !! par_GroupName x) as [ll|] eqn:Hll;
                  [|by apply elem_of_nil in Ha].
                by eapply Hold.
             ++ rewrite lookup_insert_eq in Ha. simpl in Ha.
                rewrite lookup_empty in Ha. by apply elem_of_nil in Ha.
          -- apply list_elem_of_singleton in Ha as ->. split; [|done].
             apply elem_of_app. right. apply list_elem_of_here.
        * rewrite lookup_insert_ne in Hk by done.
          destruct (m !! pn) as [gs|] eqn:Hgs.
          -- rewrite Hgs in Hk. simpl in Hk. by eapply Hold.
          -- rewrite lookup_insert_eq in Hk. simpl in Hk.
             by rewrite lookup_empty in Hk.
      + rewrite lookup_insert_ne in Hp by done.
        destruct (m !! pn); [by eapply Hold|].
        rewrite lookup_insert_ne in Hp by done. by eapply Hold. }
  intros Hp Hk Ha.
  apply (Hgen rules [] ∅) with (p := p) (k := k) (groups := groups) (l := l);
    [|done..].
  intros ? ? ? ? ? H. by rewrite lookup_empty in H.
Qed.

(** C5 (as amended): a rule whose state is inactive contributes to no
    artifact, whatever its kind and scope: a reconcile over listings with
    inactive rules does exactly what the reconcile over the listings
    without them does (same result, same calls with the same published
    artifacts, same secret store), and the lists of the two partitions,
    from which the rule groups and the routing tree are made, hold only
    rules of the listings that are not inactive. *)
Theorem C5_inactive_rules_contribute_nothing :
  (forall (d : Syncer) (clusterRules : list CRule)
          (projectRules : list PRule) (w : World Rule),
      sync (with_rules d (Ok clusterRules) (Ok projectRules)) w
      = sync (with_rules d
                (Ok (filter (fun a => inactive (car_AlertState a) = false)
                       clusterRules))
                (Ok (filter (fun a => inactive (par_AlertState a) = false)
                       projectRules))) w)
  /\
  (forall (clusterRules : list CRule) (k : string) (l : list CRule)
          (a : CRule),
      cAlertsMap_of clusterRules !! k = Some l -> a ∈ l ->
      a ∈ clusterRules /\ inactive (car_AlertState a) = false)
  /\
  (forall (d : Syncer) (projectRules : list PRule) (p k : string)
          (groups : gmap string (list PRule)) (l : list PRule) (a : PRule),
      pAlertsMap_of d projectRules !! p = Some groups ->
      groups !! k = Some l -> a ∈ l ->
      a ∈ projectRules /\ inactive (par_AlertState a) = false).
Proof.
  split; [|split].
  - intros d clusterRules projectRules w. unfold configsyncer.sync. simpl.
    destruct (IsDeploy (alertManager d)); [|reflexivity]. simpl.
    apply bind_ext; [|reflexivity].
    unfold configsyncer.sync_data. simpl.
    apply bind_ext; [reflexivity|intros _ w1].
    apply bind_ext; [reflexivity|intros notifiers w2].
    unfold bind, wrapf, call. simpl.
    rewrite !sync_document_with_rules, !pAlertsMap_of_with_rules.
    unfold cAlertsMap_of, configsyncer.pAlertsMap_of.
    rewrite (cAlertsMap_filter clusterRules ∅).
    rewrite (pAlertsMap_filter d projectRules ∅). reflexivity.
  - intros clusterRules k l a Hl Ha.
    destruct (cAlertsMap_members_active clusterRules k l a Hl Ha)
      as (H1 & H2 & _). done.
  - intros d projectRules p k groups l a.
    apply pAlertsMap_members_active.
Qed.

(** ** The secret *)

(** what the end of [sync] does, case by case *)
Lemma sync_secret_run (d : Syncer) (data : string) (w : World Rule) :
  let ns := ClusterAlertManagerInfo.2 in
  let name := GetAlertManagerSecretName ClusterAlertManagerInfo.1 in
  let w1 := log (CallSecretGet ns name) w in
  sync_secret d data w
  = match secret_Get_err (secretsGetter d) ns name with
    | Some e => (Err (Wrapf e "Get secrets"), w1)
    | None =>
      match secrets w !! (ns, name) with
      | None =>
        (Err (Wrapf (StatusNotFound ("secrets " +:+ name +:+ " not found"))
                "Get secrets"), w1)
      | Some s =>
        if String.eqb (Data_get s "alertmanager.yaml") data then (Ok tt, w1)
        else
          match Data s with
          | None => (Panic "assignment to entry in nil map", w1)
          | Some m =>
            let s' := {| Data := Some (<["notification.tmpl" :=
                                           NotificationTmpl]>
                                         (<["alertmanager.yaml" := data]> m)) |} in
            match secret_Update_err (secretsGetter d) ns name s' with
            | Some e =>
              (Err (Wrapf e "Update secrets"),
               log (CallSecretUpdate ns name s') w1)
            | None =>
              (Ok tt,
               {| secrets := <[(ns, name) := s']> (secrets w);
                  trace := trace w1 ++ [CallSecretUpdate ns name s'] |})
            end
          end
      end
    end.
Proof.
  unfold configsyncer.sync_secret.
  destruct ClusterAlertManagerInfo as [app ns]. simpl.
  unfold bind, wrapf, secret_Get.
  destruct (secret_Get_err (secretsGetter d) ns
              (GetAlertManagerSecretName app)); [reflexivity|].
  destruct (secrets w !! (ns, GetAlertManagerSecretName app)) as [s|];
    [|reflexivity].
  destruct (String.eqb (Data_get s "alertmanager.yaml") data);
    [reflexivity|]. simpl.
  destruct (Data s) as [m|]; [|reflexivity].
  unfold secret_Update.
  destruct (secret_Update_err _ _ _ _); reflexivity.
Qed.

(** X23: the secret is written exactly when the bytes differ. When the
    stored bytes equal the new ones, the end of [sync] reads the secret and
    writes nothing; whenever it does write, the stored bytes differed, and
    the secret written holds the new document and the notification
    template. After a reconcile of a deployed stack that returned success,
    the secret holds the document that the reconcile serialized; and a
    reconcile, by whatever syncer, that serializes the bytes that the
    secret holds returns success, leaves the secret store as it is and
    makes no write to it, while one that serializes other bytes writes the
    secret once. *)
Theorem X23_secret_written_exactly_when_the_bytes_differ :
  (forall (d : Syncer) (data : string) (w : World Rule) (s : Secret),
      let ns := ClusterAlertManagerInfo.2 in
      let name := GetAlertManagerSecretName ClusterAlertManagerInfo.1 in
      secret_Get_err (secretsGetter d) ns name = None ->
      secrets w !! (ns, name) = Some s ->
      Data_get s "alertmanager.yaml" = data ->
      sync_secret d data w = (Ok tt, log (CallSecretGet ns name) w))
  /\
  (forall (d : Syncer) (data : string) (w : World Rule) (c : Call Rule),
      let ns := ClusterAlertManagerInfo.2 in
      let name := GetAlertManagerSecretName ClusterAlertManagerInfo.1 in
      c ∈ trace (sync_secret d data w).2 ->
      is_update c = true ->
      c ∈ trace w \/
      exists s m,
        secrets w !! (ns, name) = Some s /\
        Data_get s "alertmanager.yaml" <> data /\
        Data s = Some m /\
        c = CallSecretUpdate ns name
              {| Data := Some (<["notification.tmpl" := NotificationTmpl]>
                                 (<["alertmanager.yaml" := data]> m)) |})
  /\
  (forall (d : Syncer) (w w' : World Rule),
      let ns := ClusterAlertManagerInfo.2 in
      let name := GetAlertManagerSecretName ClusterAlertManagerInfo.1 in
      IsDeploy (alertManager d) = true ->
      sync d w = (Ok tt, w') ->
      exists data s,
        (sync_data d w).1 = Ok data /\
        secrets w' !! (ns, name) = Some s /\
        Data_get s "alertmanager.yaml" = data)
  /\
  (forall (d : Syncer) (w : World Rule) (s : Secret) (data : string),
      let ns := ClusterAlertManagerInfo.2 in
      let name := GetAlertManagerSecretName ClusterAlertManagerInfo.1 in
      secret_Get_err (secretsGetter d) ns name = None ->
      secrets w !! (ns, name) = Some s ->
      (sync_data d w).1 = Ok data ->
      Data_get s "alertmanager.yaml" = data ->
      exists t,
        sync d w = (Ok tt, {| secrets := secrets w; trace := trace w ++ t |})
        /\ secret_updates t = 0%nat)
  /\
  (forall (d : Syncer) (w : World Rule) (s : Secret)
          (m : gmap string string) (data : string),
      let ns := ClusterAlertManagerInfo.2 in
      let name := GetAlertManagerSecretName ClusterAlertManagerInfo.1 in
      IsDeploy (alertManager d) = true ->
      secret_Get_err (secretsGetter d) ns name = None ->
      secrets w !! (ns, name) = Some s ->
      Data s = Some m ->
      (sync_data d w).1 = Ok data ->
      Data_get s "alertmanager.yaml" <> data ->
      exists t, trace (sync d w).2 = trace w ++ t /\
                secret_updates t = 1%nat).
Proof.
  split; [|split; [|split; [|split]]].
  - intros d data w s ns name Hget Hs Heq.
    rewrite sync_secret_run. fold ns name. rewrite Hget, Hs, Heq.
    by rewrite String.eqb_refl.
  - intros d data w c ns name Hin Hup.
    rewrite sync_secret_run in Hin. fold ns name in Hin.
    assert (c ∈ trace (log (Rule:=Rule) (CallSecretGet ns name) w)
            -> c ∈ trace w) as Hlog.
    { intros H. simpl in H. apply elem_of_app in H as [H|H]; [done|].
      apply list_elem_of_singleton in H. subst c. discriminate. }
    destruct (secret_Get_err (secretsGetter d) ns name);
      [left; by apply Hlog|].
    destruct (secrets w !! (ns, name)) as [s|] eqn:Hs;
      [|left; by apply Hlog].
    destruct (String.eqb_spec (Data_get s "alertmanager.yaml") data)
      as [Heq|Hne]; [left; by apply Hlog|].
    destruct (Data s) as [m|] eqn:Hm; [|left; by apply Hlog].
    assert (c ∈ (trace w ++ [CallSecretGet ns name]) ++
                [CallSecretUpdate ns name
                   {| Data := Some (<["notification.tmpl" :=
                                        NotificationTmpl]>
                                      (<["alertmanager.yaml" := data]> m)) |}])
      as Hc.
    { cbv zeta in Hin.
      destruct (secret_Update_err (secretsGetter d) ns name _); exact Hin. }
    apply elem_of_app in Hc as [Hc|Hc]; [left; by apply Hlog|].
    apply list_elem_of_singleton in Hc. right. exists s, m. done.
  - intros d w w' ns name Hdep Hrun. unfold configsyncer.sync in Hrun.
    rewrite Hdep in Hrun. simpl in Hrun.
    destruct (sync_data_quiet d) as (r & t & Hlogs & _).
    unfold bind in Hrun. rewrite Hlogs in *.
    destruct r as [data|e|msg]; [|discriminate|discriminate].
    rewrite sync_secret_run in Hrun. fold ns name in Hrun. simpl in Hrun.
    destruct (secret_Get_err (secretsGetter d) ns name); [discriminate|].
    destruct (secrets w !! (ns, name)) as [s|] eqn:Hs; [|discriminate].
    destruct (String.eqb_spec (Data_get s "alertmanager.yaml") data)
      as [Heq|Hne].
    + injection Hrun as <-. exists data, s. done.
    + destruct (Data s) as [m|]; [|discriminate].
      destruct (secret_Update_err (secretsGetter d) ns name _);
        [discriminate|].
      injection Hrun as <-. simpl. rewrite lookup_insert_eq.
      eexists data, _. split; [reflexivity|]. split; [reflexivity|].
      unfold Data_get. simpl.
      rewrite lookup_insert_ne by discriminate.
      by rewrite lookup_insert_eq.
  - intros d w s data ns name Hget Hs Hdata Heq.
    unfold configsyncer.sync.
    destruct (IsDeploy (alertManager d)); simpl.
    + destruct (sync_data_quiet d) as (r & t & Hlogs & Hquiet).
      unfold bind. rewrite Hlogs in *. simpl in Hdata. subst r.
      rewrite sync_secret_run. fold ns name. simpl.
      rewrite Hget, Hs, Heq, String.eqb_refl.
      exists (t ++ [CallSecretGet ns name]). split.
      * by rewrite !app_assoc.
      * rewrite secret_updates_app. by rewrite Hquiet.
    + exists []. split; [|reflexivity]. unfold ret. by rewrite World_eta.
  - intros d w s m data ns name Hdep Hget Hs Hm Hdata Hne.
    unfold configsyncer.sync. rewrite Hdep. simpl.
    destruct (sync_data_quiet d) as (r & t & Hlogs & Hquiet).
    unfold bind. rewrite Hlogs in *. simpl in Hdata. subst r.
    rewrite sync_secret_run. fold ns name. simpl.
    rewrite Hget, Hs, Hm.
    destruct (String.eqb_spec (Data_get s "alertmanager.yaml") data)
      as [Heq|_]; [contradiction|].
    set (s' := {| Data := _ |}).
    exists (t ++ [CallSecretGet ns name; CallSecretUpdate ns name s']).
    split.
    + destruct (secret_Update_err (secretsGetter d) ns name s'); simpl;
        by rewrite <- !app_assoc.
    + rewrite secret_updates_app, Hquiet. reflexivity.
Qed.

(** ** Guards and failures of [sync] *)

(** C7 (as amended): when the monitoring stack is not deployed the
    reconcile returns success and calls no collaborator; when the stack
    is deployed and the endpoint cannot be resolved, the reconcile makes
    that one call and returns its error as it is, an error and not a
    success, without listing, publishing or touching the secret store. *)
Theorem C7_not_deployed_succeeds_endpoint_error_returned :
  (forall (d : Syncer) (w : World Rule),
      IsDeploy (alertManager d) = false -> sync d w = (Ok tt, w))
  /\
  (forall (d : Syncer) (w : World Rule) (e : error),
      IsDeploy (alertManager d) = true ->
      GetAlertManagerEndpoint (alertManager d) = Err e ->
      sync d w = (Err e, log CallGetAlertManagerEndpoint w)).
Proof.
  split.
  - intros d w Hdep. unfold configsyncer.sync. by rewrite Hdep.
  - intros d w e Hdep Hend. unfold configsyncer.sync. rewrite Hdep. simpl.
    unfold bind, configsyncer.sync_data, bind, call. by rewrite Hend.
Qed.

(** a listing that fails aborts the reconcile with the wrapped error *)
Lemma sync_list_notifiers_fails (d : Syncer) (w : World Rule) (e : error)
    endpoint :
  IsDeploy (alertManager d) = true ->
  GetAlertManagerEndpoint (alertManager d) = Ok endpoint ->
  notifierLister d = Err e ->
  sync d w
  = (Err (Wrapf e "List notifiers"),
     {| secrets := secrets w;
        trace := trace w ++ [CallGetAlertManagerEndpoint;
                             CallListNotifiers] |}).
Proof.
  intros Hdep Hend Hlist. unfold configsyncer.sync. rewrite Hdep. simpl.
  unfold bind, configsyncer.sync_data, bind, wrapf, call, log.
  rewrite Hend, Hlist. simpl. by rewrite <- app_assoc.
Qed.

Lemma sync_list_cluster_rules_fails (d : Syncer) (w : World Rule)
    (e : error) endpoint notifiers :
  IsDeploy (alertManager d) = true ->
  GetAlertManagerEndpoint (alertManager d) = Ok endpoint ->
  notifierLister d = Ok notifiers ->
  clusterAlertRuleLister d = Err e ->
  sync d w
  = (Err (Wrapf e "List cluster alert rules"),
     {| secrets := secrets w;
        trace := trace w ++ [CallGetAlertManagerEndpoint; CallListNotifiers;
                             CallListClusterAlertRules] |}).
Proof.
  intros Hdep Hend Hn Hlist. unfold configsyncer.sync. rewrite Hdep. simpl.
  unfold bind, configsyncer.sync_data, bind, wrapf, call, log.
  rewrite Hend, Hn, Hlist. simpl. by rewrite <- !app_assoc.
Qed.

Lemma sync_list_project_rules_fails (d : Syncer) (w : World Rule)
    (e : error) endpoint notifiers clusterRules :
  IsDeploy (alertManager d) = true ->
  GetAlertManagerEndpoint (alertManager d) = Ok endpoint ->
  notifierLister d = Ok notifiers ->
  clusterAlertRuleLister d = Ok clusterRules ->
  projectAlertRuleLister d = Err e ->
  sync d w
  = (Err (Wrapf e "List project alert rules"),
     {| secrets := secrets w;
        trace := trace w ++ [CallGetAlertManagerEndpoint; CallListNotifiers;
                             CallListClusterAlertRules;
                             CallListProjectAlertRules] |}).
Proof.
  intros Hdep Hend Hn Hc Hlist. unfold configsyncer.sync. rewrite Hdep. simpl.
  unfold bind, configsyncer.sync_data, bind, wrapf, call, log.
  rewrite Hend, Hn, Hc, Hlist. simpl. by rewrite <- !app_assoc.
Qed.

(** *** Group lookups *)

Lemma fatal_None_iff (err : option error) :
  fatal err = None <-> forall e, err = Some e -> IsNotFound e = true.
Proof.
  unfold fatal. destruct err as [e|].
  - destruct (IsNotFound e) eqn:He; simpl; split.
    + intros _ e' [= <-]. done.
    + done.
    + discriminate.
    + intros H. specialize (H e eq_refl). congruence.
  - split; [intros _ e; discriminate|done].
Qed.

Lemma addClusterAlert2Config_cases (d : Syncer) (config : Config)
    (alerts : gmap string (list CRule)) (keys : list string)
    (notifiers : list Notifier) :
  ((forall k, k ∈ keys ->
      fatal (clusterAlertGroupLister d (clusterName d) (ref_Parse k).2).2
      = None) /\
   exists config',
     addClusterAlert2Config d config alerts keys notifiers = Ok config')
  \/
  (exists k e,
      k ∈ keys /\
      fatal (clusterAlertGroupLister d (clusterName d) (ref_Parse k).2).2
        = Some e /\
      addClusterAlert2Config d config alerts keys notifiers
      = Err (Errorf ("get cluster alert group " +:+ clusterName d +:+ ":"
                     +:+ (ref_Parse k).2 +:+ " failed, "
                     +:+ error_string e))).
Proof.
  revert config. induction keys as [|k0 keys IH]; intros config.
  - left. split; [intros k Hk; by apply elem_of_nil in Hk|by eexists].
  - simpl.
    destruct (clusterAlertGroupLister d (clusterName d) (ref_Parse k0).2)
      as [group err] eqn:Hget.
    destruct (fatal err) as [e|] eqn:Hfe.
    + right. exists k0, e. split; [apply list_elem_of_here|].
      by rewrite Hget.
    + assert (forall c,
                 ((forall k, k ∈ k0 :: keys ->
                     fatal (clusterAlertGroupLister d (clusterName d)
                              (ref_Parse k).2).2 = None) /\
                  exists config',
                    addClusterAlert2Config d c alerts keys notifiers
                    = Ok config')
                 \/
                 (exists k e,
                     k ∈ k0 :: keys /\
                     fatal (clusterAlertGroupLister d (clusterName d)
                              (ref_Parse k).2).2 = Some e /\
                     addClusterAlert2Config d c alerts keys notifiers
                     = Err (Errorf ("get cluster alert group "
                                    +:+ clusterName d +:+ ":"
                                    +:+ (ref_Parse k).2 +:+ " failed, "
                                    +:+ error_string e)))) as IH'.
      { intros c. destruct (IH c) as [[H1 H2]|(k & e & H1 & H2 & H3)].
        - left. split; [|done]. intros k Hk.
          apply elem_of_cons in Hk as [->|Hk]; [by rewrite Hget|by apply H1].
        - right. exists k, e. split; [by apply list_elem_of_further|done]. }
      destruct group as [group|]; [|apply IH'].
      destruct (addRecipients _ _ _ _) as [receiver ex].
      destruct ex; apply IH'.
Qed.

Lemma addProjectGroups2Config_cases (d : Syncer) (config : Config)
    (projectName : string) (groups : gmap string (list PRule))
    (groupIDs : list string) (notifiers : list Notifier) :
  ((forall k, k ∈ groupIDs ->
      fatal (projectAlertGroupLister d projectName (ref_Parse k).2).2
      = None) /\
   exists config',
     addProjectGroups2Config d config projectName groups groupIDs notifiers
     = Ok config')
  \/
  (exists k e,
      k ∈ groupIDs /\
      fatal (projectAlertGroupLister d projectName (ref_Parse k).2).2
        = Some e /\
      addProjectGroups2Config d config projectName groups groupIDs notifiers
      = Err (Errorf ("get project alert group " +:+ projectName +:+ ":"
                     +:+ (ref_Parse k).2 +:+ " failed, "
                     +:+ error_string e))).
Proof.
  revert config. induction groupIDs as [|k0 keys IH]; intros config.
  - left. split; [intros k Hk; by apply elem_of_nil in Hk|by eexists].
  - simpl.
    destruct (projectAlertGroupLister d projectName (ref_Parse k0).2)
      as [group err] eqn:Hget.
    destruct (fatal err) as [e|] eqn:Hfe.
    + right. exists k0, e. split; [apply list_elem_of_here|].
      by rewrite Hget.
    + assert (forall c,
                 ((forall k, k ∈ k0 :: keys ->
                     fatal (projectAlertGroupLister d projectName
                              (ref_Parse k).2).2 = None) /\
                  exists config',
                    addProjectGroups2Config d c projectName groups keys
                      notifiers = Ok config')
                 \/
                 (exists k e,
                     k ∈ k0 :: keys /\
                     fatal (projectAlertGroupLister d projectName
                              (ref_Parse k).2).2 = Some e /\
                     addProjectGroups2Config d c projectName groups keys
                       notifiers
                     = Err (Errorf ("get project alert group "
                                    +:+ projectName +:+ ":"
                                    +:+ (ref_Parse k).2 +:+ " failed, "
                                    +:+ error_string e)))) as IH'.
      { intros c. destruct (IH c) as [[H1 H2]|(k & e & H1 & H2 & H3)].
        - left. split; [|done]. intros k Hk.
          apply elem_of_cons in Hk as [->|Hk]; [by rewrite Hget|by apply H1].
        - right. exists k, e. split; [by apply list_elem_of_further|done]. }
      destruct group as [group|]; [|apply IH'].
      destruct (addRecipients _ _ _ _) as [receiver ex].
      destruct ex; apply IH'.
Qed.

Lemma addProjectAlert2Config_cases (d : Syncer) (config : Config)
    (projectGroups : gmap string (gmap string (list PRule)))
    (keys : list string) (notifiers : list Notifier) :
  ((forall p k, p ∈ keys ->
      k ∈ sorted_keys (default ∅ (projectGroups !! p)) ->
      fatal (projectAlertGroupLister d p (ref_Parse k).2).2 = None) /\
   exists config',
     addProjectAlert2Config d config projectGroups keys notifiers
     = Ok config')
  \/
  (exists p k e,
      p ∈ keys /\ k ∈ sorted_keys (default ∅ (projectGroups !! p)) /\
      fatal (projectAlertGroupLister d p (ref_Parse k).2).2 = Some e /\
      addProjectAlert2Config d config projectGroups keys notifiers
      = Err (Errorf ("get project alert group " +:+ p +:+ ":"
                     +:+ (ref_Parse k).2 +:+ " failed, "
                     +:+ error_string e))).
Proof.
  revert config. induction keys as [|p0 keys IH]; intros config.
  - left. split; [intros p k Hp; by apply elem_of_nil in Hp|by eexists].
  - simpl.
    destruct (addProjectGroups2Config_cases d config p0
                (default ∅ (projectGroups !! p0))
                (sorted_keys (default ∅ (projectGroups !! p0))) notifiers)
      as [[H1 [c' Hc']]|(k & e & H1 & H2 & H3)].
    + rewrite Hc'.
      destruct (IH c') as [[H3 H4]|(p & k & e & H3 & H4 & H5 & H6)].
      * left. split; [|done]. intros p k Hp Hk.
        apply elem_of_cons in Hp as [->|Hp]; [by apply H1|by apply H3].
      * right. exists p, k, e. split; [by apply list_elem_of_further|done].
    + right. exists p0, k, e. rewrite H3.
      split; [apply list_elem_of_here|done].
Qed.

Lemma addProjectAlert2Operator_no_panic (d : Syncer)
    (projectGroups : gmap string (gmap string (list PRule)))
    (keys : list string) (w : World Rule) (msg : string) :
  (addProjectAlert2Operator d projectGroups keys w).1 <> Panic msg.
Proof.
  revert w. induction keys as [|p keys IH]; intros w; [done|]. simpl.
  destruct (projectPromRule d projectGroups p) as [enabled promRule].
  destruct enabled; simpl; [|apply IH].
  unfold bind, SyncPrometheusRule, call.
  destruct (SyncPrometheusRule_err (operatorCRDManager d) promRule);
    [done|apply IH].
Qed.

Lemma addClusterAlert2Operator_no_panic (d : Syncer)
    (groupRules : gmap string (list CRule))
    (keys : list string) (w : World Rule) (msg : string) :
  (addClusterAlert2Operator d groupRules keys w).1 <> Panic msg.
Proof.
  rewrite (addClusterAlert2Operator_logs d groupRules keys w). simpl.
  destruct keys; [done|].
  by destruct (SyncPrometheusRule_err _ _).
Qed.

(** [sync] up to the document, when the stack is there and the listers
    answer *)
Lemma sync_data_listed (d : Syncer) (w : World Rule) endpoint notifiers
    clusterRules projectRules :
  GetAlertManagerEndpoint (alertManager d) = Ok endpoint ->
  notifierLister d = Ok notifiers ->
  clusterAlertRuleLister d = Ok clusterRules ->
  projectAlertRuleLister d = Ok projectRules ->
  sync_data d w
  = sync_document d notifiers (cAlertsMap_of clusterRules)
      (pAlertsMap_of d projectRules)
      {| secrets := secrets w;
         trace := trace w ++ [CallGetAlertManagerEndpoint; CallListNotifiers;
                              CallListClusterAlertRules;
                              CallListProjectAlertRules] |}.
Proof.
  intros Hend Hn Hc Hp.
  unfold configsyncer.sync_data, bind, wrapf, call, log.
  rewrite Hend, Hn, Hc, Hp. simpl. by rewrite <- !app_assoc.
Qed.

(** a group lookup that fails with another error than not-found makes the
    document, and so the reconcile, end in an error *)
Lemma sync_document_lookup_fails (d : Syncer) (notifiers : list Notifier)
    (cAlertsMap : gmap string (list CRule))
    (pAlertsMap : gmap string (gmap string (list PRule)))
    (w : World Rule) :
  (exists k, k ∈ sorted_keys cAlertsMap /\
     fatal (clusterAlertGroupLister d (clusterName d) (ref_Parse k).2).2
       <> None)
  \/
  (exists p k, p ∈ sorted_keys pAlertsMap /\
     k ∈ sorted_keys (default ∅ (pAlertsMap !! p)) /\
     fatal (projectAlertGroupLister d p (ref_Parse k).2).2 <> None) ->
  exists e, (sync_document d notifiers cAlertsMap pAlertsMap w).1 = Err e.
Proof.
  intros Hfatal. unfold configsyncer.sync_document, bind.
  pose proof (addClusterAlert2Operator_no_panic d cAlertsMap
                (sorted_keys cAlertsMap) w) as Hnp1.
  destruct (addClusterAlert2Operator d cAlertsMap (sorted_keys cAlertsMap) w)
    as [[[]|e|msg] w1]; [|by eexists|by destruct (Hnp1 msg)].
  pose proof (addProjectAlert2Operator_no_panic d pAlertsMap
                (sorted_keys pAlertsMap) w1) as Hnp2.
  destruct (addProjectAlert2Operator d pAlertsMap (sorted_keys pAlertsMap) w1)
    as [[[]|e|msg] w2]; [|by eexists|by destruct (Hnp2 msg)].
  unfold lift.
  set (config := set_PagerdutyURL _ _).
  destruct Hfatal as [(k & Hk & Hf)|(p & k & Hp & Hk & Hf)].
  - destruct (addClusterAlert2Config_cases d config cAlertsMap
                (sorted_keys cAlertsMap) notifiers)
      as [[H1 _]|(k' & e & _ & _ & ->)]; [|by eexists].
    destruct Hf. by apply H1.
  - destruct (addClusterAlert2Config_cases d config cAlertsMap
                (sorted_keys cAlertsMap) notifiers)
      as [[_ [c1 ->]]|(k' & e & _ & _ & ->)]; [|by eexists].
    destruct (addProjectAlert2Config_cases d c1 pAlertsMap
                (sorted_keys pAlertsMap) notifiers)
      as [[H1 _]|(p' & k' & e & _ & _ & _ & ->)]; [|by eexists].
    destruct Hf. by apply H1.
Qed.

(** When no publish fails, no group lookup fails with another error than
    not-found, the serializer answers and the secret can be read and
    written, the reconcile returns success: groups that are not found do
    not make it fail. *)
Lemma sync_succeeds (d : Syncer) (w : World Rule) endpoint notifiers
    clusterRules projectRules (s : Secret) (m : gmap string string) :
  let ns := ClusterAlertManagerInfo.2 in
  let name := GetAlertManagerSecretName ClusterAlertManagerInfo.1 in
  GetAlertManagerEndpoint (alertManager d) = Ok endpoint ->
  notifierLister d = Ok notifiers ->
  clusterAlertRuleLister d = Ok clusterRules ->
  projectAlertRuleLister d = Ok projectRules ->
  (forall promRule,
      SyncPrometheusRule_err (operatorCRDManager d) promRule = None) ->
  (forall k, k ∈ sorted_keys (cAlertsMap_of clusterRules) ->
      fatal (clusterAlertGroupLister d (clusterName d) (ref_Parse k).2).2
      = None) ->
  (forall p k, p ∈ sorted_keys (pAlertsMap_of d projectRules) ->
      k ∈ sorted_keys (default ∅ (pAlertsMap_of d projectRules !! p)) ->
      fatal (projectAlertGroupLister d p (ref_Parse k).2).2 = None) ->
  (forall config, exists data, yaml_Marshal config = Ok data) ->
  secret_Get_err (secretsGetter d) ns name = None ->
  secrets w !! (ns, name) = Some s ->
  Data s = Some m ->
  (forall s', secret_Update_err (secretsGetter d) ns name s' = None) ->
  (sync d w).1 = Ok tt.
Proof.
  intros ns name Hend Hn Hc Hp Hpub Hcl Hpl Hm Hget Hs Hdata Hupd.
  unfold configsyncer.sync.
  destruct (IsDeploy (alertManager d)); [|reflexivity]. simpl.
  unfold bind at 1.
  rewrite (sync_data_listed d w endpoint notifiers clusterRules projectRules
             Hend Hn Hc Hp).
  set (w0 := {| secrets := secrets w; trace := _ |}).
  unfold configsyncer.sync_document, bind.
  rewrite (addClusterAlert2Operator_logs d _ _ w0).
  assert (match sorted_keys (cAlertsMap_of clusterRules) with
          | [] => Ok tt
          | _ :: _ =>
            match SyncPrometheusRule_err (operatorCRDManager d)
                    (clusterPromRule d (cAlertsMap_of clusterRules)
                       (sorted_keys (cAlertsMap_of clusterRules))).2 with
            | Some e => Err e
            | None => Ok tt
            end
          end = Ok tt) as ->.
  { destruct (sorted_keys (cAlertsMap_of clusterRules)); [done|].
    by rewrite Hpub. }
  rewrite (addProjectAlert2Operator_trace d _ _ Hpub).
  unfold lift.
  set (config := set_PagerdutyURL _ _).
  destruct (addClusterAlert2Config_cases d config
              (cAlertsMap_of clusterRules)
              (sorted_keys (cAlertsMap_of clusterRules)) notifiers)
    as [[_ [c1 ->]]|(k & e & Hk & Hf & _)];
    [|by rewrite Hcl in Hf].
  destruct (addProjectAlert2Config_cases d c1
              (pAlertsMap_of d projectRules)
              (sorted_keys (pAlertsMap_of d projectRules)) notifiers)
    as [[_ [c2 ->]]|(p & k & e & Hp' & Hk & Hf & _)];
    [|by rewrite Hpl in Hf].
  unfold wrapf. destruct (Hm c2) as [data ->].
  rewrite sync_secret_run. fold ns name. simpl.
  rewrite Hget, Hs, Hdata.
  destruct (String.eqb (Data_get s "alertmanager.yaml") data); [done|].
  by rewrite Hupd.
Qed.

(** * Further properties of the package *)

Local Abbreviation cluster_emits := (cluster_emits ref_Parse).
Local Abbreviation project_emits := (project_emits ref_Parse).
Local Abbreviation cluster_rule_ids := (cluster_rule_ids GetRuleID).
Local Abbreviation project_rule_ids := (project_rule_ids GetRuleID).
Local Abbreviation in_project_group :=
  (in_project_group ref_Parse ObjectInCluster).
Local Abbreviation in_project := (in_project ref_Parse ObjectInCluster).

(** ** Durations *)

Lemma wrap64_range (z : Z) : - 2 ^ 63 <= wrap64 z < 2 ^ 63.
Proof.
  unfold wrap64.
  pose proof (Z.mod_pos_bound (z + 2 ^ 63) (2 ^ 64) eq_refl). lia.
Qed.

(** X1: the durations that [newRoute] writes are exact for timing values of
    up to 9223372036 seconds in absolute value, and wrap around in 64 bits
    beyond: the group wait and the repeat interval of a node are the
    seconds given times 10^9, and every duration written is an int64. *)
Theorem X1_newRoute_durations_exact_in_range :
  forall (m : gmap string string) (gw gi ri : Z),
    (-9223372036 <= gw <= 9223372036 ->
     GroupWait (newRoute m gw gi ri) = Some (gw * 1000000000)) /\
    (-9223372036 <= ri <= 9223372036 ->
     RepeatInterval (newRoute m gw gi ri) = Some (ri * 1000000000)) /\
    (-9223372036 <= gi <= 9223372036 -> gi <> 10 ->
     GroupInterval (newRoute m gw gi ri) = Some (gi * 1000000000)) /\
    (forall z,
        GroupWait (newRoute m gw gi ri) = Some z \/
        RepeatInterval (newRoute m gw gi ri) = Some z \/
        GroupInterval (newRoute m gw gi ri) = Some z ->
        - 2 ^ 63 <= z < 2 ^ 63).
Proof.
  intros m gw gi ri. split; [|split; [|split]].
  - intros Hgw. simpl. by rewrite seconds_small.
  - intros Hri. simpl. by rewrite seconds_small.
  - intros Hgi Hne. simpl. unfold defaultGroupInterval.
    destruct (Z.eqb_spec gi 10); [contradiction|]. simpl.
    by rewrite seconds_small.
  - intros z [H|[H|H]]; simpl in H.
    + injection H as <-. apply wrap64_range.
    + injection H as <-. apply wrap64_range.
    + destruct (negb (gi =? defaultGroupInterval)); [|discriminate].
      injection H as <-. apply wrap64_range.
Qed.

(** ** The notifier lookup *)

Lemma getNotifier_Some (cn id : string) (notifiers : list Notifier)
    (n : Notifier) :
  getNotifier cn id notifiers = Some n ->
  n ∈ notifiers /\ cn +:+ ":" +:+ nt_Name n = id.
Proof.
  unfold getNotifier. intros H. apply find_some in H as [Hin Heq].
  split; [by apply list_elem_of_In|by apply String.eqb_eq].
Qed.

Lemma getNotifier_None (cn id : string) (notifiers : list Notifier) :
  getNotifier cn id notifiers = None <->
  forall n, n ∈ notifiers -> cn +:+ ":" +:+ nt_Name n <> id.
Proof.
  unfold getNotifier. split.
  - intros H n Hin. apply list_elem_of_In in Hin.
    pose proof (find_none _ _ H n Hin) as Hn. simpl in Hn.
    by apply String.eqb_neq.
  - intros H. induction notifiers as [|n l IH]; [reflexivity|]. simpl.
    destruct (String.eqb_spec (cn +:+ ":" +:+ nt_Name n) id) as [Heq|Hne].
    + destruct (H n (list_elem_of_here _ _) Heq).
    + apply IH. intros n' Hn'. apply H. by apply list_elem_of_further.
Qed.

Lemma append_inj_r (s t1 t2 : string) : s +:+ t1 = s +:+ t2 -> t1 = t2.
Proof.
  induction s as [|c s IH]; simpl; [done|]. intros [= H]. by apply IH.
Qed.

(** X2: [getNotifier] answers nil exactly when no notifier of the list has
    the id looked up ([clusterName:name]); otherwise it answers a notifier
    of the list with that id, the first one in the list. *)
Theorem X2_getNotifier_finds_the_first_match :
  forall (cn id : string) (notifiers : list Notifier),
    (getNotifier cn id notifiers = None <->
     forall n, n ∈ notifiers -> cn +:+ ":" +:+ nt_Name n <> id) /\
    (forall n, getNotifier cn id notifiers = Some n ->
       exists before after,
         notifiers = before ++ n :: after /\
         cn +:+ ":" +:+ nt_Name n = id /\
         forall n', n' ∈ before -> cn +:+ ":" +:+ nt_Name n' <> id).
Proof.
  intros cn id notifiers. split; [apply getNotifier_None|].
  induction notifiers as [|n0 l IH]; intros n H; [discriminate|].
  unfold getNotifier in H. simpl in H.
  destruct (String.eqb_spec (cn +:+ ":" +:+ nt_Name n0) id) as [Heq|Hne].
  - injection H as <-. exists [], l. split; [done|]. split; [done|].
    intros n' Hn'. by apply elem_of_nil in Hn'.
  - destruct (IH n H) as (before & after & -> & Hid & Hb).
    exists (n0 :: before), after. split; [done|]. split; [done|].
    intros n' Hn'. apply elem_of_cons in Hn' as [->|Hn']; [done|by apply Hb].
Qed.

Lemma getNotifier_perm (cn id : string) (l1 l2 : list Notifier) :
  l1 ≡ₚ l2 -> NoDup (map nt_Name l1) ->
  getNotifier cn id l1 = getNotifier cn id l2.
Proof.
  intros Hperm Hnd.
  assert (NoDup (map nt_Name l2)) as Hnd2.
  { eapply NoDup_Permutation_proper; [|exact Hnd].
    symmetry. by apply fmap_Permutation. }
  assert (forall l n, NoDup (map nt_Name l) -> n ∈ l ->
                      cn +:+ ":" +:+ nt_Name n = id ->
                      getNotifier cn id l = Some n) as Hfind.
  { clear. induction l as [|n0 l IH]; intros n Hnd Hin Hid.
    - by apply elem_of_nil in Hin.
    - unfold getNotifier. simpl.
      apply NoDup_cons in Hnd as [Hn0 Hnd].
      destruct (String.eqb_spec (cn +:+ ":" +:+ nt_Name n0) id) as [Heq|Hne].
      + apply elem_of_cons in Hin as [->|Hin]; [done|].
        exfalso. apply Hn0. rewrite <- Hid in Heq.
        apply append_inj_r, append_inj_r in Heq. rewrite Heq.
        by apply (list_elem_of_fmap_2 nt_Name).
      + apply elem_of_cons in Hin as [->|Hin]; [contradiction|].
        by apply IH. }
  destruct (getNotifier cn id l1) as [n|] eqn:H1.
  - apply getNotifier_Some in H1 as [Hin Hid]. symmetry.
    apply Hfind; [done| |done]. by rewrite <- Hperm.
  - symmetry. apply getNotifier_None. intros n Hin.
    rewrite getNotifier_None in H1. apply H1. by rewrite Hperm.
Qed.

Lemma addRecipients_perm (cn : string) (l1 l2 : list Notifier)
    (receiver : ReceiverT) (recipients : list Recipient) :
  l1 ≡ₚ l2 -> NoDup (map nt_Name l1) ->
  addRecipients cn l1 receiver recipients
  = addRecipients cn l2 receiver recipients.
Proof.
  intros Hperm Hnd. unfold addRecipients. generalize (receiver, false).
  induction recipients as [|r l IH]; intros acc; [reflexivity|]. simpl.
  rewrite IH. f_equal. unfold addRecipient. destruct acc as [rc ex].
  by rewrite (getNotifier_perm cn (NotifierName r) l1 l2 Hperm Hnd).
Qed.

(** X3: when the notifiers have distinct names, the order in which the
    notifier lister answers them does not matter: the lookup of a notifier
    and the receiver built from the recipients of a group are the same for
    every permutation of the list. *)
Theorem X3_notifier_order_is_irrelevant_for_distinct_names :
  forall (cn : string) (l1 l2 : list Notifier),
    l1 ≡ₚ l2 -> NoDup (map nt_Name l1) ->
    (forall id, getNotifier cn id l1 = getNotifier cn id l2) /\
    (forall receiver recipients,
        addRecipients cn l1 receiver recipients
        = addRecipients cn l2 receiver recipients).
Proof.
  intros cn l1 l2 Hperm Hnd. split.
  - intros id. by apply getNotifier_perm.
  - intros receiver recipients. by apply addRecipients_perm.
Qed.

(** ** The recipient resolver counts *)

Lemma addRecipient_count (cn : string) (notifiers : list Notifier)
    (acc : ReceiverT * bool) (r : Recipient) :
  n_configs (addRecipient cn notifiers acc r).1
  = (n_configs acc.1 + (if yields_config cn notifiers r then 1 else 0))%nat /\
  (addRecipient cn notifiers acc r).2
  = acc.2 || yields_config cn notifiers r.
Proof.
  destruct acc as [rc ex]. unfold addRecipient, yields_config, has_channel.
  destruct (negb (String.eqb (NotifierName r) "")); simpl;
    [|split; [lia|by rewrite orb_false_r]].
  destruct (getNotifier cn (NotifierName r) notifiers) as [n|]; simpl;
    [|split; [lia|by rewrite orb_false_r]].
  unfold n_configs.
  destruct (PagerdutyConfig_ n), (WebhookConfig_ n), (SlackConfig_ n),
    (SMTPConfig_ n); simpl; rewrite ?length_app; simpl;
    split; try lia; by rewrite ?orb_true_r, ?orb_false_r.
Qed.

Lemma addRecipients_count :
  forall (cn : string) (notifiers : list Notifier) (receiver : ReceiverT)
         (recipients : list Recipient),
    let n := length (List.filter (yields_config cn notifiers) recipients) in
    n_configs (addRecipients cn notifiers receiver recipients).1
    = (n_configs receiver + n)%nat /\
    (addRecipients cn notifiers receiver recipients).2
    = negb (Nat.eqb n 0) /\
    rc_Name (addRecipients cn notifiers receiver recipients).1
    = rc_Name receiver.
Proof.
  intros cn notifiers receiver recipients n. subst n.
  split; [|split; [|apply addRecipients_name]].
  - unfold addRecipients.
    change (n_configs receiver) with (n_configs (receiver, false).1).
    generalize (receiver, false).
    induction recipients as [|r l IH]; intros acc; simpl; [lia|].
    rewrite IH.
    destruct (addRecipient_count cn notifiers acc r) as [-> _].
    destruct (yields_config cn notifiers r); simpl; lia.
  - unfold addRecipients.
    assert (forall acc : ReceiverT * bool,
               (foldl (addRecipient cn notifiers) acc recipients).2
               = acc.2
                 || negb (Nat.eqb (length (List.filter
                                             (yields_config cn notifiers)
                                             recipients)) 0)) as Hgen.
    { induction recipients as [|r l IH]; intros acc; simpl.
      - by rewrite orb_false_r.
      - rewrite IH.
        destruct (addRecipient_count cn notifiers acc r) as [_ ->].
        destruct (yields_config cn notifiers r); simpl.
        + by rewrite !orb_true_r.
        + by rewrite orb_false_r. }
    by rewrite Hgen.
Qed.

Lemma addRecipients_flag_positive (cn : string) (notifiers : list Notifier)
    (receiver : ReceiverT) (recipients : list Recipient) :
  (addRecipients cn notifiers receiver recipients).2 = true ->
  (0 < n_configs (addRecipients cn notifiers receiver recipients).1)%nat.
Proof.
  destruct (addRecipients_count cn notifiers receiver recipients)
    as (Hn & Hflag & _).
  rewrite Hn, Hflag.
  destruct (length (List.filter (yields_config cn notifiers) recipients));
    [discriminate|lia].
Qed.

(** X4: the recipient resolver appends exactly one channel config for each
    recipient that names a notifier of the list with a channel configured,
    whatever the number of channels of the notifier, and none for the
    others; the flag it returns tells whether it appended any. *)
Theorem X4_addRecipients_one_config_per_resolved_recipient :
  forall (cn : string) (notifiers : list Notifier) (receiver : ReceiverT)
         (recipients : list Recipient),
    let n := length (List.filter (yields_config cn notifiers) recipients) in
    n_configs (addRecipients cn notifiers receiver recipients).1
    = (n_configs receiver + n)%nat /\
    (addRecipients cn notifiers receiver recipients).2
    = negb (Nat.eqb n 0) /\
    rc_Name (addRecipients cn notifiers receiver recipients).1
    = rc_Name receiver.
Proof. apply addRecipients_count. Qed.

(** ** The shape of the routing tree *)

(** a node made for a rule or for an event: a leaf without receiver *)
Lemma rule_node_leaf (m : gmap string string) (gw gi ri : Z) :
  m !! "group_id" = None ->
  Receiver (newRoute m gw gi ri) = "" /\ Routes (newRoute m gw gi ri) = [].
Proof. intros Hm. unfold newRoute. simpl. by rewrite Hm. Qed.

Lemma clusterRuleRoute_children (groupID : string) (r1 : Route)
    (alert : CRule) :
  exists new,
    Routes (clusterRuleRoute groupID r1 alert) = Routes r1 ++ new /\
    omap (fun r => Match r !! "rule_id") new = cluster_rule_ids groupID alert /\
    length new = length (cluster_rule_ids groupID alert) /\
    Forall (fun r => Receiver r = "" /\ Routes r = [] /\
                     Match r !! "group_id" = None) new.
Proof.
  unfold configsyncer.clusterRuleRoute, configsyncer.cluster_rule_ids.
  destruct (inactive (car_AlertState alert)).
  { exists []. by rewrite app_nil_r. }
  destruct (car_EventRule alert) as [ev|]; simpl;
    destruct (is_Some_b (car_MetricRule alert)
              || is_Some_b (car_SystemServiceRule alert)
              || is_Some_b (car_NodeRule alert)); simpl.
  - eexists [_; _]. unfold addRule. simpl. rewrite <- app_assoc.
    split; [reflexivity|]. simpl.
    split; [by simplify_map_eq|]. split; [done|].
    repeat constructor.
  - eexists [_]. simpl. split; [reflexivity|]. simpl.
    split; [by simplify_map_eq|]. split; [done|].
    repeat constructor.
  - eexists [_]. unfold addRule. simpl.
    split; [reflexivity|]. simpl.
    split; [by simplify_map_eq|]. split; [done|].
    repeat constructor.
  - exists []. by rewrite app_nil_r.
Qed.

Lemma projectRuleRoute_children (groupID : string) (r1 : Route)
    (alert : PRule) :
  exists new,
    Routes (projectRuleRoute groupID r1 alert) = Routes r1 ++ new /\
    omap (fun r => Match r !! "rule_id") new = project_rule_ids groupID alert /\
    length new = length (project_rule_ids groupID alert) /\
    Forall (fun r => Receiver r = "" /\ Routes r = [] /\
                     Match r !! "group_id" = None) new.
Proof.
  unfold configsyncer.projectRuleRoute, configsyncer.project_rule_ids.
  destruct (inactive (par_AlertState alert)).
  { exists []. by rewrite app_nil_r. }
  destruct (is_Some_b (par_PodRule alert) || is_Some_b (par_WorkloadRule alert)
            || is_Some_b (par_MetricRule alert)); simpl.
  - eexists [_]. unfold addRule. simpl.
    split; [reflexivity|]. simpl.
    split; [by simplify_map_eq|]. split; [done|].
    repeat constructor.
  - exists []. by rewrite app_nil_r.
Qed.

Lemma projectRuleRoute_head (groupID : string) (r1 : Route) (alert : PRule) :
  Receiver (projectRuleRoute groupID r1 alert) = Receiver r1 /\
  Match (projectRuleRoute groupID r1 alert) = Match r1 /\
  GroupWait (projectRuleRoute groupID r1 alert) = GroupWait r1 /\
  RepeatInterval (projectRuleRoute groupID r1 alert) = RepeatInterval r1 /\
  GroupInterval (projectRuleRoute groupID r1 alert) = GroupInterval r1.
Proof.
  unfold configsyncer.projectRuleRoute.
  destruct (inactive (par_AlertState alert)); [done|].
  destruct (is_Some_b (par_PodRule alert) || is_Some_b (par_WorkloadRule alert)
            || is_Some_b (par_MetricRule alert)); done.
Qed.

Lemma clusterRuleRoute_timing (groupID : string) (r1 : Route) (alert : CRule) :
  GroupWait (clusterRuleRoute groupID r1 alert) = GroupWait r1 /\
  RepeatInterval (clusterRuleRoute groupID r1 alert) = RepeatInterval r1 /\
  GroupInterval (clusterRuleRoute groupID r1 alert) = GroupInterval r1.
Proof.
  unfold configsyncer.clusterRuleRoute.
  destruct (inactive (car_AlertState alert)); [done|].
  destruct (car_EventRule alert);
    destruct (is_Some_b (car_MetricRule alert)
              || is_Some_b (car_SystemServiceRule alert)
              || is_Some_b (car_NodeRule alert)); done.
Qed.

Lemma clusterGroupRoute_children (groupID : string) (rules : list CRule) :
  omap (fun r => Match r !! "rule_id") (Routes (clusterGroupRoute groupID rules))
  = flat_map (cluster_rule_ids groupID) rules /\
  length (Routes (clusterGroupRoute groupID rules))
  = length (flat_map (cluster_rule_ids groupID) rules) /\
  Forall (fun r => Receiver r = "" /\ Routes r = [] /\
                   Match r !! "group_id" = None)
         (Routes (clusterGroupRoute groupID rules)).
Proof.
  unfold configsyncer.clusterGroupRoute.
  set (r1 := newRoute _ _ _ _).
  assert (forall r0 : Route,
             omap (fun r => Match r !! "rule_id")
                  (Routes (foldl (clusterRuleRoute groupID) r0 rules))
             = omap (fun r => Match r !! "rule_id") (Routes r0)
               ++ flat_map (cluster_rule_ids groupID) rules /\
             length (Routes (foldl (clusterRuleRoute groupID) r0 rules))
             = (length (Routes r0)
                + length (flat_map (cluster_rule_ids groupID) rules))%nat /\
             (Forall (fun r => Receiver r = "" /\ Routes r = [] /\
                               Match r !! "group_id" = None) (Routes r0) ->
              Forall (fun r => Receiver r = "" /\ Routes r = [] /\
                               Match r !! "group_id" = None)
                     (Routes (foldl (clusterRuleRoute groupID) r0 rules))))
    as Hgen.
  { induction rules as [|a l IH]; intros r0; simpl.
    - rewrite app_nil_r. split; [done|]. split; [lia|done].
    - destruct (IH (clusterRuleRoute groupID r0 a)) as (H1 & H2 & H3).
      destruct (clusterRuleRoute_children groupID r0 a)
        as (new & Hr & Hids & Hlen & Hleaf).
      rewrite H1, H2, Hr, omap_app, Hids, !length_app, Hlen, <- app_assoc.
      split; [done|]. split; [lia|].
      intros H0. apply H3. rewrite Hr. by apply Forall_app. }
  destruct (Hgen r1) as (H1 & H2 & H3). subst r1. simpl in *.
  split; [done|]. split; [done|]. apply H3. constructor.
Qed.

Lemma projectGroupRoute_children (groupID : string) (rules : list PRule) :
  omap (fun r => Match r !! "rule_id") (Routes (projectGroupRoute groupID rules))
  = flat_map (project_rule_ids groupID) rules /\
  length (Routes (projectGroupRoute groupID rules))
  = length (flat_map (project_rule_ids groupID) rules) /\
  Forall (fun r => Receiver r = "" /\ Routes r = [] /\
                   Match r !! "group_id" = None)
         (Routes (projectGroupRoute groupID rules)).
Proof.
  unfold configsyncer.projectGroupRoute.
  set (r1 := newRoute _ _ _ _).
  assert (forall r0 : Route,
             omap (fun r => Match r !! "rule_id")
                  (Routes (foldl (projectRuleRoute groupID) r0 rules))
             = omap (fun r => Match r !! "rule_id") (Routes r0)
               ++ flat_map (project_rule_ids groupID) rules /\
             length (Routes (foldl (projectRuleRoute groupID) r0 rules))
             = (length (Routes r0)
                + length (flat_map (project_rule_ids groupID) rules))%nat /\
             (Forall (fun r => Receiver r = "" /\ Routes r = [] /\
                               Match r !! "group_id" = None) (Routes r0) ->
              Forall (fun r => Receiver r = "" /\ Routes r = [] /\
                               Match r !! "group_id" = None)
                     (Routes (foldl (projectRuleRoute groupID) r0 rules))))
    as Hgen.
  { induction rules as [|a l IH]; intros r0; simpl.
    - rewrite app_nil_r. split; [done|]. split; [lia|done].
    - destruct (IH (projectRuleRoute groupID r0 a)) as (H1 & H2 & H3).
      destruct (projectRuleRoute_children groupID r0 a)
        as (new & Hr & Hids & Hlen & Hleaf).
      rewrite H1, H2, Hr, omap_app, Hids, !length_app, Hlen, <- app_assoc.
      split; [done|]. split; [lia|].
      intros H0. apply H3. rewrite Hr. by apply Forall_app. }
  destruct (Hgen r1) as (H1 & H2 & H3). subst r1. simpl in *.
  split; [done|]. split; [done|]. apply H3. constructor.
Qed.

Lemma projectGroupRoute_head (groupID : string) (rules : list PRule) :
  Receiver (projectGroupRoute groupID rules) = groupID /\
  Match (projectGroupRoute groupID rules) = {[ "group_id" := groupID ]}.
Proof.
  unfold configsyncer.projectGroupRoute.
  set (r1 := newRoute _ _ _ _).
  assert (Receiver r1 = groupID /\ Match r1 = {[ "group_id" := groupID ]})
    as Hr1.
  { subst r1. unfold newRoute. simpl. by simplify_map_eq. }
  revert Hr1. generalize r1. clear r1.
  induction rules as [|a l IH]; intros r1 Hr1; [exact Hr1|].
  simpl. apply IH.
  destruct (projectRuleRoute_head groupID r1 a) as (-> & -> & _). exact Hr1.
Qed.

(** X5: the node that the assemblers build for a group names the group as
    its receiver and matches on [group_id] alone; every child of it is a
    leaf that names no receiver and does not match on [group_id]. So the
    routing tree has the root, group nodes and rule nodes, and only a group
    node routes to a receiver. This holds in both scopes and for every list
    of rules. *)
Theorem X5_group_node_names_receiver_children_are_leaves :
  (forall (groupID : string) (rules : list CRule),
      Receiver (clusterGroupRoute groupID rules) = groupID /\
      Match (clusterGroupRoute groupID rules) = {[ "group_id" := groupID ]} /\
      Forall (fun r => Receiver r = "" /\ Routes r = [] /\
                       Match r !! "group_id" = None)
             (Routes (clusterGroupRoute groupID rules)))
  /\
  (forall (groupID : string) (rules : list PRule),
      Receiver (projectGroupRoute groupID rules) = groupID /\
      Match (projectGroupRoute groupID rules) = {[ "group_id" := groupID ]} /\
      Forall (fun r => Receiver r = "" /\ Routes r = [] /\
                       Match r !! "group_id" = None)
             (Routes (projectGroupRoute groupID rules))).
Proof.
  split; intros groupID rules.
  - destruct (clusterGroupRoute_head groupID rules) as [H1 H2].
    destruct (clusterGroupRoute_children groupID rules) as (_ & _ & H3).
    done.
  - destruct (projectGroupRoute_head groupID rules) as [H1 H2].
    destruct (projectGroupRoute_children groupID rules) as (_ & _ & H3).
    done.
Qed.

(** X6: the children of a group node follow the order of the rules handed
    to the assembler. In the cluster scope a rule that is not inactive gets
    a node for its event payload and then a node for its metric,
    system-service or node payload, both matching on the same rule id, so a
    rule with both gets two nodes and a rule with neither gets none; in the
    project scope a rule gets one node when it has a pod, workload or
    metric payload. An inactive rule gets no node. *)
Theorem X6_children_follow_the_rules_in_order :
  (forall (groupID : string) (rules : list CRule),
      omap (fun r => Match r !! "rule_id")
           (Routes (clusterGroupRoute groupID rules))
      = flat_map (cluster_rule_ids groupID) rules /\
      length (Routes (clusterGroupRoute groupID rules))
      = length (flat_map (cluster_rule_ids groupID) rules))
  /\
  (forall (groupID : string) (rules : list PRule),
      omap (fun r => Match r !! "rule_id")
           (Routes (projectGroupRoute groupID rules))
      = flat_map (project_rule_ids groupID) rules /\
      length (Routes (projectGroupRoute groupID rules))
      = length (flat_map (project_rule_ids groupID) rules)).
Proof.
  split; intros groupID rules.
  - destruct (clusterGroupRoute_children groupID rules) as (H1 & H2 & _).
    done.
  - destruct (projectGroupRoute_children groupID rules) as (H1 & H2 & _).
    done.
Qed.

(** ** The order of the keys *)

Lemma ascii_compare_N (a b : ascii) :
  Ascii.compare a b = (N_of_ascii a ?= N_of_ascii b)%N.
Proof. reflexivity. Qed.

Lemma string_compare_trans_Lt (s1 s2 s3 : string) :
  String.compare s1 s2 = Lt -> String.compare s2 s3 = Lt ->
  String.compare s1 s3 = Lt.
Proof.
  revert s2 s3. induction s1 as [|c1 s1 IH]; intros [|c2 s2] [|c3 s3];
    simpl; try done.
  rewrite !ascii_compare_N.
  destruct (N.compare_spec (N_of_ascii c1) (N_of_ascii c2)) as [H12|H12|H12];
    try done;
    destruct (N.compare_spec (N_of_ascii c2) (N_of_ascii c3)) as [H23|H23|H23];
    try done; intros Ha Hb.
  - rewrite <- H23, H12, N.compare_refl. by eapply IH.
  - rewrite H12. by apply N.compare_lt_iff in H23 as ->.
  - rewrite <- H23. by apply N.compare_lt_iff in H12 as ->.
  - assert (N_of_ascii c1 < N_of_ascii c3)%N as H by lia.
    by apply N.compare_lt_iff in H as ->.
Qed.

#[local] Instance string_le_trans : Transitive string_le.
Proof.
  intros s1 s2 s3. unfold string_le, String.leb. intros H12 H23.
  destruct (String.compare s1 s2) eqn:E12; [| |discriminate].
  - apply String.compare_eq_iff in E12. by subst s2.
  - destruct (String.compare s2 s3) eqn:E23; [| |discriminate].
    + apply String.compare_eq_iff in E23. subst s3. by rewrite E12.
    + by rewrite (string_compare_trans_Lt _ _ _ E12 E23).
Qed.

(** X7: the sorted keys of a map are its keys, each once, in ascending
    byte order, and they are the same whatever order the keys are collected
    in: sorting any permutation of the keys gives the same list. This is
    what makes the loops of [sync] over Go maps, whose iteration order is
    random, run in one fixed order. *)
Theorem X7_sorted_keys_do_not_depend_on_iteration_order :
  forall (V : Type) (m : gmap string V),
    (forall k, k ∈ sorted_keys m <-> is_Some (m !! k)) /\
    NoDup (sorted_keys m) /\
    Sorted string_le (sorted_keys m) /\
    (forall collected,
        collected ≡ₚ (map_to_list m).*1 ->
        sort_Strings collected = sorted_keys m).
Proof.
  intros V m. split; [intros k; apply elem_of_sorted_keys|].
  split; [apply NoDup_sorted_keys|]. split; [apply Sorted_sorted_keys|].
  intros collected Hperm. unfold sorted_keys, sort_Strings.
  apply (Sorted_unique string_le).
  - apply Sorted_merge_sort, _.
  - apply Sorted_merge_sort, _.
  - by rewrite !merge_sort_Permutation.
Qed.

(** ** The partition of the project rules *)

Lemma pAlertsMap_add_kept (d : Syncer)
    (m : gmap string (gmap string (list PRule))) (a : PRule) :
  ObjectInCluster (clusterName d) a = true ->
  inactive (par_AlertState a) = false ->
  pAlertsMap_add ref_Parse ObjectInCluster d m a
  = <[(ref_Parse (par_ProjectName a)).2 :=
        <[par_GroupName a :=
            default [] (default ∅ (m !! (ref_Parse (par_ProjectName a)).2)
                          !! par_GroupName a) ++ [a]]>
          (default ∅ (m !! (ref_Parse (par_ProjectName a)).2))]> m.
Proof.
  intros Hin Hact. unfold pAlertsMap_add. rewrite Hin, Hact. simpl.
  destruct (m !! (ref_Parse (par_ProjectName a)).2) as [gs|] eqn:Hgs.
  - by rewrite Hgs.
  - rewrite lookup_insert_eq. simpl. by rewrite insert_insert_eq.
Qed.

Lemma pAlertsMap_add_dropped (d : Syncer)
    (m : gmap string (gmap string (list PRule))) (a : PRule) :
  ObjectInCluster (clusterName d) a = false \/
  inactive (par_AlertState a) = true ->
  pAlertsMap_add ref_Parse ObjectInCluster d m a = m.
Proof.
  intros [H|H]; unfold pAlertsMap_add; rewrite H; simpl; [done|].
  by destruct (ObjectInCluster (clusterName d) a).
Qed.

Lemma pAlertsMap_fold_lookup (d : Syncer) (rules : list PRule) (p g : string)
    (m : gmap string (gmap string (list PRule))) :
  default ∅ (foldl (pAlertsMap_add ref_Parse ObjectInCluster d) m rules !! p)
    !! g
  = match filter (in_project_group d p g) rules with
    | [] => default ∅ (m !! p) !! g
    | l => Some (default [] (default ∅ (m !! p) !! g) ++ l)
    end.
Proof.
  revert m. induction rules as [|a rules IH]; intros m; [reflexivity|].
  simpl. rewrite IH.
  destruct (ObjectInCluster (clusterName d) a) eqn:Hin;
    [destruct (inactive (par_AlertState a)) eqn:Hact|].
  - rewrite pAlertsMap_add_dropped by (by right).
    rewrite filter_cons_False; [done|]. intros (_ & H & _). congruence.
  - rewrite pAlertsMap_add_kept by done.
    set (pn := (ref_Parse (par_ProjectName a)).2).
    destruct (decide (pn = p)) as [Hp|Hp].
    + subst p. rewrite lookup_insert_eq. simpl.
      destruct (decide (par_GroupName a = g)) as [Hg|Hg].
      * subst g. rewrite filter_cons_True by done.
        rewrite lookup_insert_eq. simpl.
        destruct (filter _ rules); [done|by rewrite <- app_assoc].
      * rewrite filter_cons_False by (intros (_ & _ & _ & H); congruence).
        by rewrite lookup_insert_ne.
    + rewrite filter_cons_False by (intros (_ & _ & H & _); by apply Hp).
      by rewrite lookup_insert_ne.
  - rewrite pAlertsMap_add_dropped by (by left).
    rewrite filter_cons_False; [done|]. intros (H & _). congruence.
Qed.

Lemma pAlertsMap_fold_project (d : Syncer) (rules : list PRule) (p : string)
    (m : gmap string (gmap string (list PRule))) :
  foldl (pAlertsMap_add ref_Parse ObjectInCluster d) m rules !! p = None <->
  m !! p = None /\ filter (in_project d p) rules = [].
Proof.
  revert m. induction rules as [|a rules IH]; intros m.
  { simpl. split; [intros H; by split|by intros [H _]]. }
  simpl. rewrite IH.
  destruct (ObjectInCluster (clusterName d) a) eqn:Hin;
    [destruct (inactive (par_AlertState a)) eqn:Hact|].
  - rewrite pAlertsMap_add_dropped by (by right).
    rewrite filter_cons_False; [done|]. intros (_ & H & _). congruence.
  - rewrite pAlertsMap_add_kept by done.
    set (pn := (ref_Parse (par_ProjectName a)).2).
    destruct (decide (pn = p)) as [Hp|Hp].
    + subst p. rewrite lookup_insert_eq, filter_cons_True by done.
      split; [by intros [? _]|by intros [_ ?]].
    + rewrite filter_cons_False by (intros (_ & _ & H); by apply Hp).
      by rewrite lookup_insert_ne.
  - rewrite pAlertsMap_add_dropped by (by left).
    rewrite filter_cons_False; [done|]. intros (H & _). congruence.
Qed.

(** X8: the partition of the cluster rules files every rule that is not
    inactive under its group name and nothing else: the list of a group is
    the sublist of the listing with the rules of that group that are not
    inactive, in the order of the listing, and a group without such a rule
    has no entry, so no entry holds an empty list. *)
Theorem X8_cluster_partition_is_the_listing_by_group :
  forall (rules : list CRule) (g : string),
    cAlertsMap_of rules !! g
    = match filter (in_cluster_group g) rules with
      | [] => None
      | l => Some l
      end.
Proof. apply cAlertsMap_lookup. Qed.

(** X9: the partition of the project rules files a rule under the project
    named by the name part of its project reference and under its group
    name, when the rule belongs to the cluster of the syncer and is not
    inactive. The list of a group of a project is the sublist of the
    listing with these rules, in the order of the listing; a group without
    such a rule has no entry, and a project without such a rule has no
    entry. *)
Theorem X9_project_partition_is_the_listing_by_project_and_group :
  forall (d : Syncer) (rules : list PRule) (p g : string),
    default ∅ (pAlertsMap_of d rules !! p) !! g
    = match filter (in_project_group d p g) rules with
      | [] => None
      | l => Some l
      end /\
    (pAlertsMap_of d rules !! p = None <->
     filter (in_project d p) rules = []).
Proof.
  intros d rules p g. unfold configsyncer.pAlertsMap_of. split.
  - rewrite pAlertsMap_fold_lookup, lookup_empty. simpl.
    by rewrite lookup_empty.
  - rewrite pAlertsMap_fold_project, lookup_empty.
    split; [by intros [_ ?]|by intros ?].
Qed.

(** ** The assembler, key by key *)

Lemma same_frame_refl (config : Config) : same_frame config config.
Proof. by repeat split. Qed.

Lemma same_frame_step (config config' : Config) (rc : ReceiverT) (r1 : Route) :
  same_frame (root_append (receivers_add config rc) r1) config' ->
  same_frame config config'.
Proof. intros H. exact H. Qed.

Lemma addClusterAlert2Config_exact (d : Syncer)
    (alerts : gmap string (list CRule)) (notifiers : list Notifier)
    (keys : list string) (config config' : Config) :
  addClusterAlert2Config d config alerts keys notifiers = Ok config' ->
  same_frame config config' /\
  Routes (cfg_Route config')
  = Routes (cfg_Route config)
    ++ map (fun k => clusterGroupRoute k (default [] (alerts !! k)))
           (List.filter (cluster_emits d notifiers) keys) /\
  exists rcs,
    Receivers config' = Receivers config ++ rcs /\
    map rc_Name rcs = List.filter (cluster_emits d notifiers) keys /\
    Forall (fun rc => (0 < n_configs rc)%nat) rcs.
Proof.
  revert config. induction keys as [|k keys IH]; intros config Hrun.
  - simpl in Hrun. injection Hrun as <-. simpl.
    split; [apply same_frame_refl|]. split; [by rewrite app_nil_r|].
    exists []. by rewrite app_nil_r.
  - simpl in Hrun. simpl List.filter.
    destruct (cluster_emits d notifiers k) eqn:Hem;
      unfold configsyncer.cluster_emits in Hem;
      destruct (clusterAlertGroupLister d (clusterName d) (ref_Parse k).2)
        as [group err] eqn:Hget;
      (destruct (fatal err); [discriminate|]); simpl in Hem.
    + destruct group as [group|]; [|discriminate].
      pose proof (Hname := addRecipients_name (clusterName d) notifiers
                             (newReceiver k) (cag_Recipients group)).
      pose proof (Hcount := addRecipients_flag_positive (clusterName d)
                              notifiers (newReceiver k)
                              (cag_Recipients group)).
      destruct (addRecipients (clusterName d) notifiers (newReceiver k)
                  (cag_Recipients group)) as [receiver ex] eqn:Hadd.
      simpl in *. subst ex.
      destruct (IH _ Hrun) as (Hframe & Hroutes & rcs & Hrcs & Hnames & Hpos).
      split; [exact Hframe|]. split.
      * rewrite Hroutes. simpl. by rewrite <- app_assoc.
      * exists (receiver :: rcs). split; [|split].
        -- rewrite Hrcs. simpl. by rewrite <- app_assoc.
        -- simpl. by rewrite Hname, Hnames.
        -- constructor; [|done]. by apply Hcount.
    + destruct group as [group|]; [|by apply IH].
      destruct (addRecipients (clusterName d) notifiers (newReceiver k)
                  (cag_Recipients group)) as [receiver ex] eqn:Hadd.
      simpl in Hem. subst ex. by apply IH.
Qed.

Lemma addProjectGroups2Config_exact (d : Syncer) (projectName : string)
    (groups : gmap string (list PRule)) (notifiers : list Notifier)
    (groupIDs : list string) (config config' : Config) :
  addProjectGroups2Config d config projectName groups groupIDs notifiers
  = Ok config' ->
  same_frame config config' /\
  Routes (cfg_Route config')
  = Routes (cfg_Route config)
    ++ map (fun k => projectGroupRoute k (default [] (groups !! k)))
           (List.filter (project_emits d notifiers projectName) groupIDs) /\
  exists rcs,
    Receivers config' = Receivers config ++ rcs /\
    map rc_Name rcs
    = List.filter (project_emits d notifiers projectName) groupIDs /\
    Forall (fun rc => (0 < n_configs rc)%nat) rcs.
Proof.
  revert config. induction groupIDs as [|k keys IH]; intros config Hrun.
  - simpl in Hrun. injection Hrun as <-. simpl.
    split; [apply same_frame_refl|]. split; [by rewrite app_nil_r|].
    exists []. by rewrite app_nil_r.
  - simpl in Hrun. simpl List.filter.
    destruct (project_emits d notifiers projectName k) eqn:Hem;
      unfold configsyncer.project_emits in Hem;
      destruct (projectAlertGroupLister d projectName (ref_Parse k).2)
        as [group err] eqn:Hget;
      (destruct (fatal err); [discriminate|]); simpl in Hem.
    + destruct group as [group|]; [|discriminate].
      pose proof (Hname := addRecipients_name (clusterName d) notifiers
                             (newReceiver k) (pag_Recipients group)).
      pose proof (Hcount := addRecipients_flag_positive (clusterName d)
                              notifiers (newReceiver k)
                              (pag_Recipients group)).
      destruct (addRecipients (clusterName d) notifiers (newReceiver k)
                  (pag_Recipients group)) as [receiver ex] eqn:Hadd.
      simpl in *. subst ex.
      destruct (IH _ Hrun) as (Hframe & Hroutes & rcs & Hrcs & Hnames & Hpos).
      split; [exact Hframe|]. split.
      * rewrite Hroutes. simpl. by rewrite <- app_assoc.
      * exists (receiver :: rcs). split; [|split].
        -- rewrite Hrcs. simpl. by rewrite <- app_assoc.
        -- simpl. by rewrite Hname, Hnames.
        -- constructor; [|done]. by apply Hcount.
    + destruct group as [group|]; [|by apply IH].
      destruct (addRecipients (clusterName d) notifiers (newReceiver k)
                  (pag_Recipients group)) as [receiver ex] eqn:Hadd.
      simpl in Hem. subst ex. by apply IH.
Qed.

Lemma same_frame_trans (c1 c2 c3 : Config) :
  same_frame c1 c2 -> same_frame c2 c3 -> same_frame c1 c3.
Proof.
  unfold same_frame. intros (H1 & H2 & H3 & H4 & H5 & H6)
                            (G1 & G2 & G3 & G4 & G5 & G6).
  repeat split; congruence.
Qed.

Lemma addProjectAlert2Config_exact (d : Syncer)
    (projectGroups : gmap string (gmap string (list PRule)))
    (notifiers : list Notifier) (keys : list string)
    (config config' : Config) :
  addProjectAlert2Config d config projectGroups keys notifiers = Ok config' ->
  same_frame config config' /\
  Routes (cfg_Route config')
  = Routes (cfg_Route config)
    ++ flat_map
         (fun p =>
            map (fun k => projectGroupRoute k
                            (default [] (default ∅ (projectGroups !! p) !! k)))
                (List.filter (project_emits d notifiers p)
                   (sorted_keys (default ∅ (projectGroups !! p))))) keys /\
  exists rcs,
    Receivers config' = Receivers config ++ rcs /\
    map rc_Name rcs
    = flat_map (fun p => List.filter (project_emits d notifiers p)
                           (sorted_keys (default ∅ (projectGroups !! p))))
               keys /\
    Forall (fun rc => (0 < n_configs rc)%nat) rcs.
Proof.
  revert config. induction keys as [|p keys IH]; intros config Hrun.
  - simpl in Hrun. injection Hrun as <-. simpl.
    split; [apply same_frame_refl|]. split; [by rewrite app_nil_r|].
    exists []. by rewrite app_nil_r.
  - simpl in Hrun.
    destruct (addProjectGroups2Config d config p
                (default ∅ (projectGroups !! p))
                (sorted_keys (default ∅ (projectGroups !! p))) notifiers)
      as [c1|e|msg] eqn:Hc1; [|discriminate|discriminate].
    destruct (addProjectGroups2Config_exact d p _ notifiers _ config c1 Hc1)
      as (Hf1 & Hr1 & rcs1 & Hrc1 & Hn1 & Hp1).
    destruct (IH c1 Hrun) as (Hf2 & Hr2 & rcs2 & Hrc2 & Hn2 & Hp2).
    split; [by eapply same_frame_trans|]. split.
    + rewrite Hr2, Hr1. simpl. by rewrite <- app_assoc.
    + exists (rcs1 ++ rcs2). split; [|split].
      * rewrite Hrc2, Hrc1. by rewrite <- app_assoc.
      * simpl. by rewrite map_app, Hn1, Hn2.
      * by apply Forall_app.
Qed.

(** X10: a run of the cluster assembler that succeeds keeps the global part
    of the document, the root node and every receiver and route that were
    there, and appends, for the keys whose group is found and gives a
    receiver, in the order of the keys, one receiver named after the key
    and one group node for the key. Receivers and group nodes so pair up:
    the receiver that a group node names is in the document, and it holds
    at least one channel config. *)
Theorem X10_cluster_assembler_appends_paired_receivers_and_nodes :
  forall (d : Syncer) (alerts : gmap string (list CRule))
         (notifiers : list Notifier) (keys : list string)
         (config config' : Config),
    addClusterAlert2Config d config alerts keys notifiers = Ok config' ->
    same_frame config config' /\
    exists rcs rts,
      Receivers config' = Receivers config ++ rcs /\
      Routes (cfg_Route config') = Routes (cfg_Route config) ++ rts /\
      map rc_Name rcs = List.filter (cluster_emits d notifiers) keys /\
      map Receiver rts = map rc_Name rcs /\
      rts = map (fun k => clusterGroupRoute k (default [] (alerts !! k)))
                (List.filter (cluster_emits d notifiers) keys) /\
      Forall (fun rc => (0 < n_configs rc)%nat) rcs.
Proof.
  intros d alerts notifiers keys config config' Hrun.
  destruct (addClusterAlert2Config_exact d alerts notifiers keys config
              config' Hrun) as (Hf & Hr & rcs & Hrc & Hn & Hp).
  split; [exact Hf|]. exists rcs. eexists.
  split; [exact Hrc|]. split; [exact Hr|]. split; [exact Hn|].
  split; [|done]. rewrite Hn, map_map.
  erewrite map_ext; [apply map_id|].
  intros k. simpl. apply clusterGroupRoute_head.
Qed.

(** X11: the same for the project assembler, project by project in the
    order of the project keys and, within a project, group by group in the
    order of the sorted group ids. *)
Theorem X11_project_assembler_appends_paired_receivers_and_nodes :
  forall (d : Syncer)
         (projectGroups : gmap string (gmap string (list PRule)))
         (notifiers : list Notifier) (keys : list string)
         (config config' : Config),
    addProjectAlert2Config d config projectGroups keys notifiers
    = Ok config' ->
    same_frame config config' /\
    exists rcs rts,
      Receivers config' = Receivers config ++ rcs /\
      Routes (cfg_Route config') = Routes (cfg_Route config) ++ rts /\
      map rc_Name rcs
      = flat_map (fun p => List.filter (project_emits d notifiers p)
                             (sorted_keys (default ∅ (projectGroups !! p))))
                 keys /\
      map Receiver rts = map rc_Name rcs /\
      Forall (fun rc => (0 < n_configs rc)%nat) rcs.
Proof.
  intros d projectGroups notifiers keys config config' Hrun.
  destruct (addProjectAlert2Config_exact d projectGroups notifiers keys
              config config' Hrun) as (Hf & Hr & rcs & Hrc & Hn & Hp).
  split; [exact Hf|]. exists rcs. eexists.
  split; [exact Hrc|]. split; [exact Hr|]. split; [exact Hn|].
  split; [|done]. rewrite Hn. clear.
  induction keys as [|p keys IH]; [done|]. simpl.
  rewrite map_app, IH. f_equal. rewrite map_map.
  erewrite map_ext; [apply map_id|].
  intros k. simpl. apply projectGroupRoute_head.
Qed.

(** ** Rule ids *)

(** X12: the Prometheus rule that the publisher makes for a metric rule and
    the routing node that the assembler makes for it carry the same rule
    id. The publisher builds the id from the group name of the rule and the
    assembler from the key of the partition, and the partition files every
    rule under its group name. So for every cluster rule of the listing
    that is not inactive and has a metric payload, the rule group of its
    group holds a rule made with the id that a child of its group node
    matches on. *)
Theorem X12_publisher_and_assembler_agree_on_rule_ids :
  forall (d : Syncer) (rules : list CRule) (a : CRule) (mr : MetricRule),
    a ∈ rules ->
    inactive (car_AlertState a) = false ->
    car_MetricRule a = Some mr ->
    exists l,
      let g := car_GroupName a in
      let id := GetRuleID g (car_Name a) in
      cAlertsMap_of rules !! g = Some l /\
      Metric2Rule g id (Severity (car_Common a)) (DisplayName (car_Common a))
        (clusterName d) mr ∈ rg_Rules (clusterRuleGroup d g l) /\
      id ∈ omap (fun r => Match r !! "rule_id")
                (Routes (clusterGroupRoute g l)).
Proof.
  intros d rules a mr Hin Hact Hmr.
  destruct (cAlertsMap_elem rules a Hin Hact) as (l & Hl & Hal).
  exists l. cbv zeta. split; [exact Hl|]. split.
  - rewrite clusterRuleGroup_spec. simpl. apply list_elem_of_omap.
    exists a. split; [done|]. by rewrite Hmr.
  - destruct (clusterGroupRoute_children (car_GroupName a) l) as (-> & _).
    apply list_elem_of_In, in_flat_map. exists a.
    split; [by apply list_elem_of_In|].
    unfold configsyncer.cluster_rule_ids. rewrite Hact, Hmr. simpl.
    apply in_or_app. right. by left.
Qed.

(** ** The unused helper *)

(** X13: [includeProjectMetrics] tells whether a list of project rules
    holds a rule with a metric payload, which is exactly when the rule
    group that the publisher makes from the list holds a rule. *)
Theorem X13_includeProjectMetrics_tells_nonempty_rule_group :
  forall (d : Syncer) (groupID : string) (rules : list PRule),
    includeProjectMetrics rules
    = negb (Nat.eqb (length (rg_Rules (projectRuleGroup d groupID rules))) 0).
Proof.
  intros d groupID rules. rewrite projectRuleGroup_spec. simpl.
  induction rules as [|a l IH]; [done|]. simpl.
  destruct (par_MetricRule a); simpl; [done|exact IH].
Qed.

(** ** The order of the calls of [sync] *)

Lemma secret_calls_app (t1 t2 : list (Call Rule)) :
  secret_calls (t1 ++ t2) = secret_calls t1 ++ secret_calls t2.
Proof. unfold secret_calls. apply List.filter_app. Qed.

Lemma publishes_app (t1 t2 : list (Call Rule)) :
  publishes (t1 ++ t2) = publishes t1 ++ publishes t2.
Proof. unfold publishes. apply List.filter_app. Qed.

Lemma no_secret_call_bind {A B} (m : M Rule A) (k : A -> M Rule B) :
  (exists r t, logs_only m r t /\ secret_calls t = []) ->
  (forall a, exists r t, logs_only (k a) r t /\ secret_calls t = []) ->
  exists r t, logs_only (bind m k) r t /\ secret_calls t = [].
Proof.
  intros (r & t & Hm & Ht) Hk. destruct r as [a|e|msg].
  - destruct (Hk a) as (r' & t' & Hka & Ht').
    exists r', (t ++ t'). split.
    + intros w. unfold bind. rewrite Hm, Hka. simpl. by rewrite app_assoc.
    + by rewrite secret_calls_app, Ht, Ht'.
  - exists (Err e), t. split; [|done]. intros w. unfold bind. by rewrite Hm.
  - exists (Panic msg), t. split; [|done].
    intros w. unfold bind. by rewrite Hm.
Qed.

Lemma addProjectAlert2Operator_no_secret_call (d : Syncer)
    (projectGroups : gmap string (gmap string (list PRule)))
    (keys : list string) :
  exists r t,
    logs_only (addProjectAlert2Operator d projectGroups keys) r t /\
    secret_calls t = [].
Proof.
  induction keys as [|p keys IH]; simpl.
  - eexists _, _. split; [apply logs_only_ret|done].
  - destruct (projectPromRule d projectGroups p) as [enabled promRule].
    destruct enabled; simpl; [|exact IH].
    apply no_secret_call_bind; [|intros _; exact IH].
    eexists _, _. split; [apply SyncPrometheusRule_logs|done].
Qed.

Lemma sync_document_no_secret_call (d : Syncer) (notifiers : list Notifier)
    (cAlertsMap : gmap string (list CRule))
    (pAlertsMap : gmap string (gmap string (list PRule))) :
  exists r t,
    logs_only (sync_document d notifiers cAlertsMap pAlertsMap) r t /\
    secret_calls t = [].
Proof.
  unfold configsyncer.sync_document.
  apply no_secret_call_bind; [|intros _].
  { eexists _, _. split; [apply addClusterAlert2Operator_logs|].
    by destruct (sorted_keys cAlertsMap). }
  apply no_secret_call_bind;
    [apply addProjectAlert2Operator_no_secret_call|intros _].
  apply no_secret_call_bind; [|intros c1].
  { eexists _, _. split; [apply logs_only_lift|done]. }
  apply no_secret_call_bind; [|intros c2].
  { eexists _, _. split; [apply logs_only_lift|done]. }
  eexists _, _. split; [apply logs_only_wrapf, logs_only_lift|done].
Qed.

Lemma sync_data_no_secret_call (d : Syncer) :
  exists r t, logs_only (sync_data d) r t /\ secret_calls t = [].
Proof.
  unfold configsyncer.sync_data.
  apply no_secret_call_bind; [|intros _].
  { eexists _, _. split; [apply logs_only_call|done]. }
  apply no_secret_call_bind; [|intros notifiers].
  { eexists _, _. split; [apply logs_only_wrapf, logs_only_call|done]. }
  apply no_secret_call_bind; [|intros cr].
  { eexists _, _. split; [apply logs_only_wrapf, logs_only_call|done]. }
  apply no_secret_call_bind; [|intros pr].
  { eexists _, _. split; [apply logs_only_wrapf, logs_only_call|done]. }
  apply sync_document_no_secret_call.
Qed.

(** the calls that the end of [sync] adds: the read, and then at most the
    write *)
Lemma sync_secret_calls (d : Syncer) (data : string) (w : World Rule) :
  let ns := ClusterAlertManagerInfo.2 in
  let name := GetAlertManagerSecretName ClusterAlertManagerInfo.1 in
  exists t,
    trace (sync_secret d data w).2 = trace w ++ t /\
    (t = [CallSecretGet ns name] \/
     exists s, t = [CallSecretGet ns name; CallSecretUpdate ns name s] /\
               Data_get s "alertmanager.yaml" = data /\
               Data_get s "notification.tmpl" = NotificationTmpl).
Proof.
  intros ns name. rewrite sync_secret_run. fold ns name.
  destruct (secret_Get_err (secretsGetter d) ns name);
    [eexists; split; [reflexivity|by left]|].
  destruct (secrets w !! (ns, name)) as [s|];
    [|eexists; split; [reflexivity|by left]].
  destruct (String.eqb (Data_get s "alertmanager.yaml") data);
    [eexists; split; [reflexivity|by left]|].
  destruct (Data s) as [m|]; [|eexists; split; [reflexivity|by left]].
  cbv zeta.
  exists [CallSecretGet ns name;
          CallSecretUpdate ns name
            {| Data := Some (<["notification.tmpl" := NotificationTmpl]>
                               (<["alertmanager.yaml" := data]> m)) |}].
  split.
  - destruct (secret_Update_err (secretsGetter d) ns name _);
      unfold log; cbn [snd trace]; symmetry;
      exact (app_assoc (trace w) [_] [_]).
  - right. eexists. split; [reflexivity|]. unfold Data_get. simpl. split.
    + rewrite lookup_insert_ne by discriminate. by rewrite lookup_insert_eq.
    + by rewrite lookup_insert_eq.
Qed.

(** X14: in every reconcile the calls to the secret client come last, after
    every listing and every publish of a rule artifact, and they are at
    most one read followed by at most one write; the secret that is written
    holds the serialized document under [alertmanager.yaml] and the
    notification template under [notification.tmpl]. *)
Theorem X14_sync_touches_the_secret_last_and_at_most_once :
  forall (d : Syncer) (w : World Rule),
    let ns := ClusterAlertManagerInfo.2 in
    let name := GetAlertManagerSecretName ClusterAlertManagerInfo.1 in
    exists t1 t2,
      trace (sync d w).2 = trace w ++ t1 ++ t2 /\
      secret_calls t1 = [] /\
      (t2 = [] \/ t2 = [CallSecretGet ns name] \/
       exists s, t2 = [CallSecretGet ns name; CallSecretUpdate ns name s] /\
                 Data_get s "notification.tmpl" = NotificationTmpl /\
                 (sync_data d w).1 = Ok (Data_get s "alertmanager.yaml")).
Proof.
  intros d w ns name. unfold configsyncer.sync.
  destruct (IsDeploy (alertManager d)); simpl.
  - destruct (sync_data_no_secret_call d) as (r & t & Hlogs & Hno).
    unfold bind. rewrite Hlogs.
    destruct r as [data|e|msg].
    + destruct (sync_secret_calls d data
                  {| secrets := secrets w; trace := trace w ++ t |})
        as (t2 & Ht2 & Hshape).
      simpl in Ht2.
      exists t, t2. split; [by rewrite Ht2, <- app_assoc|]. split; [done|].
      destruct Hshape as [->|(s & -> & Hd & Ht)]; [by right; left|].
      right; right. exists s. by rewrite Hd.
    + exists t, []. simpl. rewrite app_nil_r. split; [done|]. split; [done|].
      by left.
    + exists t, []. simpl. rewrite app_nil_r. split; [done|]. split; [done|].
      by left.
  - exists [], []. simpl. rewrite app_nil_r. split; [done|]. split; [done|].
    by left.
Qed.

(** X15: when building the document fails, by a listing, a publish, a group
    lookup or the serializer, the reconcile returns that very error and has
    not called the secret client: the secret store is as it was. *)
Theorem X15_failure_before_the_secret_leaves_it_untouched :
  forall (d : Syncer) (w : World Rule) (e : error),
    IsDeploy (alertManager d) = true ->
    (sync_data d w).1 = Err e ->
    (sync d w).1 = Err e /\
    secrets (sync d w).2 = secrets w /\
    exists t, trace (sync d w).2 = trace w ++ t /\ secret_calls t = [].
Proof.
  intros d w e Hdep Hfail.
  destruct (sync_data_no_secret_call d) as (r & t & Hlogs & Hno).
  assert (sync d w = (Err e, {| secrets := secrets w;
                                trace := trace w ++ t |})) as ->.
  { unfold configsyncer.sync. rewrite Hdep. simpl. unfold bind.
    rewrite Hlogs in Hfail. rewrite Hlogs. simpl in Hfail. by subst r. }
  simpl. split; [done|]. split; [done|].
  exists t. split; [reflexivity|exact Hno].
Qed.

(** ** Failing publishes *)

(** X16: when the publish of the cluster artifact fails, [sync] stops
    there: it returns the error of the publish as it is, and has published
    no project artifact, looked up no group and built no document. *)
Theorem X16_failing_cluster_publish_stops_the_reconcile :
  forall (d : Syncer) (notifiers : list Notifier)
         (cAlertsMap : gmap string (list CRule))
         (pAlertsMap : gmap string (gmap string (list PRule)))
         (w : World Rule) (e : error),
    cAlertsMap <> ∅ ->
    SyncPrometheusRule_err (operatorCRDManager d)
      (clusterPromRule d cAlertsMap (sorted_keys cAlertsMap)).2 = Some e ->
    sync_document d notifiers cAlertsMap pAlertsMap w
    = (Err e,
       log (CallSyncPrometheusRule
              (clusterPromRule d cAlertsMap (sorted_keys cAlertsMap)).2) w).
Proof.
  intros d notifiers cAlertsMap pAlertsMap w e Hne Herr.
  unfold configsyncer.sync_document, bind.
  rewrite (addClusterAlert2Operator_logs d cAlertsMap
             (sorted_keys cAlertsMap) w).
  destruct (sorted_keys cAlertsMap) as [|k keys] eqn:Hk.
  - apply sorted_keys_nil in Hk. contradiction.
  - by rewrite Herr.
Qed.

(** X17: the project publisher publishes the artifacts of the projects in
    the order of the keys and stops at the first publish that fails: it
    returns that error as it is, and the projects after it are not
    published. *)
Theorem X17_project_publisher_stops_at_the_first_failure :
  forall (d : Syncer)
         (projectGroups : gmap string (gmap string (list PRule)))
         (before after : list string) (p : string) (w : World Rule)
         (e : error),
    (forall q, q ∈ before ->
       SyncPrometheusRule_err (operatorCRDManager d)
         (projectPromRule d projectGroups q).2 = None) ->
    default ∅ (projectGroups !! p) <> ∅ ->
    SyncPrometheusRule_err (operatorCRDManager d)
      (projectPromRule d projectGroups p).2 = Some e ->
    addProjectAlert2Operator d projectGroups (before ++ p :: after) w
    = (Err e,
       {| secrets := secrets w;
          trace := trace w ++
            map (fun q => CallSyncPrometheusRule
                            (projectPromRule d projectGroups q).2)
                (filter (fun q => default ∅ (projectGroups !! q) <> ∅)
                        before)
            ++ [CallSyncPrometheusRule
                  (projectPromRule d projectGroups p).2] |}).
Proof.
  intros d projectGroups before after p w e Hok Hne Herr. revert w.
  induction before as [|q before IH]; intros w; simpl.
  - pose proof (projectPromRule_enabled d projectGroups p) as Hen.
    destruct (projectPromRule d projectGroups p) as [enabled promRule].
    simpl in *. rewrite Hen, bool_decide_eq_true_2 by done. simpl.
    unfold bind. rewrite (SyncPrometheusRule_logs d promRule w), Herr.
    reflexivity.
  - pose proof (projectPromRule_enabled d projectGroups q) as Hen.
    pose proof (Hok q (list_elem_of_here _ _)) as Hq.
    destruct (projectPromRule d projectGroups q) as [enabled promRule] eqn:Hp.
    simpl in Hen, Hq. subst enabled.
    assert (forall q', q' ∈ before ->
              SyncPrometheusRule_err (operatorCRDManager d)
                (projectPromRule d projectGroups q').2 = None) as Hok'.
    { intros q' Hq'. apply Hok. by apply list_elem_of_further. }
    destruct (decide (default ∅ (projectGroups !! q) <> ∅)) as [Hq1|Hq0].
    + rewrite bool_decide_eq_true_2 by done. simpl.
      rewrite filter_cons_True by done. simpl.
      unfold bind. rewrite (SyncPrometheusRule_logs d promRule w), Hq.
      rewrite (IH Hok'). simpl. rewrite Hp. simpl.
      by rewrite <- !app_assoc.
    + rewrite bool_decide_eq_false_2 by done. simpl.
      rewrite filter_cons_False by done. apply (IH Hok').
Qed.

(** X18: [sync] publishes the cluster artifact exactly when some cluster
    rule of the listing is not inactive, and the test of [enabled] in the
    project publisher never skips a project of the partition that [sync]
    hands it: every project of the partition has a group. *)
Theorem X18_publish_decision_in_terms_of_the_listing :
  (forall (d : Syncer) (rules : list CRule),
      (clusterPromRule d (cAlertsMap_of rules)
         (sorted_keys (cAlertsMap_of rules))).1
      = negb (forallb (fun a => inactive (car_AlertState a)) rules))
  /\
  (forall (d : Syncer) (rules : list PRule) (p : string),
      p ∈ sorted_keys (pAlertsMap_of d rules) ->
      (projectPromRule d (pAlertsMap_of d rules) p).1 = true).
Proof.
  split.
  - intros d rules. rewrite clusterPromRule_spec. simpl.
    destruct (forallb (fun a => inactive (car_AlertState a)) rules) eqn:Hall.
    + assert (cAlertsMap_of rules = ∅) as ->.
      { apply map_empty. intros g. rewrite cAlertsMap_lookup.
        rewrite forallb_forall in Hall.
        destruct (filter (in_cluster_group g) rules) as [|a l] eqn:Hf;
          [done|]. exfalso.
        assert (a ∈ filter (in_cluster_group g) rules) as Ha
          by (rewrite Hf; apply list_elem_of_here).
        apply list_elem_of_filter in Ha as [[Hact _] Ha].
        apply list_elem_of_In in Ha.
        rewrite (Hall a Ha) in Hact. discriminate. }
      unfold sorted_keys. by rewrite map_to_list_empty.
    + destruct (sorted_keys (cAlertsMap_of rules)) as [|k l] eqn:Hk; [|done].
      exfalso. apply sorted_keys_nil in Hk.
      assert (forallb (fun a => inactive (car_AlertState a)) rules = true)
        as Htrue; [|congruence].
      apply forallb_forall. intros a Ha. apply list_elem_of_In in Ha.
      destruct (inactive (car_AlertState a)) eqn:Hact; [done|].
      destruct (cAlertsMap_elem rules a Ha Hact) as (l & Hl & _).
      rewrite Hk, lookup_empty in Hl. discriminate.
  - intros d rules p Hp. rewrite projectPromRule_enabled.
    apply bool_decide_eq_true.
    apply elem_of_sorted_keys in Hp as [groups Hg]. rewrite Hg. simpl.
    by eapply pAlertsMap_groups_nonempty.
Qed.

(** ** The secret *)

(** X19: an update of the secret keeps every other key of the secret as it
    was: the secret written is the stored one with [alertmanager.yaml] set
    to the new document and [notification.tmpl] set to the template. *)
Theorem X19_update_keeps_the_other_keys_of_the_secret :
  forall (d : Syncer) (data : string) (w : World Rule) (s : Secret)
         (m : gmap string string),
    let ns := ClusterAlertManagerInfo.2 in
    let name := GetAlertManagerSecretName ClusterAlertManagerInfo.1 in
    secret_Get_err (secretsGetter d) ns name = None ->
    secrets w !! (ns, name) = Some s ->
    Data s = Some m ->
    Data_get s "alertmanager.yaml" <> data ->
    exists s',
      trace (sync_secret d data w).2
      = trace w ++ [CallSecretGet ns name; CallSecretUpdate ns name s'] /\
      Data_get s' "alertmanager.yaml" = data /\
      Data_get s' "notification.tmpl" = NotificationTmpl /\
      forall key, key <> "alertmanager.yaml" -> key <> "notification.tmpl" ->
                  Data_get s' key = Data_get s key.
Proof.
  intros d data w s m ns name Hget Hs Hm Hne.
  rewrite sync_secret_run. fold ns name. rewrite Hget, Hs, Hm.
  destruct (String.eqb_spec (Data_get s "alertmanager.yaml") data);
    [contradiction|]. cbv zeta.
  eexists. split; [|split; [|split]].
  - destruct (secret_Update_err (secretsGetter d) ns name _);
      unfold log; cbn [snd trace]; symmetry;
      exact (app_assoc (trace w) [_] [_]).
  - unfold Data_get. simpl. rewrite lookup_insert_ne by discriminate.
    by rewrite lookup_insert_eq.
  - unfold Data_get. simpl. by rewrite lookup_insert_eq.
  - intros key H1 H2. unfold Data_get. simpl. rewrite Hm. simpl.
    by rewrite !lookup_insert_ne.
Qed.

(** X20: when the stored secret has no data map (nil) and the serialized
    document is not empty, the end of [sync] reads the secret, finds the
    bytes different and fails on the assignment to the nil map: the
    reconcile panics and writes nothing. *)
Theorem X20_secret_without_data_map_makes_sync_panic :
  forall (d : Syncer) (data : string) (w : World Rule) (s : Secret),
    let ns := ClusterAlertManagerInfo.2 in
    let name := GetAlertManagerSecretName ClusterAlertManagerInfo.1 in
    secret_Get_err (secretsGetter d) ns name = None ->
    secrets w !! (ns, name) = Some s ->
    Data s = None ->
    data <> "" ->
    sync_secret d data w
    = (Panic "assignment to entry in nil map", log (CallSecretGet ns name) w).
Proof.
  intros d data w s ns name Hget Hs Hm Hne.
  rewrite sync_secret_run. fold ns name. rewrite Hget, Hs.
  unfold Data_get. rewrite Hm. simpl. rewrite lookup_empty. simpl.
  destruct data as [|c data']; [contradiction|]. reflexivity.
Qed.

(** X21: an error of the secret client comes back wrapped and is never
    followed by a write: when the read of the secret fails, with any error
    and so also when the secret does not exist, the reconcile returns that
    error wrapped in [Get secrets] after the one read, and does not create
    the secret; when the write fails, it returns that error wrapped in
    [Update secrets]. *)
Theorem X21_secret_client_errors_are_wrapped :
  forall (d : Syncer) (data : string) (w : World Rule),
    let ns := ClusterAlertManagerInfo.2 in
    let name := GetAlertManagerSecretName ClusterAlertManagerInfo.1 in
    (forall e,
        secret_Get_err (secretsGetter d) ns name = Some e ->
        sync_secret d data w
        = (Err (Wrapf e "Get secrets"), log (CallSecretGet ns name) w)) /\
    (secret_Get_err (secretsGetter d) ns name = None ->
     secrets w !! (ns, name) = None ->
     exists e,
       sync_secret d data w
       = (Err (Wrapf e "Get secrets"), log (CallSecretGet ns name) w)) /\
    (forall e s', CallSecretUpdate ns name s' ∈ trace (sync_secret d data w).2 ->
        CallSecretUpdate ns name s' ∉ trace w ->
        secret_Update_err (secretsGetter d) ns name s' = Some e ->
        (sync_secret d data w).1 = Err (Wrapf e "Update secrets")).
Proof.
  intros d data w ns name. split; [|split].
  - intros e Hget. rewrite sync_secret_run. fold ns name. by rewrite Hget.
  - intros Hget Hs. rewrite sync_secret_run. fold ns name.
    rewrite Hget, Hs. by eexists.
  - intros e s' Hin Hnew Herr. rewrite sync_secret_run in *.
    fold ns name in Hin |- *.
    assert (CallSecretUpdate ns name s' ∈ trace w ++ [CallSecretGet ns name]
            -> False) as Hno.
    { intros H. apply elem_of_app in H as [H|H]; [contradiction|].
      apply list_elem_of_singleton in H. discriminate. }
    destruct (secret_Get_err (secretsGetter d) ns name);
      [destruct (Hno Hin)|].
    destruct (secrets w !! (ns, name)) as [s|]; [|destruct (Hno Hin)].
    destruct (String.eqb (Data_get s "alertmanager.yaml") data);
      [destruct (Hno Hin)|].
    destruct (Data s) as [m|]; [|destruct (Hno Hin)].
    cbv zeta in *.
    assert (s' = {| Data := Some (<["notification.tmpl" := NotificationTmpl]>
                                    (<["alertmanager.yaml" := data]> m)) |})
      as ->.
    { destruct (secret_Update_err (secretsGetter d) ns name _);
        simpl in Hin;
        (apply elem_of_app in Hin as [Hin|Hin];
         [apply elem_of_app in Hin as [Hin|Hin];
          [contradiction|apply list_elem_of_singleton in Hin; discriminate]|]);
        apply list_elem_of_singleton in Hin; by injection Hin. }
    by rewrite Herr.
Qed.

(** ** What the output depends on *)

Lemma pAlertsMap_of_group_order (d : Syncer) (rules1 rules2 : list PRule) :
  (forall p g, filter (in_project_group d p g) rules1
               = filter (in_project_group d p g) rules2) ->
  pAlertsMap_of d rules1 = pAlertsMap_of d rules2.
Proof.
  intros Hsame.
  assert (forall (l1 l2 : list PRule) p,
             (forall g, filter (in_project_group d p g) l1
                        = filter (in_project_group d p g) l2) ->
             filter (in_project d p) l1 = [] ->
             filter (in_project d p) l2 = []) as Hproj.
  { intros l1 l2 p Hg Hnil.
    destruct (filter (in_project d p) l2) as [|a l] eqn:Hf; [done|].
    exfalso.
    assert (a ∈ filter (in_project d p) l2) as Ha
      by (rewrite Hf; apply list_elem_of_here).
    apply list_elem_of_filter in Ha as [(H1 & H2 & H3) Ha].
    assert (a ∈ filter (in_project_group d p (par_GroupName a)) l1) as Ha1.
    { rewrite Hg. apply list_elem_of_filter. by repeat split. }
    apply list_elem_of_filter in Ha1 as [_ Ha1].
    assert (a ∈ filter (in_project d p) l1) as Hin
      by (apply list_elem_of_filter; by repeat split).
    rewrite Hnil in Hin. by apply elem_of_nil in Hin. }
  apply map_eq. intros p.
  pose proof (pAlertsMap_fold_project d rules1 p ∅) as H1.
  pose proof (pAlertsMap_fold_project d rules2 p ∅) as H2.
  unfold configsyncer.pAlertsMap_of.
  destruct (foldl (pAlertsMap_add ref_Parse ObjectInCluster d) ∅ rules1 !! p)
    as [gs1|] eqn:E1;
    destruct (foldl (pAlertsMap_add ref_Parse ObjectInCluster d) ∅ rules2 !! p)
      as [gs2|] eqn:E2.
  - f_equal. apply map_eq. intros g.
    pose proof (pAlertsMap_fold_lookup d rules1 p g ∅) as L1.
    pose proof (pAlertsMap_fold_lookup d rules2 p g ∅) as L2.
    rewrite E1 in L1. rewrite E2 in L2. simpl in L1, L2.
    by rewrite L1, L2, Hsame.
  - exfalso. destruct H2 as [H2 _]. destruct (H2 eq_refl) as [_ Hnil].
    assert (filter (in_project d p) rules1 = []) as Hnil1
      by (by apply (Hproj rules2 rules1)).
    destruct H1 as [_ H1]. rewrite lookup_empty in H1.
    by specialize (H1 (conj eq_refl Hnil1)).
  - exfalso. destruct H1 as [H1 _]. destruct (H1 eq_refl) as [_ Hnil].
    assert (filter (in_project d p) rules2 = []) as Hnil2
      by (by apply (Hproj rules1 rules2)).
    destruct H2 as [_ H2]. rewrite lookup_empty in H2.
    by specialize (H2 (conj eq_refl Hnil2)).
  - done.
Qed.

(** X22: a reconcile depends on the answers of the two rule listers only
    through the rules that are not inactive, taken group by group in the
    order of the listing: two listings that give every cluster group, and
    every group of every project, the same sequence of such rules make
    [sync] do the same thing, whatever the order of the groups and of the
    inactive rules in them. Only the order of the rules inside a group is
    left to the lister. *)
Theorem X22_sync_depends_on_the_listing_group_by_group :
  forall (d : Syncer) (clusterRules1 clusterRules2 : list CRule)
         (projectRules1 projectRules2 : list PRule) (w : World Rule),
    (forall g, filter (in_cluster_group g) clusterRules1
               = filter (in_cluster_group g) clusterRules2) ->
    (forall p g, filter (in_project_group d p g) projectRules1
                 = filter (in_project_group d p g) projectRules2) ->
    sync (with_rules d (Ok clusterRules1) (Ok projectRules1)) w
    = sync (with_rules d (Ok clusterRules2) (Ok projectRules2)) w.
Proof.
  intros d cl1 cl2 pl1 pl2 w Hc Hp. unfold configsyncer.sync. simpl.
  destruct (IsDeploy (alertManager d)); [|reflexivity]. simpl.
  apply bind_ext; [|reflexivity].
  unfold configsyncer.sync_data. simpl.
  apply bind_ext; [reflexivity|intros _ w1].
  apply bind_ext; [reflexivity|intros notifiers w2].
  unfold bind, wrapf, call. simpl.
  rewrite !sync_document_with_rules, !pAlertsMap_of_with_rules.
  rewrite (cAlertsMap_of_group_order cl1 cl2 Hc).
  by rewrite (pAlertsMap_of_group_order d pl1 pl2 Hp).
Qed.

(** ** Groups that are not found, and lookups that fail *)

(** a key whose group is not found is passed over wherever it stands in
    the list of keys *)
Lemma addClusterAlert2Config_skip (d : Syncer) (config : Config)
    (alerts : gmap string (list CRule)) (before after : list string)
    (k : string) (notifiers : list Notifier) (e : error) :
  clusterAlertGroupLister d (clusterName d) (ref_Parse k).2
    = (None, Some e) ->
  IsNotFound e = true ->
  addClusterAlert2Config d config alerts (before ++ k :: after) notifiers
  = addClusterAlert2Config d config alerts (before ++ after) notifiers.
Proof.
  intros Hget Hnf. revert config.
  induction before as [|k0 before IH]; intros config; simpl.
  - rewrite Hget. unfold fatal. by rewrite Hnf.
  - destruct (clusterAlertGroupLister d (clusterName d) (ref_Parse k0).2)
      as [group err].
    destruct (fatal err); [reflexivity|].
    destruct group as [group|]; [|apply IH].
    destruct (addRecipients _ _ _ _) as [receiver ex].
    destruct ex; apply IH.
Qed.

Lemma addProjectGroups2Config_skip (d : Syncer) (config : Config)
    (projectName : string) (groups : gmap string (list PRule))
    (before after : list string) (k : string) (notifiers : list Notifier)
    (e : error) :
  projectAlertGroupLister d projectName (ref_Parse k).2 = (None, Some e) ->
  IsNotFound e = true ->
  addProjectGroups2Config d config projectName groups (before ++ k :: after)
    notifiers
  = addProjectGroups2Config d config projectName groups (before ++ after)
      notifiers.
Proof.
  intros Hget Hnf. revert config.
  induction before as [|k0 before IH]; intros config; simpl.
  - rewrite Hget. unfold fatal. by rewrite Hnf.
  - destruct (projectAlertGroupLister d projectName (ref_Parse k0).2)
      as [group err].
    destruct (fatal err); [reflexivity|].
    destruct group as [group|]; [|apply IH].
    destruct (addRecipients _ _ _ _) as [receiver ex].
    destruct ex; apply IH.
Qed.

(** what a run of the cluster assembler makes of a key: a receiver and a
    group node when the group is found and gives a receiver, nothing when
    the group is not found *)
Lemma addClusterAlert2Config_found_and_missing (d : Syncer)
    (alerts : gmap string (list CRule)) (notifiers : list Notifier)
    (keys : list string) (config config' : Config) :
  addClusterAlert2Config d config alerts keys notifiers = Ok config' ->
  (forall k, k ∈ keys -> cluster_emits d notifiers k = true ->
     (exists rc, rc ∈ Receivers config' /\ rc_Name rc = k) /\
     clusterGroupRoute k (default [] (alerts !! k))
       ∈ Routes (cfg_Route config')) /\
  (forall k,
     (clusterAlertGroupLister d (clusterName d) (ref_Parse k).2).1 = None ->
     (forall rc, rc ∈ Receivers config' -> rc_Name rc = k ->
                 rc ∈ Receivers config) /\
     (forall r, r ∈ Routes (cfg_Route config') ->
                Match r !! "group_id" = Some k ->
                r ∈ Routes (cfg_Route config))).
Proof.
  intros Hrun.
  destruct (addClusterAlert2Config_exact d alerts notifiers keys config
              config' Hrun) as (_ & Hrts & rcs & Hrcs & Hnames & _).
  split.
  - intros k Hk Hem. apply list_elem_of_In in Hk.
    assert (In k (List.filter (cluster_emits d notifiers) keys)) as Hin
      by (apply filter_In; by split).
    split.
    + rewrite <- Hnames in Hin. apply in_map_iff in Hin as (rc & Hname & Hrc).
      exists rc. split; [|exact Hname]. rewrite Hrcs.
      apply elem_of_app. right. by apply list_elem_of_In.
    + rewrite Hrts. apply elem_of_app. right. apply list_elem_of_In.
      apply in_map_iff. by exists k.
  - intros k Hnone.
    assert (cluster_emits d notifiers k = false) as Hem.
    { unfold configsyncer.cluster_emits. by rewrite Hnone. }
    split.
    + intros rc Hrc Hname. rewrite Hrcs in Hrc.
      apply elem_of_app in Hrc as [Hrc|Hrc]; [exact Hrc|]. exfalso.
      apply list_elem_of_In in Hrc.
      assert (In (rc_Name rc)
                 (List.filter (cluster_emits d notifiers) keys)) as Hin.
      { rewrite <- Hnames. apply in_map_iff. by exists rc. }
      apply filter_In in Hin as [_ Hin].
      rewrite Hname, Hem in Hin. discriminate Hin.
    + intros r Hr Hmatch. rewrite Hrts in Hr.
      apply elem_of_app in Hr as [Hr|Hr]; [exact Hr|]. exfalso.
      apply list_elem_of_In, in_map_iff in Hr as (k' & <- & Hk').
      apply filter_In in Hk' as [_ Hk'].
      destruct (clusterGroupRoute_head k' (default [] (alerts !! k')))
        as [_ Hm].
      rewrite Hm in Hmatch. simplify_map_eq. congruence.
Qed.

Lemma addProjectAlert2Config_found_and_missing (d : Syncer)
    (projectGroups : gmap string (gmap string (list PRule)))
    (notifiers : list Notifier) (keys : list string)
    (config config' : Config) :
  addProjectAlert2Config d config projectGroups keys notifiers = Ok config' ->
  (forall p k, p ∈ keys ->
     k ∈ sorted_keys (default ∅ (projectGroups !! p)) ->
     project_emits d notifiers p k = true ->
     (exists rc, rc ∈ Receivers config' /\ rc_Name rc = k) /\
     projectGroupRoute k (default [] (default ∅ (projectGroups !! p) !! k))
       ∈ Routes (cfg_Route config')) /\
  (forall k,
     (forall p, p ∈ keys ->
        (projectAlertGroupLister d p (ref_Parse k).2).1 = None) ->
     (forall rc, rc ∈ Receivers config' -> rc_Name rc = k ->
                 rc ∈ Receivers config) /\
     (forall r, r ∈ Routes (cfg_Route config') ->
                Match r !! "group_id" = Some k ->
                r ∈ Routes (cfg_Route config))).
Proof.
  intros Hrun.
  destruct (addProjectAlert2Config_exact d projectGroups notifiers keys
              config config' Hrun) as (_ & Hrts & rcs & Hrcs & Hnames & _).
  split.
  - intros p k Hp Hk Hem.
    apply list_elem_of_In in Hp. apply list_elem_of_In in Hk.
    assert (In k (List.filter (project_emits d notifiers p)
                    (sorted_keys (default ∅ (projectGroups !! p))))) as Hin
      by (apply filter_In; by split).
    split.
    + assert (In k (map rc_Name rcs)) as Hin'.
      { rewrite Hnames. apply in_flat_map. by exists p. }
      apply in_map_iff in Hin' as (rc & Hname & Hrc).
      exists rc. split; [|exact Hname]. rewrite Hrcs.
      apply elem_of_app. right. by apply list_elem_of_In.
    + rewrite Hrts. apply elem_of_app. right. apply list_elem_of_In.
      apply in_flat_map. exists p. split; [exact Hp|].
      apply in_map_iff. by exists k.
  - intros k Hnone.
    assert (forall p, In p keys -> project_emits d notifiers p k = false)
      as Hem.
    { intros p Hp. apply list_elem_of_In in Hp.
      unfold configsyncer.project_emits. by rewrite (Hnone p Hp). }
    split.
    + intros rc Hrc Hname. rewrite Hrcs in Hrc.
      apply elem_of_app in Hrc as [Hrc|Hrc]; [exact Hrc|]. exfalso.
      apply list_elem_of_In in Hrc.
      assert (In (rc_Name rc) (map rc_Name rcs)) as Hin
        by (apply in_map_iff; by exists rc).
      rewrite Hnames in Hin.
      apply in_flat_map in Hin as (p & Hp & Hin).
      apply filter_In in Hin as [_ Hin].
      rewrite Hname, (Hem p Hp) in Hin. discriminate Hin.
    + intros r Hr Hmatch. rewrite Hrts in Hr.
      apply elem_of_app in Hr as [Hr|Hr]; [exact Hr|]. exfalso.
      apply list_elem_of_In, in_flat_map in Hr as (p & Hp & Hr).
      apply in_map_iff in Hr as (k' & <- & Hk').
      apply filter_In in Hk' as [_ Hk'].
      destruct (projectGroupRoute_head k'
                  (default [] (default ∅ (projectGroups !! p) !! k')))
        as [_ Hm].
      rewrite Hm in Hmatch. simplify_map_eq.
      rewrite (Hem p Hp) in Hk'. discriminate Hk'.
Qed.

(** a reconcile whose document cannot be built ends with that error and
    the secret store as it was *)
Lemma sync_aborts (d : Syncer) (w : World Rule) (e : error) :
  IsDeploy (alertManager d) = true ->
  (sync_data d w).1 = Err e ->
  (sync d w).1 = Err e /\ secrets (sync d w).2 = secrets w.
Proof.
  intros Hdep Herr. unfold configsyncer.sync. rewrite Hdep. simpl.
  destruct (sync_data_quiet d) as (r & t & Hlogs & _).
  unfold bind. rewrite Hlogs in *. simpl in Herr. subst r. done.
Qed.

(** with the publishes succeeding, a lookup that fails with another error
    than not-found makes the document end in the error of an assembler *)
Lemma sync_data_lookup_fails (d : Syncer) (w : World Rule) endpoint notifiers
    clusterRules projectRules :
  GetAlertManagerEndpoint (alertManager d) = Ok endpoint ->
  notifierLister d = Ok notifiers ->
  clusterAlertRuleLister d = Ok clusterRules ->
  projectAlertRuleLister d = Ok projectRules ->
  (forall promRule,
      SyncPrometheusRule_err (operatorCRDManager d) promRule = None) ->
  (exists k, k ∈ sorted_keys (cAlertsMap_of clusterRules) /\
     fatal (clusterAlertGroupLister d (clusterName d) (ref_Parse k).2).2
       <> None)
  \/
  (exists p k, p ∈ sorted_keys (pAlertsMap_of d projectRules) /\
     k ∈ sorted_keys (default ∅ (pAlertsMap_of d projectRules !! p)) /\
     fatal (projectAlertGroupLister d p (ref_Parse k).2).2 <> None) ->
  (exists k e,
      k ∈ sorted_keys (cAlertsMap_of clusterRules) /\
      fatal (clusterAlertGroupLister d (clusterName d) (ref_Parse k).2).2
        = Some e /\
      (sync_data d w).1
      = Err (Errorf ("get cluster alert group " +:+ clusterName d +:+ ":"
                     +:+ (ref_Parse k).2 +:+ " failed, "
                     +:+ error_string e)))
  \/
  ((forall k, k ∈ sorted_keys (cAlertsMap_of clusterRules) ->
      fatal (clusterAlertGroupLister d (clusterName d) (ref_Parse k).2).2
      = None) /\
   exists p k e,
      p ∈ sorted_keys (pAlertsMap_of d projectRules) /\
      k ∈ sorted_keys (default ∅ (pAlertsMap_of d projectRules !! p)) /\
      fatal (projectAlertGroupLister d p (ref_Parse k).2).2 = Some e /\
      (sync_data d w).1
      = Err (Errorf ("get project alert group " +:+ p +:+ ":"
                     +:+ (ref_Parse k).2 +:+ " failed, "
                     +:+ error_string e))).
Proof.
  intros Hend Hn Hc Hp Hpub Hfatal.
  rewrite (sync_data_listed d w endpoint notifiers clusterRules projectRules
             Hend Hn Hc Hp).
  set (w0 := {| secrets := secrets w; trace := _ |}).
  unfold configsyncer.sync_document, bind.
  rewrite (addClusterAlert2Operator_logs d _ _ w0).
  assert (match sorted_keys (cAlertsMap_of clusterRules) with
          | [] => Ok tt
          | _ :: _ =>
            match SyncPrometheusRule_err (operatorCRDManager d)
                    (clusterPromRule d (cAlertsMap_of clusterRules)
                       (sorted_keys (cAlertsMap_of clusterRules))).2 with
            | Some e => Err e
            | None => Ok tt
            end
          end = Ok tt) as ->.
  { destruct (sorted_keys (cAlertsMap_of clusterRules)); [done|].
    by rewrite Hpub. }
  rewrite (addProjectAlert2Operator_trace d _ _ Hpub).
  unfold lift.
  set (config := set_PagerdutyURL _ _).
  destruct (addClusterAlert2Config_cases d config
              (cAlertsMap_of clusterRules)
              (sorted_keys (cAlertsMap_of clusterRules)) notifiers)
    as [[H1 [c1 Hc1]]|(k & e & Hk & Hf & Hrun)].
  - rewrite Hc1.
    destruct (addProjectAlert2Config_cases d c1
                (pAlertsMap_of d projectRules)
                (sorted_keys (pAlertsMap_of d projectRules)) notifiers)
      as [[H2 _]|(p & k & e & Hp' & Hk & Hf & Hrun)].
    + exfalso. destruct Hfatal as [(k & Hk & Hf)|(p & k & Hp' & Hk & Hf)].
      * by apply Hf, H1.
      * by apply Hf, H2.
    + right. split; [exact H1|]. exists p, k, e. rewrite Hrun. done.
  - left. exists k, e. rewrite Hrun. done.
Qed.

(** the publish of the cluster artifact is the first call after the
    listings, whatever the group lookups answer later *)
Lemma sync_document_publishes_cluster (d : Syncer)
    (notifiers : list Notifier) (cAlertsMap : gmap string (list CRule))
    (pAlertsMap : gmap string (gmap string (list PRule))) (w : World Rule)
    (k : string) :
  k ∈ sorted_keys cAlertsMap ->
  exists t,
    trace (sync_document d notifiers cAlertsMap pAlertsMap w).2
    = trace w
      ++ CallSyncPrometheusRule
           (clusterPromRule d cAlertsMap (sorted_keys cAlertsMap)).2 :: t.
Proof.
  intros Hk. unfold configsyncer.sync_document, bind.
  rewrite (addClusterAlert2Operator_logs d _ _ w).
  destruct (sorted_keys cAlertsMap) as [|k0 keys] eqn:Hkeys;
    [by apply elem_of_nil in Hk|].
  rewrite <- Hkeys.
  destruct (SyncPrometheusRule_err _ _); [by exists []|].
  destruct (addProjectAlert2Operator_quiet d pAlertsMap
              (sorted_keys pAlertsMap)) as (r & t & Hlogs & _).
  rewrite Hlogs. simpl.
  exists t. rewrite <- app_assoc. simpl.
  destruct r as [[]|e|msg]; [|reflexivity..].
  unfold lift, wrapf.
  destruct (addClusterAlert2Config _ _ _ _ _); [|reflexivity..].
  destruct (addProjectAlert2Config _ _ _ _ _); [|reflexivity..].
  by destruct (yaml_Marshal _).
Qed.

(** the trace of a reconcile that got its listings *)
Lemma sync_trace_listed (d : Syncer) (w : World Rule) endpoint notifiers
    clusterRules projectRules :
  IsDeploy (alertManager d) = true ->
  GetAlertManagerEndpoint (alertManager d) = Ok endpoint ->
  notifierLister d = Ok notifiers ->
  clusterAlertRuleLister d = Ok clusterRules ->
  projectAlertRuleLister d = Ok projectRules ->
  exists w0 t,
    trace w0 = trace w ++ [CallGetAlertManagerEndpoint; CallListNotifiers;
                           CallListClusterAlertRules;
                           CallListProjectAlertRules] /\
    trace (sync d w).2
    = trace (sync_document d notifiers (cAlertsMap_of clusterRules)
               (pAlertsMap_of d projectRules) w0).2 ++ t.
Proof.
  intros Hdep Hend Hn Hc Hp. unfold configsyncer.sync. rewrite Hdep. simpl.
  unfold bind at 1.
  rewrite (sync_data_listed d w endpoint notifiers clusterRules projectRules
             Hend Hn Hc Hp).
  set (w0 := {| secrets := secrets w; trace := _ |}).
  exists w0.
  destruct (sync_document d notifiers _ _ w0) as [[data|e|msg] w1];
    [|exists []; split; [reflexivity|by rewrite app_nil_r]..].
  destruct (sync_secret_calls d data w1) as (t & Ht & _).
  exists t. split; [reflexivity|exact Ht].
Qed.

(** every metric rule of the cluster listing that is not inactive is in
    the artifact that the reconcile publishes, whether its group is found
    or not: the publisher looks no group up *)
Lemma sync_publishes_cluster_rule (d : Syncer) (w : World Rule) endpoint
    notifiers clusterRules projectRules (a : CRule) (mr : MetricRule) :
  IsDeploy (alertManager d) = true ->
  GetAlertManagerEndpoint (alertManager d) = Ok endpoint ->
  notifierLister d = Ok notifiers ->
  clusterAlertRuleLister d = Ok clusterRules ->
  projectAlertRuleLister d = Ok projectRules ->
  a ∈ clusterRules ->
  inactive (car_AlertState a) = false ->
  car_MetricRule a = Some mr ->
  exists t promRule rg,
    trace (sync d w).2 = trace w ++ t /\
    CallSyncPrometheusRule promRule ∈ t /\
    rg ∈ pr_Groups promRule /\
    rg_Name rg = car_GroupName a /\
    Metric2Rule (car_GroupName a) (GetRuleID (car_GroupName a) (car_Name a))
      (Severity (car_Common a)) (DisplayName (car_Common a))
      (clusterName d) mr ∈ rg_Rules rg.
Proof.
  intros Hdep Hend Hn Hc Hp Ha Hact Hmr.
  destruct (cAlertsMap_elem clusterRules a Ha Hact) as (l & Hl & Hal).
  assert (car_GroupName a ∈ sorted_keys (cAlertsMap_of clusterRules)) as Hk
    by (apply elem_of_sorted_keys; by eexists).
  destruct (metric_rule_in_clusterPromRule d (cAlertsMap_of clusterRules)
              (sorted_keys (cAlertsMap_of clusterRules)) (car_GroupName a)
              l a mr Hk Hl Hal Hmr) as (rg & Hrg & Hname & Hrule).
  destruct (sync_trace_listed d w endpoint notifiers clusterRules
              projectRules Hdep Hend Hn Hc Hp) as (w0 & t2 & Hw0 & Ht).
  destruct (sync_document_publishes_cluster d notifiers
              (cAlertsMap_of clusterRules) (pAlertsMap_of d projectRules)
              w0 (car_GroupName a) Hk) as (t1 & Ht1).
  eexists _, _, rg. split; [|split; [|split; [exact Hrg|by split]]].
  - rewrite Ht, Ht1, Hw0. rewrite <- !app_assoc. reflexivity.
  - simpl. do 4 apply list_elem_of_further. apply list_elem_of_here.
Qed.

(** a project rule of the listing that belongs to the cluster and is not
    inactive is filed under its project and its group *)
Lemma pAlertsMap_elem (d : Syncer) (rules : list PRule) (a : PRule) :
  a ∈ rules ->
  ObjectInCluster (clusterName d) a = true ->
  inactive (par_AlertState a) = false ->
  exists groups l,
    pAlertsMap_of d rules !! (ref_Parse (par_ProjectName a)).2 = Some groups /\
    groups !! par_GroupName a = Some l /\ a ∈ l.
Proof.
  intros Ha Hin Hact.
  set (p := (ref_Parse (par_ProjectName a)).2).
  set (g := par_GroupName a).
  pose proof (pAlertsMap_fold_lookup d rules p g ∅) as Hl.
  assert (a ∈ filter (in_project_group d p g) rules) as Hf.
  { apply list_elem_of_filter. split; [|exact Ha]. by repeat split. }
  destruct (filter (in_project_group d p g) rules) as [|b l] eqn:Hfl;
    [by apply elem_of_nil in Hf|].
  rewrite lookup_empty in Hl. simpl in Hl. rewrite lookup_empty in Hl.
  simpl in Hl. unfold configsyncer.pAlertsMap_of.
  destruct (foldl (pAlertsMap_add ref_Parse ObjectInCluster d) ∅ rules !! p)
    as [groups|]; simpl in Hl; [|by rewrite lookup_empty in Hl].
  exists groups, (b :: l). done.
Qed.

(** with the publishes succeeding, the artifact of every project of the
    partition is published *)
Lemma sync_document_publishes_project (d : Syncer)
    (notifiers : list Notifier) (cAlertsMap : gmap string (list CRule))
    (pAlertsMap : gmap string (gmap string (list PRule))) (w : World Rule)
    (p : string) :
  (forall promRule,
      SyncPrometheusRule_err (operatorCRDManager d) promRule = None) ->
  p ∈ sorted_keys pAlertsMap ->
  default ∅ (pAlertsMap !! p) <> ∅ ->
  exists t,
    trace (sync_document d notifiers cAlertsMap pAlertsMap w).2
    = trace w ++ t /\
    CallSyncPrometheusRule (projectPromRule d pAlertsMap p).2 ∈ t.
Proof.
  intros Hpub Hp Hne. unfold configsyncer.sync_document, bind.
  rewrite (addClusterAlert2Operator_logs d _ _ w).
  set (t1 := match sorted_keys cAlertsMap with
             | [] => []
             | _ :: _ =>
               [CallSyncPrometheusRule
                  (clusterPromRule d cAlertsMap (sorted_keys cAlertsMap)).2]
             end).
  assert (match sorted_keys cAlertsMap with
          | [] => Ok tt
          | _ :: _ =>
            match SyncPrometheusRule_err (operatorCRDManager d)
                    (clusterPromRule d cAlertsMap
                       (sorted_keys cAlertsMap)).2 with
            | Some e => Err e
            | None => Ok tt
            end
          end = Ok tt) as ->.
  { destruct (sorted_keys cAlertsMap); [done|]. by rewrite Hpub. }
  rewrite (addProjectAlert2Operator_trace d _ _ Hpub).
  set (t2 := map _ _).
  exists (t1 ++ t2). split.
  - unfold lift, wrapf. simpl. rewrite <- app_assoc.
    destruct (addClusterAlert2Config _ _ _ _ _); [|reflexivity..].
    destruct (addProjectAlert2Config _ _ _ _ _); [|reflexivity..].
    by destruct (yaml_Marshal _).
  - apply elem_of_app. right. subst t2. apply list_elem_of_In.
    apply in_map_iff. exists p. split; [reflexivity|].
    apply list_elem_of_In, list_elem_of_filter. by split.
Qed.

(** with the publishes succeeding, every metric rule of the project
    listing that belongs to the cluster and is not inactive is in the
    artifact published for its project, whether its group is found or
    not *)
Lemma sync_publishes_project_rule (d : Syncer) (w : World Rule) endpoint
    notifiers clusterRules projectRules (a : PRule) (mr : MetricRule) :
  IsDeploy (alertManager d) = true ->
  GetAlertManagerEndpoint (alertManager d) = Ok endpoint ->
  notifierLister d = Ok notifiers ->
  clusterAlertRuleLister d = Ok clusterRules ->
  projectAlertRuleLister d = Ok projectRules ->
  (forall promRule,
      SyncPrometheusRule_err (operatorCRDManager d) promRule = None) ->
  a ∈ projectRules ->
  ObjectInCluster (clusterName d) a = true ->
  inactive (par_AlertState a) = false ->
  par_MetricRule a = Some mr ->
  exists t promRule rg,
    trace (sync d w).2 = trace w ++ t /\
    CallSyncPrometheusRule promRule ∈ t /\
    rg ∈ pr_Groups promRule /\
    rg_Name rg = par_GroupName a /\
    Metric2Rule (par_GroupName a) (GetRuleID (par_GroupName a) (par_Name a))
      (Severity (par_Common a)) (DisplayName (par_Common a))
      (clusterName d) mr ∈ rg_Rules rg.
Proof.
  intros Hdep Hend Hn Hc Hp Hpub Ha Hin Hact Hmr.
  destruct (pAlertsMap_elem d projectRules a Ha Hin Hact)
    as (groups & l & Hg & Hl & Hal).
  set (p := (ref_Parse (par_ProjectName a)).2) in *.
  assert (p ∈ sorted_keys (pAlertsMap_of d projectRules)) as Hk
    by (apply elem_of_sorted_keys; by eexists).
  assert (default ∅ (pAlertsMap_of d projectRules !! p) <> ∅) as Hne.
  { rewrite Hg. simpl. intros H. rewrite H in Hl.
    by rewrite lookup_empty in Hl. }
  destruct (metric_rule_in_projectPromRule d (pAlertsMap_of d projectRules)
              p groups (par_GroupName a) l a mr Hg Hl Hal Hmr)
    as (rg & Hrg & Hname & Hrule).
  destruct (sync_trace_listed d w endpoint notifiers clusterRules
              projectRules Hdep Hend Hn Hc Hp) as (w0 & t2 & Hw0 & Ht).
  destruct (sync_document_publishes_project d notifiers
              (cAlertsMap_of clusterRules) (pAlertsMap_of d projectRules)
              w0 p Hpub Hk Hne) as (t1 & Ht1 & Hin1).
  eexists _, _, rg. split; [|split; [|split; [exact Hrg|by split]]].
  - rewrite Ht, Ht1, Hw0. rewrite <- !app_assoc. reflexivity.
  - apply elem_of_app. right. apply elem_of_app. left. exact Hin1.
Qed.

(** C8 (as amended): a group whose lookup answers not-found is skipped by
    the Config Assembler and by nothing else. The assembler makes no
    receiver and no routing node for it and goes on: the run is the run
    over the keys without that group, wherever the key stands, and the
    groups that are found and give a receiver get their receiver and their
    group node; the reconcile returns success when nothing else fails. The
    Metric Rule Publisher looks no group up, so the metric rules of the
    group are published all the same. A listing that fails ends the
    reconcile with its error wrapped; a group lookup that fails with
    another error than not-found, for a group of the partition, ends the
    reconcile with an error and the secret store as it was, and when the
    publishes succeed that error is the one the assembler makes from the
    failure: its message names the group and carries the message of the
    cause.

    The parts, in this order: the skip in the cluster and in the project
    scope; what a successful run of the cluster and of the project
    assembler holds for the keys that give a receiver and for the groups
    that are not found; the success of the reconcile; the publish of the
    metric rules of the cluster and of the project listing; the three
    listings; the lookup failure in the cluster and in the project
    assembler; the lookup failure in the reconcile, in either scope and
    whatever the publishes do; the lookup failure in the reconcile when the
    publishes succeed, in the cluster scope and, when no cluster lookup
    fails, in the project scope. *)
Theorem C8_not_found_skipped_other_failures_abort :
  (forall (d : Syncer) (config : Config) (alerts : gmap string (list CRule))
          (before after : list string) (k : string)
          (notifiers : list Notifier) (e : error),
      clusterAlertGroupLister d (clusterName d) (ref_Parse k).2
        = (None, Some e) ->
      IsNotFound e = true ->
      addClusterAlert2Config d config alerts (before ++ k :: after) notifiers
      = addClusterAlert2Config d config alerts (before ++ after) notifiers)
  /\
  (forall (d : Syncer) (config : Config) (projectName : string)
          (groups : gmap string (list PRule)) (before after : list string)
          (k : string) (notifiers : list Notifier) (e : error),
      projectAlertGroupLister d projectName (ref_Parse k).2
        = (None, Some e) ->
      IsNotFound e = true ->
      addProjectGroups2Config d config projectName groups
        (before ++ k :: after) notifiers
      = addProjectGroups2Config d config projectName groups
          (before ++ after) notifiers)
  /\
  (forall (d : Syncer) (alerts : gmap string (list CRule))
          (notifiers : list Notifier) (keys : list string)
          (config config' : Config),
      addClusterAlert2Config d config alerts keys notifiers = Ok config' ->
      (forall k, k ∈ keys -> cluster_emits d notifiers k = true ->
         (exists rc, rc ∈ Receivers config' /\ rc_Name rc = k) /\
         clusterGroupRoute k (default [] (alerts !! k))
           ∈ Routes (cfg_Route config')) /\
      (forall k,
         (clusterAlertGroupLister d (clusterName d) (ref_Parse k).2).1
           = None ->
         (forall rc, rc ∈ Receivers config' -> rc_Name rc = k ->
                     rc ∈ Receivers config) /\
         (forall r, r ∈ Routes (cfg_Route config') ->
                    Match r !! "group_id" = Some k ->
                    r ∈ Routes (cfg_Route config))))
  /\
  (forall (d : Syncer)
          (projectGroups : gmap string (gmap string (list PRule)))
          (notifiers : list Notifier) (keys : list string)
          (config config' : Config),
      addProjectAlert2Config d config projectGroups keys notifiers
      = Ok config' ->
      (forall p k, p ∈ keys ->
         k ∈ sorted_keys (default ∅ (projectGroups !! p)) ->
         project_emits d notifiers p k = true ->
         (exists rc, rc ∈ Receivers config' /\ rc_Name rc = k) /\
         projectGroupRoute k
           (default [] (default ∅ (projectGroups !! p) !! k))
           ∈ Routes (cfg_Route config')) /\
      (forall k,
         (forall p, p ∈ keys ->
            (projectAlertGroupLister d p (ref_Parse k).2).1 = None) ->
         (forall rc, rc ∈ Receivers config' -> rc_Name rc = k ->
                     rc ∈ Receivers config) /\
         (forall r, r ∈ Routes (cfg_Route config') ->
                    Match r !! "group_id" = Some k ->
                    r ∈ Routes (cfg_Route config))))
  /\
  (forall (d : Syncer) (w : World Rule) endpoint notifiers clusterRules
          projectRules (s : Secret) (m : gmap string string),
      let ns := ClusterAlertManagerInfo.2 in
      let name := GetAlertManagerSecretName ClusterAlertManagerInfo.1 in
      GetAlertManagerEndpoint (alertManager d) = Ok endpoint ->
      notifierLister d = Ok notifiers ->
      clusterAlertRuleLister d = Ok clusterRules ->
      projectAlertRuleLister d = Ok projectRules ->
      (forall promRule,
          SyncPrometheusRule_err (operatorCRDManager d) promRule = None) ->
      (forall k e, k ∈ sorted_keys (cAlertsMap_of clusterRules) ->
          (clusterAlertGroupLister d (clusterName d) (ref_Parse k).2).2
            = Some e ->
          IsNotFound e = true) ->
      (forall p k e, p ∈ sorted_keys (pAlertsMap_of d projectRules) ->
          k ∈ sorted_keys (default ∅ (pAlertsMap_of d projectRules !! p)) ->
          (projectAlertGroupLister d p (ref_Parse k).2).2 = Some e ->
          IsNotFound e = true) ->
      (forall config, exists data, yaml_Marshal config = Ok data) ->
      secret_Get_err (secretsGetter d) ns name = None ->
      secrets w !! (ns, name) = Some s ->
      Data s = Some m ->
      (forall s', secret_Update_err (secretsGetter d) ns name s' = None) ->
      (sync d w).1 = Ok tt)
  /\
  (forall (d : Syncer) (w : World Rule) endpoint notifiers clusterRules
          projectRules (a : CRule) (mr : MetricRule),
      IsDeploy (alertManager d) = true ->
      GetAlertManagerEndpoint (alertManager d) = Ok endpoint ->
      notifierLister d = Ok notifiers ->
      clusterAlertRuleLister d = Ok clusterRules ->
      projectAlertRuleLister d = Ok projectRules ->
      a ∈ clusterRules ->
      inactive (car_AlertState a) = false ->
      car_MetricRule a = Some mr ->
      exists t promRule rg,
        trace (sync d w).2 = trace w ++ t /\
        CallSyncPrometheusRule promRule ∈ t /\
        rg ∈ pr_Groups promRule /\
        rg_Name rg = car_GroupName a /\
        Metric2Rule (car_GroupName a)
          (GetRuleID (car_GroupName a) (car_Name a))
          (Severity (car_Common a)) (DisplayName (car_Common a))
          (clusterName d) mr ∈ rg_Rules rg)
  /\
  (forall (d : Syncer) (w : World Rule) endpoint notifiers clusterRules
          projectRules (a : PRule) (mr : MetricRule),
      IsDeploy (alertManager d) = true ->
      GetAlertManagerEndpoint (alertManager d) = Ok endpoint ->
      notifierLister d = Ok notifiers ->
      clusterAlertRuleLister d = Ok clusterRules ->
      projectAlertRuleLister d = Ok projectRules ->
      (forall promRule,
          SyncPrometheusRule_err (operatorCRDManager d) promRule = None) ->
      a ∈ projectRules ->
      ObjectInCluster (clusterName d) a = true ->
      inactive (par_AlertState a) = false ->
      par_MetricRule a = Some mr ->
      exists t promRule rg,
        trace (sync d w).2 = trace w ++ t /\
        CallSyncPrometheusRule promRule ∈ t /\
        rg ∈ pr_Groups promRule /\
        rg_Name rg = par_GroupName a /\
        Metric2Rule (par_GroupName a)
          (GetRuleID (par_GroupName a) (par_Name a))
          (Severity (par_Common a)) (DisplayName (par_Common a))
          (clusterName d) mr ∈ rg_Rules rg)
  /\
  (forall (d : Syncer) (w : World Rule) (e : error) endpoint,
      IsDeploy (alertManager d) = true ->
      GetAlertManagerEndpoint (alertManager d) = Ok endpoint ->
      notifierLister d = Err e ->
      (sync d w).1 = Err (Wrapf e "List notifiers"))
  /\
  (forall (d : Syncer) (w : World Rule) (e : error) endpoint notifiers,
      IsDeploy (alertManager d) = true ->
      GetAlertManagerEndpoint (alertManager d) = Ok endpoint ->
      notifierLister d = Ok notifiers ->
      clusterAlertRuleLister d = Err e ->
      (sync d w).1 = Err (Wrapf e "List cluster alert rules"))
  /\
  (forall (d : Syncer) (w : World Rule) (e : error) endpoint notifiers
          clusterRules,
      IsDeploy (alertManager d) = true ->
      GetAlertManagerEndpoint (alertManager d) = Ok endpoint ->
      notifierLister d = Ok notifiers ->
      clusterAlertRuleLister d = Ok clusterRules ->
      projectAlertRuleLister d = Err e ->
      (sync d w).1 = Err (Wrapf e "List project alert rules"))
  /\
  (forall (d : Syncer) (config : Config) (alerts : gmap string (list CRule))
          (keys : list string) (notifiers : list Notifier) (k : string)
          (e : error),
      k ∈ keys ->
      (clusterAlertGroupLister d (clusterName d) (ref_Parse k).2).2 = Some e ->
      IsNotFound e = false ->
      exists k' e',
        k' ∈ keys /\
        (clusterAlertGroupLister d (clusterName d) (ref_Parse k').2).2
          = Some e' /\
        IsNotFound e' = false /\
        addClusterAlert2Config d config alerts keys notifiers
        = Err (Errorf ("get cluster alert group " +:+ clusterName d +:+ ":"
                       +:+ (ref_Parse k').2 +:+ " failed, "
                       +:+ error_string e')))
  /\
  (forall (d : Syncer) (config : Config)
          (projectGroups : gmap string (gmap string (list PRule)))
          (keys : list string) (notifiers : list Notifier) (p k : string)
          (e : error),
      p ∈ keys -> k ∈ sorted_keys (default ∅ (projectGroups !! p)) ->
      (projectAlertGroupLister d p (ref_Parse k).2).2 = Some e ->
      IsNotFound e = false ->
      exists p' k' e',
        p' ∈ keys /\ k' ∈ sorted_keys (default ∅ (projectGroups !! p')) /\
        (projectAlertGroupLister d p' (ref_Parse k').2).2 = Some e' /\
        IsNotFound e' = false /\
        addProjectAlert2Config d config projectGroups keys notifiers
        = Err (Errorf ("get project alert group " +:+ p' +:+ ":"
                       +:+ (ref_Parse k').2 +:+ " failed, "
                       +:+ error_string e')))
  /\
  (forall (d : Syncer) (w : World Rule) endpoint notifiers clusterRules
          projectRules,
      IsDeploy (alertManager d) = true ->
      GetAlertManagerEndpoint (alertManager d) = Ok endpoint ->
      notifierLister d = Ok notifiers ->
      clusterAlertRuleLister d = Ok clusterRules ->
      projectAlertRuleLister d = Ok projectRules ->
      (exists k e,
          k ∈ sorted_keys (cAlertsMap_of clusterRules) /\
          (clusterAlertGroupLister d (clusterName d) (ref_Parse k).2).2
            = Some e /\
          IsNotFound e = false)
      \/
      (exists p k e,
          p ∈ sorted_keys (pAlertsMap_of d projectRules) /\
          k ∈ sorted_keys (default ∅ (pAlertsMap_of d projectRules !! p)) /\
          (projectAlertGroupLister d p (ref_Parse k).2).2 = Some e /\
          IsNotFound e = false) ->
      (exists e', (sync d w).1 = Err e') /\
      secrets (sync d w).2 = secrets w)
  /\
  (forall (d : Syncer) (w : World Rule) endpoint notifiers clusterRules
          projectRules (k : string) (e : error),
      IsDeploy (alertManager d) = true ->
      GetAlertManagerEndpoint (alertManager d) = Ok endpoint ->
      notifierLister d = Ok notifiers ->
      clusterAlertRuleLister d = Ok clusterRules ->
      projectAlertRuleLister d = Ok projectRules ->
      (forall promRule,
          SyncPrometheusRule_err (operatorCRDManager d) promRule = None) ->
      k ∈ sorted_keys (cAlertsMap_of clusterRules) ->
      (clusterAlertGroupLister d (clusterName d) (ref_Parse k).2).2 = Some e ->
      IsNotFound e = false ->
      exists k' e',
        k' ∈ sorted_keys (cAlertsMap_of clusterRules) /\
        (clusterAlertGroupLister d (clusterName d) (ref_Parse k').2).2
          = Some e' /\
        IsNotFound e' = false /\
        (sync d w).1
        = Err (Errorf ("get cluster alert group " +:+ clusterName d +:+ ":"
                       +:+ (ref_Parse k').2 +:+ " failed, "
                       +:+ error_string e')))
  /\
  (forall (d : Syncer) (w : World Rule) endpoint notifiers clusterRules
          projectRules (p k : string) (e : error),
      IsDeploy (alertManager d) = true ->
      GetAlertManagerEndpoint (alertManager d) = Ok endpoint ->
      notifierLister d = Ok notifiers ->
      clusterAlertRuleLister d = Ok clusterRules ->
      projectAlertRuleLister d = Ok projectRules ->
      (forall promRule,
          SyncPrometheusRule_err (operatorCRDManager d) promRule = None) ->
      (forall k' e', k' ∈ sorted_keys (cAlertsMap_of clusterRules) ->
          (clusterAlertGroupLister d (clusterName d) (ref_Parse k').2).2
            = Some e' ->
          IsNotFound e' = true) ->
      p ∈ sorted_keys (pAlertsMap_of d projectRules) ->
      k ∈ sorted_keys (default ∅ (pAlertsMap_of d projectRules !! p)) ->
      (projectAlertGroupLister d p (ref_Parse k).2).2 = Some e ->
      IsNotFound e = false ->
      exists p' k' e',
        p' ∈ sorted_keys (pAlertsMap_of d projectRules) /\
        k' ∈ sorted_keys (default ∅ (pAlertsMap_of d projectRules !! p')) /\
        (projectAlertGroupLister d p' (ref_Parse k').2).2 = Some e' /\
        IsNotFound e' = false /\
        (sync d w).1
        = Err (Errorf ("get project alert group " +:+ p' +:+ ":"
                       +:+ (ref_Parse k').2 +:+ " failed, "
                       +:+ error_string e'))).
Proof.
  assert (forall err e, fatal err = Some e <->
                        err = Some e /\ IsNotFound e = false) as Hfatal.
  { intros [e0|] e; unfold fatal; [|split; [done|by intros [? _]]].
    destruct (IsNotFound e0) eqn:Hnf; simpl; split.
    - done.
    - intros [[= ->] H]. congruence.
    - intros [= ->]. done.
    - by intros [-> _]. }
  assert (forall err e, err = Some e -> IsNotFound e = false ->
                        fatal err <> None) as Hsome.
  { intros err e -> Hnf. unfold fatal. by rewrite Hnf. }
  split; [|split; [|split; [|split; [|split; [|split; [|split; [|split;
    [|split; [|split; [|split; [|split; [|split; [|split]]]]]]]]]]]]].
  - intros d config alerts before after k notifiers e.
    apply addClusterAlert2Config_skip.
  - intros d config projectName groups before after k notifiers e.
    apply addProjectGroups2Config_skip.
  - intros d alerts notifiers keys config config'.
    apply addClusterAlert2Config_found_and_missing.
  - intros d projectGroups notifiers keys config config'.
    apply addProjectAlert2Config_found_and_missing.
  - intros d w endpoint notifiers clusterRules projectRules s m ns name
           Hend Hn Hc Hp Hpub Hcl Hpl Hm Hget Hs Hdata Hupd.
    apply (sync_succeeds d w endpoint notifiers clusterRules projectRules
             s m Hend Hn Hc Hp Hpub); try done.
    + intros k Hk. apply fatal_None_iff. intros e. by apply Hcl.
    + intros p k Hp' Hk. apply fatal_None_iff. intros e. by apply Hpl.
  - intros d w endpoint notifiers clusterRules projectRules a mr.
    apply sync_publishes_cluster_rule.
  - intros d w endpoint notifiers clusterRules projectRules a mr.
    apply sync_publishes_project_rule.
  - intros d w e endpoint Hdep Hend Hlist.
    by rewrite (sync_list_notifiers_fails d w e endpoint).
  - intros d w e endpoint notifiers Hdep Hend Hn Hlist.
    by rewrite (sync_list_cluster_rules_fails d w e endpoint notifiers).
  - intros d w e endpoint notifiers clusterRules Hdep Hend Hn Hc Hlist.
    by rewrite (sync_list_project_rules_fails d w e endpoint notifiers
                  clusterRules).
  - intros d config alerts keys notifiers k e Hk Herr Hnf.
    destruct (addClusterAlert2Config_cases d config alerts keys notifiers)
      as [[H1 _]|(k' & e' & H1 & H2 & H3)].
    + destruct (Hsome _ e Herr Hnf). by apply H1.
    + exists k', e'. apply Hfatal in H2 as [H2 H2']. done.
  - intros d config projectGroups keys notifiers p k e Hp Hk Herr Hnf.
    destruct (addProjectAlert2Config_cases d config projectGroups keys
                notifiers)
      as [[H1 _]|(p' & k' & e' & H1 & H2 & H3 & H4)].
    + destruct (Hsome _ e Herr Hnf). by apply H1.
    + exists p', k', e'. apply Hfatal in H3 as [H3 H3']. done.
  - intros d w endpoint notifiers clusterRules projectRules
           Hdep Hend Hn Hc Hp Hfail.
    assert (exists e', (sync_data d w).1 = Err e') as [e' He'].
    { rewrite (sync_data_listed d w endpoint notifiers clusterRules
                 projectRules Hend Hn Hc Hp).
      apply sync_document_lookup_fails.
      destruct Hfail as [(k & e & Hk & Herr & Hnf)
                        |(p & k & e & Hp' & Hk & Herr & Hnf)].
      - left. exists k. split; [exact Hk|]. by apply (Hsome _ e).
      - right. exists p, k. split; [exact Hp'|]. split; [exact Hk|].
        by apply (Hsome _ e). }
    destruct (sync_aborts d w e' Hdep He') as [H1 H2].
    split; [by exists e'|exact H2].
  - intros d w endpoint notifiers clusterRules projectRules k e
           Hdep Hend Hn Hc Hp Hpub Hk Herr Hnf.
    destruct (sync_data_lookup_fails d w endpoint notifiers clusterRules
                projectRules Hend Hn Hc Hp Hpub)
      as [(k' & e' & Hk' & Hf & Hrun)
         |(H1 & p' & k' & e' & Hp' & Hk' & Hf & Hrun)].
    + left. exists k. split; [exact Hk|]. by apply (Hsome _ e).
    + exists k', e'. apply Hfatal in Hf as [Hf Hf'].
      destruct (sync_aborts d w _ Hdep Hrun) as [H1 _]. done.
    + destruct (Hsome _ e Herr Hnf). by apply H1.
  - intros d w endpoint notifiers clusterRules projectRules p k e
           Hdep Hend Hn Hc Hp Hpub Hcl Hp' Hk Herr Hnf.
    destruct (sync_data_lookup_fails d w endpoint notifiers clusterRules
                projectRules Hend Hn Hc Hp Hpub)
      as [(k' & e' & Hk' & Hf & Hrun)
         |(_ & p' & k' & e' & Hp'' & Hk' & Hf & Hrun)].
    + right. exists p, k. split; [exact Hp'|]. split; [exact Hk|].
      by apply (Hsome _ e).
    + exfalso. apply Hfatal in Hf as [Hf Hf'].
      rewrite (Hcl k' e' Hk' Hf) in Hf'. discriminate Hf'.
    + exists p', k', e'. apply Hfatal in Hf as [Hf Hf'].
      destruct (sync_aborts d w _ Hdep Hrun) as [H1 _]. done.
Qed.

End Properties.

(** * The syncer on examples *)

Section Examples.

Import Fixture.

Example Itoa_decimal : Itoa 587 = "587" /\ Itoa 0 = "0" /\ Itoa (-25) = "-25".
Proof. repeat split. Qed.

Example sort_Strings_bytewise :
  sort_Strings ["c1:g2"; "c1:g10"; "c1:G1"; "c1:g1"]
  = ["c1:G1"; "c1:g1"; "c1:g10"; "c1:g2"].
Proof. reflexivity. Qed.

Example seconds_wraps :
  seconds 10 = 10000000000 /\ seconds 9223372037 = -9223372036709551616.
Proof. split; reflexivity. Qed.

Example ref_Parse_splits :
  ref_Parse "c1:g1" = ("c1", "g1") /\ ref_Parse "g1" = ("", "g1") /\
  ref_Parse "a:b:c" = ("a", "b:c").
Proof. repeat split. Qed.

(** C1 (the code at the failing input): one active event rule [r1] in the
    cluster group [c1:g1], whose recipient resolves to a slack notifier.
    The routing tree is the root, the group node and the node of the
    event rule; each line gives the depth, the matchers and the group
    wait, group interval and repeat interval. The node of the event rule
    has no group interval and a repeat interval of one second: the call
    in [addClusterAlert2Config] passes the default repeat interval where
    [newRoute] takes the group interval, and the event interval where it
    takes the repeat interval. *)
Theorem C1_event_node_gets_repeat_interval_of_one_second :
  let rules := [event_rule "r1" "active" "c1:g1"] in
  describe_result
    (addClusterAlert2Config (syncer "c1:n1" rules [])
       GetAlertManagerDefaultConfig (cAlertsMap_of rules)
       (sorted_keys (cAlertsMap_of rules)) [slack_notifier "n1"])
  = Some [(0%nat, "",
           (Some (seconds 180), Some (seconds 180), Some (seconds 3600)));
          (1%nat, "group_id=c1:g1;",
           (Some (seconds 10), None, Some (seconds 10)));
          (2%nat, "alert_type=event;rule_id=c1:g1_r1;",
           (Some (seconds 10), None, Some (seconds 1)))].
Proof. vm_compute. reflexivity. Qed.

(** C2, witness: a cluster metric rule with the timing 30/10/3600 and a
    project pod rule with the timing 5/60/7. *)
Lemma C2_rule_node_witness :
  (let alert := metric_rule "r1" "active" "c1:g1" (timing 30 10 3600) in
   let r1 := newRoute {[ "group_id" := "c1:g1" ]} 10 10 10 in
   exists r2,
     Routes (clusterRuleRoute "c1:g1" r1 alert) = Routes r1 ++ [r2] /\
     Match r2 = {[ "rule_id" := "c1:g1_r1" ]} /\
     GroupWait r2 = Some (seconds 30) /\
     RepeatInterval r2 = Some (seconds 3600) /\
     GroupInterval r2 = None)
  /\
  (let alert := pod_rule "r2" "active" "c1:p1" "p1:pg1" (timing 5 60 7) in
   let r1 := newRoute {[ "group_id" := "p1:pg1" ]} 10 10 10 in
   exists r2,
     Routes (projectRuleRoute "p1:pg1" r1 alert) = Routes r1 ++ [r2] /\
     Match r2 = {[ "rule_id" := "p1:pg1_r2" ]} /\
     GroupWait r2 = Some (seconds 5) /\
     RepeatInterval r2 = Some (seconds 7) /\
     GroupInterval r2 = Some (seconds 60)).
Proof.
  split.
  - intros alert r1.
    exact (proj1 (C2_rule_node_carries_rule_timing
                    (MetricRule:=Payload) (EventRule:=Payload)
                    (SystemServiceRule:=Payload) (NodeRule:=Payload)
                    (PodRule:=Payload) (WorkloadRule:=Payload) GetRuleID)
             "c1:g1" r1 alert eq_refl eq_refl eq_refl).
  - intros alert r1.
    exact (proj2 (C2_rule_node_carries_rule_timing
                    (MetricRule:=Payload) (EventRule:=Payload)
                    (SystemServiceRule:=Payload) (NodeRule:=Payload)
                    (PodRule:=Payload) (WorkloadRule:=Payload) GetRuleID)
             "p1:pg1" r1 alert eq_refl eq_refl).
Defined.

(** C2, counterexample: a routed metric rule that carries no override
    (its three timing fields are zero) does not get the defaults of the
    group: its node has a group wait of 0s. *)
Lemma C2_group_defaults_not_inherited :
  ~ (forall (groupID : string) (r1 : Route) (alert : CRule),
        inactive (car_AlertState alert) = false ->
        car_EventRule alert = None ->
        is_Some_b (car_MetricRule alert) = true ->
        GroupWaitSeconds (car_Common alert) = 0 ->
        GroupIntervalSeconds (car_Common alert) = 0 ->
        RepeatIntervalSeconds (car_Common alert) = 0 ->
        exists r2,
          Routes (clusterRuleRoute groupID r1 alert) = Routes r1 ++ [r2] /\
          GroupWait r2 = Some (seconds defaultGroupWait) /\
          RepeatInterval r2 = Some (seconds defaultRepeatInterval) /\
          (GroupInterval r2 = None \/
           GroupInterval r2 = Some (seconds defaultGroupInterval))).
Proof.
  intros H.
  destruct (H "c1:g1" (newRoute {[ "group_id" := "c1:g1" ]} 10 10 10)
              (metric_rule "r1" "active" "c1:g1" no_timing)
              eq_refl eq_refl eq_refl eq_refl eq_refl eq_refl)
    as (r2 & Hr & Hgw & _).
  simpl in Hr. injection Hr as <-. discriminate.
Qed.

(** C3, witness: the project [p1] has a group with a metric rule, the
    project [p2] a group with a pod rule only, and [p3] is not in the
    partition: the containers of [p1] and [p2] are published. *)
Lemma C3_publish_witness :
  let rules := [project_rule "r1" "active" "c1:p1" "p1:pg1" no_timing;
                pod_rule "r2" "active" "c1:p2" "p2:pg1" no_timing] in
  let d := syncer "c1:n1" [] rules in
  let projectGroups := pAlertsMap_of d rules in
  (forall promRule,
      SyncPrometheusRule_err (operatorCRDManager d) promRule = None) /\
  trace (addProjectAlert2Operator d projectGroups ["p1"; "p2"; "p3"]
           world0).2
  = trace world0 ++
    map (fun p => CallSyncPrometheusRule (projectPromRule d projectGroups p).2)
        (filter (fun p => default ∅ (projectGroups !! p) <> ∅)
                ["p1"; "p2"; "p3"]).
Proof.
  intros rules d projectGroups. split; [reflexivity|].
  apply (proj2 (C3_publish_iff_partition_has_group
                  (MetricRule:=Payload) (EventRule:=Payload)
                  (SystemServiceRule:=Payload) (NodeRule:=Payload)
                  (PodRule:=Payload) (WorkloadRule:=Payload)
                  ref_Parse GetRuleID ClusterMonitoringInfo
                  ProjectMonitoringInfo Metric2Rule)).
  reflexivity.
Defined.

(** C3, counterexample: the partition of the cluster holds one group with
    one event rule and no metric rule; the cluster container is published
    all the same, with an entry that has no rule. *)
Lemma C3_published_without_metric_rule :
  ~ (forall (d : Syncer) (groupRules : gmap string (list CRule))
            (keys : list string) (w : World Rule)
            (promRule : PrometheusRule Rule),
        CallSyncPrometheusRule promRule
          ∈ trace (addClusterAlert2Operator d groupRules keys w).2 ->
        CallSyncPrometheusRule promRule ∉ trace w ->
        exists ruleGroup,
          ruleGroup ∈ pr_Groups promRule /\ rg_Rules ruleGroup <> []).
Proof.
  intros H.
  set (rules := [event_rule "r1" "active" "c1:g1"]).
  destruct (H (syncer "c1:n1" rules []) (cAlertsMap_of rules)
              (sorted_keys (cAlertsMap_of rules)) world0
              {| pr_Name := "c1"; pr_Namespace := "cattle-prometheus";
                 pr_Groups := [{| rg_Name := "c1:g1"; rg_Rules := [] |}] |})
    as (rg & Hin & Hne).
  - vm_compute. apply list_elem_of_here.
  - simpl. apply not_elem_of_nil.
  - apply list_elem_of_singleton in Hin. subst rg. by apply Hne.
Qed.

(** C4, witness: the recipient of the group [c1:g1] names a notifier that
    does not exist; the group has one active metric rule. The document
    keeps the receivers and the routes it had, and the published artifact
    holds the rule. *)
Lemma C4_unresolved_group_witness :
  let rules := [metric_rule "r1" "active" "c1:g1" no_timing] in
  let d := syncer "c1:unknown" rules [] in
  let alerts := cAlertsMap_of rules in
  let config := GetAlertManagerDefaultConfig in
  addClusterAlert2Config d config alerts (sorted_keys alerts)
    [slack_notifier "n1"] = Ok config /\
  (forall rc, rc ∈ Receivers config -> rc_Name rc = "c1:g1" ->
              rc ∈ Receivers config) /\
  (forall r, r ∈ Routes (cfg_Route config) ->
             Match r !! "group_id" = Some "c1:g1" ->
             r ∈ Routes (cfg_Route config)) /\
  exists promRule rg,
    CallSyncPrometheusRule promRule
      ∈ trace (addClusterAlert2Operator d alerts (sorted_keys alerts)
                 world0).2 /\
    rg ∈ pr_Groups promRule /\
    rg_Name rg = "c1:g1" /\
    Metric2Rule "c1:g1" "c1:g1_r1" "critical" "rule" "c1" tt ∈ rg_Rules rg.
Proof.
  intros rules d alerts config.
  assert (addClusterAlert2Config d config alerts (sorted_keys alerts)
            [slack_notifier "n1"] = Ok config) as Hrun
    by (vm_compute; reflexivity).
  split; [exact Hrun|].
  destruct (proj1 (C4_unresolved_group_gated_metrics_kept
                     (MetricRule:=Payload) (EventRule:=Payload)
                     (SystemServiceRule:=Payload) (NodeRule:=Payload)
                     (PodRule:=Payload) (WorkloadRule:=Payload)
                     ref_Parse GetRuleID ClusterMonitoringInfo
                     ProjectMonitoringInfo Metric2Rule)
              d rules [slack_notifier "n1"] config config "c1:g1"
              {| cag_Recipients :=
                   [{| NotifierName := "c1:unknown"; Recipient_ := "" |}] |}
              eq_refl)
    as (H1 & H2 & H3).
  - intros r Hr [_ [n Hn]].
    apply list_elem_of_singleton in Hr. subst r. discriminate Hn.
  - exact Hrun.
  - split; [exact H1|]. split; [exact H2|].
    apply (H3 (metric_rule "r1" "active" "c1:g1" no_timing) tt world0);
      [apply list_elem_of_here|reflexivity..].
Defined.

(** C5, witness: a listing with an inactive rule between two active
    ones. *)
Lemma C5_inactive_witness :
  let rules := [metric_rule "r1" "active" "c1:g1" no_timing;
                metric_rule "r2" "inactive" "c1:g1" no_timing;
                event_rule "r3" "active" "c1:g1"] in
  let active := [metric_rule "r1" "active" "c1:g1" no_timing;
                 event_rule "r3" "active" "c1:g1"] in
  cAlertsMap_of rules !! "c1:g1" = Some active /\
  (forall a, a ∈ active ->
             a ∈ rules /\ inactive (car_AlertState a) = false) /\
  sync (with_rules (syncer "c1:n1" [] []) (Ok rules) (Ok [])) world0
  = sync (with_rules (syncer "c1:n1" [] []) (Ok active) (Ok [])) world0.
Proof.
  intros rules active.
  assert (cAlertsMap_of rules !! "c1:g1" = Some active) as Hl
    by (vm_compute; reflexivity).
  pose proof (C5_inactive_rules_contribute_nothing
                (MetricRule:=Payload) (EventRule:=Payload)
                (SystemServiceRule:=Payload) (NodeRule:=Payload)
                (PodRule:=Payload) (WorkloadRule:=Payload)
                ref_Parse GetRuleID ObjectInCluster ClusterMonitoringInfo
                ProjectMonitoringInfo ClusterAlertManagerInfo
                GetAlertManagerSecretName Metric2Rule
                GetAlertManagerDefaultConfig yaml_Marshal NotificationTmpl)
    as (H1 & H2 & _).
  split; [exact Hl|]. split.
  - intros a Ha. exact (H2 rules "c1:g1" active a Hl Ha).
  - exact (H1 (syncer "c1:n1" [] []) rules [] world0).
Defined.

(** C5, counterexample: a rule in the state [alerting] is not active, and
    it is routed and published like an active one: the reconcile over the
    listing with the rule differs from the reconcile over the listing
    without it. *)
Lemma C5_alerting_rule_contributes :
  ~ (forall (d : Syncer) (clusterRules : list CRule) (w : World Rule),
        sync (with_rules d (Ok clusterRules) (Ok [])) w
        = sync (with_rules d
                  (Ok (filter (fun a => car_AlertState a = "active")
                         clusterRules))
                  (Ok [])) w).
Proof.
  intros H.
  specialize (H (syncer "c1:n1" [] [])
                [metric_rule "r1" "alerting" "c1:g1" no_timing] world0).
  apply (f_equal (fun x => stored_document x.2)) in H.
  vm_compute in H. discriminate H.
Qed.

(** the routing tree for the one rule [r1] in the state [alerting]: its
    group node and its rule node *)
Example alerting_rule_is_routed :
  let rules := [metric_rule "r1" "alerting" "c1:g1" (timing 30 60 3600)] in
  describe_result
    (addClusterAlert2Config (syncer "c1:n1" rules [])
       GetAlertManagerDefaultConfig (cAlertsMap_of rules)
       (sorted_keys (cAlertsMap_of rules)) [slack_notifier "n1"])
  = Some [(0%nat, "",
           (Some (seconds 180), Some (seconds 180), Some (seconds 3600)));
          (1%nat, "group_id=c1:g1;",
           (Some (seconds 10), None, Some (seconds 10)));
          (2%nat, "rule_id=c1:g1_r1;",
           (Some (seconds 30), Some (seconds 60), Some (seconds 3600)))].
Proof. vm_compute. reflexivity. Qed.

(** C6 (the code at the failing input): the snapshot holds two metric
    rules of the group [c1:g1]. The first reconcile, with the rule lister
    answering them in one order, writes the secret once. Nothing changes
    in the backing store. A second reconcile with the lister answering in
    the same order serializes the bytes that are stored and makes no
    write; a second reconcile with the lister answering the same two rules
    in the other order serializes other bytes and writes the secret again.
    The comparison of the bytes is there, and the group keys are sorted for
    it to hold from one reconcile to the next; the rules of a group are
    routed in the order of the listing, which nothing sorts. *)
Theorem C6_unchanged_store_listed_in_another_order_is_written_again :
  let r1 := metric_rule "r1" "active" "c1:g1" (timing 30 60 3600) in
  let r2 := metric_rule "r2" "active" "c1:g1" (timing 30 60 3600) in
  let d12 := syncer "c1:n1" [r1; r2] [] in
  let d21 := syncer "c1:n1" [r2; r1] [] in
  let w1 := (sync d12 world0).2 in
  [r1; r2] ≡ₚ [r2; r1] /\
  sync d12 world0 = (Ok tt, w1) /\
  secret_updates (trace w1) = 1%nat /\
  (sync_data d12 w1).1 = Ok (stored_document w1) /\
  (sync d12 w1).1 = Ok tt /\
  secret_updates (trace (sync d12 w1).2) = 1%nat /\
  (exists data,
      (sync_data d21 w1).1 = Ok data /\ data <> stored_document w1) /\
  (sync d21 w1).1 = Ok tt /\
  secret_updates (trace (sync d21 w1).2) = 2%nat /\
  stored_document (sync d21 w1).2 <> stored_document w1.
Proof.
  intros r1 r2 d12 d21 w1.
  split; [apply perm_swap|].
  split; [vm_compute; reflexivity|].
  split; [vm_compute; reflexivity|].
  split; [vm_compute; reflexivity|].
  split; [vm_compute; reflexivity|].
  split; [vm_compute; reflexivity|].
  split.
  - destruct (sync_data d21 w1).1 as [data|e|msg] eqn:Hd;
      [|vm_compute in Hd; discriminate Hd..].
    exists data. split; [reflexivity|]. intros ->.
    vm_compute in Hd. discriminate Hd.
  - split; [vm_compute; reflexivity|].
    split; [vm_compute; reflexivity|].
    vm_compute. discriminate.
Qed.

(** X23, witness: the first reconcile writes the secret; a reconcile over
    a listing with one more rule, an inactive one, serializes the same
    bytes and writes nothing; a reconcile over the empty listing serializes
    other bytes and writes once. *)
Lemma X23_secret_witness :
  let r1 := metric_rule "r1" "active" "c1:g1" no_timing in
  let d := syncer "c1:n1" [r1] [] in
  let d' := syncer "c1:n1"
              [metric_rule "r0" "inactive" "c1:g1" no_timing; r1] [] in
  let d0 := syncer "c1:n1" [] [] in
  let ns := "cattle-prometheus" in
  let name := "alertmanager-cluster-alerting" in
  let w1 := (sync d world0).2 in
  sync d world0 = (Ok tt, w1) /\
  (exists data s,
      (sync_data d world0).1 = Ok data /\
      secrets w1 !! (ns, name) = Some s /\
      Data_get s "alertmanager.yaml" = data) /\
  (exists t,
      sync d' w1 = (Ok tt, {| secrets := secrets w1; trace := trace w1 ++ t |})
      /\ secret_updates t = 0%nat) /\
  (exists t, trace (sync d0 w1).2 = trace w1 ++ t /\
             secret_updates t = 1%nat) /\
  sync_secret d (stored_document w1) w1
  = (Ok tt, log (CallSecretGet ns name) w1) /\
  (exists s m,
      secrets world0 !! (ns, name) = Some s /\
      Data_get s "alertmanager.yaml" <> stored_document w1 /\
      Data s = Some m).
Proof.
  intros r1 d d' d0 ns name w1.
  assert (sync d world0 = (Ok tt, w1)) as Hrun by (vm_compute; reflexivity).
  pose proof (X23_secret_written_exactly_when_the_bytes_differ
                (MetricRule:=Payload) (EventRule:=Payload)
                (SystemServiceRule:=Payload) (NodeRule:=Payload)
                (PodRule:=Payload) (WorkloadRule:=Payload)
                ref_Parse GetRuleID ObjectInCluster ClusterMonitoringInfo
                ProjectMonitoringInfo ClusterAlertManagerInfo
                GetAlertManagerSecretName Metric2Rule
                GetAlertManagerDefaultConfig yaml_Marshal NotificationTmpl)
    as (H1 & H2 & H3 & H4 & H5).
  destruct (secrets w1 !! (ns, name)) as [s1|] eqn:Hs;
    [|vm_compute in Hs; discriminate Hs].
  assert (stored_document w1 = Data_get s1 "alertmanager.yaml") as Hst.
  { unfold stored_document. fold ns name. by rewrite Hs. }
  split; [exact Hrun|]. split; [|split; [|split; [|split]]].
  - destruct (H3 d world0 w1 eq_refl Hrun) as (data & s & Hd & Hs' & Heq).
    exists data, s. split; [exact Hd|]. split; [|exact Heq].
    rewrite <- Hs. exact Hs'.
  - apply (H4 d' w1 s1 (stored_document w1) eq_refl Hs);
      [vm_compute; reflexivity|by rewrite Hst].
  - destruct s1 as [[m1|]]; [|vm_compute in Hs; discriminate Hs].
    destruct (sync_data d0 w1).1 as [data0|e|msg] eqn:Hd0;
      [|vm_compute in Hd0; discriminate Hd0..].
    apply (H5 d0 w1 {| Data := Some m1 |} m1 data0
             eq_refl eq_refl Hs eq_refl Hd0).
    vm_compute in Hd0. injection Hd0 as <-.
    vm_compute in Hs. injection Hs as <-.
    vm_compute. discriminate.
  - apply (H1 d (stored_document w1) w1 s1 eq_refl Hs). by rewrite Hst.
  - destruct (H2 d (stored_document w1) world0
                (CallSecretUpdate (Rule:=Rule) ns name
                   {| Data := Some (<["notification.tmpl" :=
                                        NotificationTmpl]>
                                      (<["alertmanager.yaml" :=
                                           stored_document w1]> ∅)) |}))
      as [Hin|(s & m & Hs0 & Hne & Hm & Hc)].
    + vm_compute. apply list_elem_of_further, list_elem_of_here.
    + reflexivity.
    + change (trace world0) with (@nil (Call Rule)) in Hin.
      destruct (not_elem_of_nil _ Hin).
    + exists s, m. split; [exact Hs0|]. split; [exact Hne|exact Hm].
Defined.

(** C7, witness: a stack that is not deployed, and a deployed stack whose
    endpoint does not resolve. *)
Lemma C7_guards_witness :
  let down := {| IsDeploy := false;
                 GetAlertManagerEndpoint := Err (Errorf "no endpoint") |} in
  let unresolved := {| IsDeploy := true;
                       GetAlertManagerEndpoint :=
                         Err (Errorf "no endpoint") |} in
  let d := syncer "c1:n1" [metric_rule "r1" "active" "c1:g1" no_timing] [] in
  sync (with_alertManager d down) world0 = (Ok tt, world0) /\
  sync (with_alertManager d unresolved) world0
  = (Err (Errorf "no endpoint"), log CallGetAlertManagerEndpoint world0).
Proof.
  intros down unresolved d.
  pose proof (C7_not_deployed_succeeds_endpoint_error_returned
                (MetricRule:=Payload) (EventRule:=Payload)
                (SystemServiceRule:=Payload) (NodeRule:=Payload)
                (PodRule:=Payload) (WorkloadRule:=Payload)
                ref_Parse GetRuleID ObjectInCluster ClusterMonitoringInfo
                ProjectMonitoringInfo ClusterAlertManagerInfo
                GetAlertManagerSecretName Metric2Rule
                GetAlertManagerDefaultConfig yaml_Marshal NotificationTmpl)
    as (H1 & H2).
  split.
  - exact (H1 (with_alertManager d down) world0 eq_refl).
  - exact (H2 (with_alertManager d unresolved) world0
             (Errorf "no endpoint") eq_refl eq_refl).
Defined.

(** C7, counterexample: with the stack deployed and the endpoint not
    resolved, the reconcile does not signal success. *)
Lemma C7_endpoint_error_is_returned :
  ~ (forall (d : Syncer) (w : World Rule) (e : error),
        IsDeploy (alertManager d) = true ->
        GetAlertManagerEndpoint (alertManager d) = Err e ->
        (sync d w).1 = Ok tt).
Proof.
  intros H.
  specialize (H (with_alertManager (syncer "c1:n1" [] [])
                   {| IsDeploy := true;
                      GetAlertManagerEndpoint :=
                        Err (Errorf "no endpoint") |})
                world0 (Errorf "no endpoint") eq_refl eq_refl).
  vm_compute in H. discriminate H.
Qed.

(** C8, witness: the cluster partition has the groups [c1:g1], which
    exists, and [c1:gone], which is not found, and the project [p1] the
    groups [p1:pg1], which exists, and [p1:gone], which is not found; a
    group named [broken] makes its lookup fail with a server error. The
    key of the group that is not found is handed to the assemblers before
    the key of the group that exists, and the receiver and the node of the
    latter are in the document. *)
Lemma C8_lookups_witness :
  let gone := metric_rule "r2" "active" "c1:gone" no_timing in
  let rules := [metric_rule "r1" "active" "c1:g1" no_timing; gone] in
  let pgone := project_rule "r4" "active" "c1:p1" "p1:gone" no_timing in
  let prules := [project_rule "r3" "active" "c1:p1" "p1:pg1" no_timing;
                 pgone] in
  let broken := [metric_rule "r5" "active" "c1:broken" no_timing] in
  let pbroken := [project_rule "r6" "active" "c1:p1" "p1:broken" no_timing] in
  let d := syncer "c1:n1" rules prules in
  let alerts := cAlertsMap_of rules in
  let groups := default ∅ (pAlertsMap_of d prules !! "p1") in
  let notifiers := [slack_notifier "n1"] in
  let config := GetAlertManagerDefaultConfig in
  let timeout := StatusOther "etcdserver: request timed out" in
  (addClusterAlert2Config d config alerts ["c1:gone"; "c1:g1"] notifiers
   = addClusterAlert2Config d config alerts ["c1:g1"] notifiers /\
   addProjectGroups2Config d config "p1" groups ["p1:gone"; "p1:pg1"]
     notifiers
   = addProjectGroups2Config d config "p1" groups ["p1:pg1"] notifiers) /\
  (exists config',
      addClusterAlert2Config d config alerts ["c1:gone"; "c1:g1"] notifiers
      = Ok config' /\
      map rc_Name (Receivers config') = ["rancherlabs"; "c1:g1"] /\
      (exists rc, rc ∈ Receivers config' /\ rc_Name rc = "c1:g1") /\
      clusterGroupRoute "c1:g1" (default [] (alerts !! "c1:g1"))
        ∈ Routes (cfg_Route config') /\
      (forall rc, rc ∈ Receivers config' -> rc_Name rc = "c1:gone" ->
                  rc ∈ Receivers config) /\
      (forall r, r ∈ Routes (cfg_Route config') ->
                 Match r !! "group_id" = Some "c1:gone" ->
                 r ∈ Routes (cfg_Route config))) /\
  (exists config',
      addProjectAlert2Config d config (pAlertsMap_of d prules) ["p1"]
        notifiers = Ok config' /\
      map rc_Name (Receivers config') = ["rancherlabs"; "p1:pg1"] /\
      (exists rc, rc ∈ Receivers config' /\ rc_Name rc = "p1:pg1") /\
      projectGroupRoute "p1:pg1" (default [] (groups !! "p1:pg1"))
        ∈ Routes (cfg_Route config') /\
      (forall rc, rc ∈ Receivers config' -> rc_Name rc = "p1:gone" ->
                  rc ∈ Receivers config) /\
      (forall r, r ∈ Routes (cfg_Route config') ->
                 Match r !! "group_id" = Some "p1:gone" ->
                 r ∈ Routes (cfg_Route config))) /\
  (sync d world0).1 = Ok tt /\
  (exists t promRule rg,
      trace (sync d world0).2 = trace world0 ++ t /\
      CallSyncPrometheusRule promRule ∈ t /\
      rg ∈ pr_Groups promRule /\
      rg_Name rg = "c1:gone" /\
      Metric2Rule "c1:gone" "c1:gone_r2" "critical" "rule" "c1" tt
        ∈ rg_Rules rg) /\
  (exists t promRule rg,
      trace (sync d world0).2 = trace world0 ++ t /\
      CallSyncPrometheusRule promRule ∈ t /\
      rg ∈ pr_Groups promRule /\
      rg_Name rg = "p1:gone" /\
      Metric2Rule "p1:gone" "p1:gone_r4" "critical" "rule" "c1" tt
        ∈ rg_Rules rg) /\
  (sync (with_notifiers d (Err timeout)) world0).1
  = Err (Wrapf timeout "List notifiers") /\
  (sync (with_rules d (Err timeout) (Ok [])) world0).1
  = Err (Wrapf timeout "List cluster alert rules") /\
  (sync (with_rules d (Ok rules) (Err timeout)) world0).1
  = Err (Wrapf timeout "List project alert rules") /\
  (exists k' e',
      k' ∈ ["c1:broken"; "c1:g1"] /\
      (clusterAlertGroupLister d (clusterName d) (ref_Parse k').2).2
        = Some e' /\
      IsNotFound e' = false /\
      addClusterAlert2Config d config alerts ["c1:broken"; "c1:g1"]
        notifiers
      = Err (Errorf ("get cluster alert group c1:" +:+ (ref_Parse k').2
                     +:+ " failed, " +:+ error_string e'))) /\
  (exists p' k' e',
      p' ∈ ["p1"] /\
      k' ∈ sorted_keys (default ∅ (pAlertsMap_of d pbroken !! p')) /\
      (projectAlertGroupLister d p' (ref_Parse k').2).2 = Some e' /\
      IsNotFound e' = false /\
      addProjectAlert2Config d config (pAlertsMap_of d pbroken) ["p1"]
        notifiers
      = Err (Errorf ("get project alert group " +:+ p' +:+ ":"
                     +:+ (ref_Parse k').2 +:+ " failed, "
                     +:+ error_string e'))) /\
  ((exists e', (sync (syncer "c1:n1" rules pbroken) world0).1 = Err e') /\
   secrets (sync (syncer "c1:n1" rules pbroken) world0).2 = secrets world0) /\
  (exists k' e',
      k' ∈ sorted_keys (cAlertsMap_of broken) /\
      (clusterAlertGroupLister d (clusterName d) (ref_Parse k').2).2
        = Some e' /\
      IsNotFound e' = false /\
      (sync (syncer "c1:n1" broken []) world0).1
      = Err (Errorf ("get cluster alert group c1:" +:+ (ref_Parse k').2
                     +:+ " failed, " +:+ error_string e'))) /\
  (exists p' k' e',
      p' ∈ sorted_keys (pAlertsMap_of d pbroken) /\
      k' ∈ sorted_keys (default ∅ (pAlertsMap_of d pbroken !! p')) /\
      (projectAlertGroupLister d p' (ref_Parse k').2).2 = Some e' /\
      IsNotFound e' = false /\
      (sync (syncer "c1:n1" rules pbroken) world0).1
      = Err (Errorf ("get project alert group " +:+ p' +:+ ":"
                     +:+ (ref_Parse k').2 +:+ " failed, "
                     +:+ error_string e'))).
Proof.
  intros gone rules pgone prules broken pbroken d alerts groups notifiers
         config timeout.
  pose proof (C8_not_found_skipped_other_failures_abort
                (MetricRule:=Payload) (EventRule:=Payload)
                (SystemServiceRule:=Payload) (NodeRule:=Payload)
                (PodRule:=Payload) (WorkloadRule:=Payload)
                ref_Parse GetRuleID ObjectInCluster ClusterMonitoringInfo
                ProjectMonitoringInfo ClusterAlertManagerInfo
                GetAlertManagerSecretName Metric2Rule
                GetAlertManagerDefaultConfig yaml_Marshal NotificationTmpl)
    as (H1 & H2 & H3 & H4 & H5 & H6 & H7 & H8 & H9 & H10 & H11 & H12 & H13
        & H14 & H15).
  assert (forall k e,
             k ∈ sorted_keys (cAlertsMap_of rules) ->
             (clusterAlertGroupLister d (clusterName d) (ref_Parse k).2).2
               = Some e ->
             IsNotFound e = true) as Hcl.
  { intros k e Hk. vm_compute in Hk.
    apply elem_of_cons in Hk as [->|Hk];
      [|apply elem_of_cons in Hk as [->|Hk];
         [|by apply elem_of_nil in Hk]].
    - intros He. vm_compute in He. discriminate He.
    - intros He. vm_compute in He. injection He as <-. reflexivity. }
  split; [split|split; [|split; [|split; [|split; [|split; [|split; [|split;
    [|split; [|split; [|split; [|split; [|split]]]]]]]]]]]].
  - exact (H1 d config alerts [] ["c1:g1"] "c1:gone" notifiers
             (StatusNotFound "clusteralertgroup not found")
             eq_refl eq_refl).
  - exact (H2 d config "p1" groups [] ["p1:pg1"] "p1:gone" notifiers
             (StatusNotFound "projectalertgroup not found")
             eq_refl eq_refl).
  - destruct (addClusterAlert2Config d config alerts ["c1:gone"; "c1:g1"]
                notifiers) as [config'|e|msg] eqn:Hrun;
      [|vm_compute in Hrun; discriminate Hrun..].
    exists config'. split; [reflexivity|].
    split; [vm_compute in Hrun; injection Hrun as <-; reflexivity|].
    destruct (H3 d alerts notifiers ["c1:gone"; "c1:g1"] config config' Hrun)
      as [Hfound Hmissing].
    destruct (Hfound "c1:g1") as [Hrc Hrt];
      [apply list_elem_of_further, list_elem_of_here|reflexivity|].
    destruct (Hmissing "c1:gone" eq_refl) as [Hnorc Hnort].
    split; [exact Hrc|]. split; [exact Hrt|].
    split; [exact Hnorc|exact Hnort].
  - destruct (addProjectAlert2Config d config (pAlertsMap_of d prules) ["p1"]
                notifiers) as [config'|e|msg] eqn:Hrun;
      [|vm_compute in Hrun; discriminate Hrun..].
    exists config'. split; [reflexivity|].
    split; [vm_compute in Hrun; injection Hrun as <-; reflexivity|].
    destruct (H4 d (pAlertsMap_of d prules) notifiers ["p1"] config config'
                Hrun) as [Hfound Hmissing].
    destruct (Hfound "p1" "p1:pg1") as [Hrc Hrt];
      [apply list_elem_of_here
      |vm_compute; apply list_elem_of_further, list_elem_of_here
      |reflexivity|].
    destruct (Hmissing "p1:gone") as [Hnorc Hnort].
    { intros p Hp. apply list_elem_of_singleton in Hp. subst p.
      reflexivity. }
    split; [exact Hrc|]. split; [exact Hrt|].
    split; [exact Hnorc|exact Hnort].
  - apply (H5 d world0 "http://alertmanager:9093" notifiers rules prules
             {| Data := Some ∅ |} ∅); try reflexivity.
    + exact Hcl.
    + intros p k e Hp Hk. vm_compute in Hp.
      apply list_elem_of_singleton in Hp. subst p. vm_compute in Hk.
      apply elem_of_cons in Hk as [->|Hk];
        [|apply elem_of_cons in Hk as [->|Hk];
           [|by apply elem_of_nil in Hk]].
      * intros He. vm_compute in He. injection He as <-. reflexivity.
      * intros He. vm_compute in He. discriminate He.
    + intros c. eexists. reflexivity.
  - exact (H6 d world0 "http://alertmanager:9093" notifiers rules prules
             gone tt eq_refl eq_refl eq_refl eq_refl eq_refl
             (list_elem_of_further _ _ _ (list_elem_of_here _ _))
             eq_refl eq_refl).
  - exact (H7 d world0 "http://alertmanager:9093" notifiers rules prules
             pgone tt eq_refl eq_refl eq_refl eq_refl eq_refl
             (fun _ => eq_refl)
             (list_elem_of_further _ _ _ (list_elem_of_here _ _))
             eq_refl eq_refl eq_refl).
  - exact (H8 (with_notifiers d (Err timeout)) world0 timeout
             "http://alertmanager:9093" eq_refl eq_refl eq_refl).
  - exact (H9 (with_rules d (Err timeout) (Ok [])) world0 timeout
             "http://alertmanager:9093" notifiers
             eq_refl eq_refl eq_refl eq_refl).
  - exact (H10 (with_rules d (Ok rules) (Err timeout)) world0 timeout
             "http://alertmanager:9093" notifiers rules
             eq_refl eq_refl eq_refl eq_refl eq_refl).
  - apply (H11 d config alerts ["c1:broken"; "c1:g1"] notifiers
             "c1:broken" timeout);
      [apply list_elem_of_here|reflexivity|reflexivity].
  - apply (H12 d config (pAlertsMap_of d pbroken) ["p1"] notifiers
             "p1" "p1:broken" timeout);
      [apply list_elem_of_here|vm_compute; apply list_elem_of_here
      |reflexivity|reflexivity].
  - apply (H13 (syncer "c1:n1" rules pbroken) world0
             "http://alertmanager:9093" notifiers rules pbroken);
      try reflexivity.
    right. exists "p1", "p1:broken", timeout.
    split; [vm_compute; apply list_elem_of_here|].
    split; [vm_compute; apply list_elem_of_here|]. split; reflexivity.
  - apply (H14 (syncer "c1:n1" broken []) world0 "http://alertmanager:9093"
             notifiers broken [] "c1:broken" timeout); try reflexivity.
    vm_compute. apply list_elem_of_here.
  - apply (H15 (syncer "c1:n1" rules pbroken) world0
             "http://alertmanager:9093" notifiers rules pbroken
             "p1" "p1:broken" timeout); try reflexivity.
    + exact Hcl.
    + vm_compute. apply list_elem_of_here.
    + vm_compute. apply list_elem_of_here.
Defined.

(** C8, counterexample: the claim as it is written has the reconcile skip
    the rules of a group that is not found, so that the reconcile over a
    listing does what the reconcile over the listing without these rules
    does. The group [c1:gone] is not found and holds one metric rule: the
    reconcile publishes an artifact of the cluster with that rule, and
    without the rule it publishes none. *)
Lemma C8_rules_of_a_missing_group_are_published :
  ~ (forall (d : Syncer) (clusterRules : list CRule) (w : World Rule)
            (k : string) (e : error),
        clusterAlertGroupLister d (clusterName d) (ref_Parse k).2
          = (None, Some e) ->
        IsNotFound e = true ->
        sync (with_rules d (Ok clusterRules) (Ok [])) w
        = sync (with_rules d
                  (Ok (filter (fun a => car_GroupName a <> k) clusterRules))
                  (Ok [])) w).
Proof.
  intros H.
  specialize (H (syncer "c1:n1" [] [])
                [metric_rule "r2" "active" "c1:gone" no_timing] world0
                "c1:gone" (StatusNotFound "clusteralertgroup not found")
                eq_refl eq_refl).
  apply (f_equal (fun x => published x.2)) in H.
  vm_compute in H. discriminate H.
Qed.

(** C9 (the code at the failing input): the snapshot holds two metric
    rules of the group [c1:g1]. With the rule lister answering them in one
    order or in the other, the stored document and the published artifact
    differ, and a reconcile in the second order after a reconcile in the
    first writes the secret again: the rules of a group are routed and
    published in the order of the listing, which only the group keys, and
    not the rules, are sorted out of. *)
Theorem C9_listing_order_changes_the_output :
  let r1 := metric_rule "r1" "active" "c1:g1" (timing 30 60 3600) in
  let r2 := metric_rule "r2" "active" "c1:g1" (timing 30 60 3600) in
  let d12 := syncer "c1:n1" [r1; r2] [] in
  let d21 := syncer "c1:n1" [r2; r1] [] in
  Permutation [r1; r2] [r2; r1] /\
  (sync d12 world0).1 = Ok tt /\ (sync d21 world0).1 = Ok tt /\
  stored_document (sync d12 world0).2 <> stored_document (sync d21 world0).2 /\
  published (sync d12 world0).2 <> published (sync d21 world0).2 /\
  secret_updates (trace (sync d12 (sync d12 world0).2).2) = 1%nat /\
  secret_updates (trace (sync d21 (sync d12 world0).2).2) = 2%nat.
Proof.
  intros r1 r2 d12 d21.
  split; [apply perm_swap|].
  split; [vm_compute; reflexivity|].
  split; [vm_compute; reflexivity|].
  split; [vm_compute; discriminate|].
  split; [vm_compute; discriminate|].
  split; vm_compute; reflexivity.
Qed.

(** C10, witness: the cluster group [c1:g1] holds one event rule and no
    metric rule; the project [p1] holds the group [p1:pg1] with one pod
    rule. *)
Lemma C10_entry_witness :
  let rules := [event_rule "r1" "active" "c1:g1"] in
  let prules := [pod_rule "r2" "active" "c1:p1" "p1:pg1" no_timing] in
  let d := syncer "c1:n1" rules prules in
  let groupRules := cAlertsMap_of rules in
  let projectGroups := pAlertsMap_of d prules in
  groupRules !! "c1:g1" = Some rules /\
  (exists ruleGroup,
      ruleGroup
        ∈ pr_Groups (clusterPromRule d groupRules (sorted_keys groupRules)).2
      /\ rg_Name ruleGroup = "c1:g1" /\ rg_Rules ruleGroup = []) /\
  (exists ruleGroup,
      ruleGroup ∈ pr_Groups (projectPromRule d projectGroups "p1").2
      /\ rg_Name ruleGroup = "p1:pg1" /\ rg_Rules ruleGroup = []).
Proof.
  intros rules prules d groupRules projectGroups.
  assert (groupRules !! "c1:g1" = Some rules) as Hk
    by (vm_compute; reflexivity).
  pose proof (C10_entry_for_every_group_key
                (MetricRule:=Payload) (EventRule:=Payload)
                (SystemServiceRule:=Payload) (NodeRule:=Payload)
                (PodRule:=Payload) (WorkloadRule:=Payload)
                ref_Parse GetRuleID ClusterMonitoringInfo
                ProjectMonitoringInfo Metric2Rule) as (Hc & Hp).
  split; [exact Hk|]. split.
  - destruct (Hc d groupRules) as [_ H].
    destruct (H "c1:g1" rules Hk) as (rg & H1 & H2 & _ & H4).
    exists rg. split; [exact H1|]. split; [exact H2|].
    apply H4. intros a Ha. apply list_elem_of_singleton in Ha.
    subst a. reflexivity.
  - destruct (projectGroups !! "p1") as [groups|] eqn:Hg;
      [|vm_compute in Hg; discriminate Hg].
    destruct (Hp d projectGroups "p1" groups Hg) as [_ H].
    assert (groups !! "p1:pg1" = Some prules) as Hl.
    { vm_compute in Hg. injection Hg as <-. vm_compute. reflexivity. }
    destruct (H "p1:pg1" prules Hl) as (rg & H1 & H2 & _ & H4).
    exists rg. split; [exact H1|]. split; [exact H2|].
    apply H4. intros a Ha. apply list_elem_of_singleton in Ha.
    subst a. reflexivity.
Defined.

(** X1, witness: the timing 30/60/3600 of a rule. *)
Lemma X1_newRoute_witness :
  GroupWait (newRoute ∅ 30 60 3600) = Some 30000000000 /\
  RepeatInterval (newRoute ∅ 30 60 3600) = Some 3600000000000 /\
  GroupInterval (newRoute ∅ 30 60 3600) = Some 60000000000.
Proof.
  destruct (X1_newRoute_durations_exact_in_range ∅ 30 60 3600)
    as (H1 & H2 & H3 & _).
  split; [apply H1; lia|]. split; [apply H2; lia|]. apply H3; lia.
Defined.

(** X2, witness: the second of two notifiers is the one named. *)
Lemma X2_getNotifier_witness :
  let notifiers := [slack_notifier "n1"; slack_notifier "n2"] in
  getNotifier "c1" "c1:n2" notifiers = Some (slack_notifier "n2") /\
  exists before after,
    notifiers = before ++ slack_notifier "n2" :: after /\
    "c1" +:+ ":" +:+ nt_Name (slack_notifier "n2") = "c1:n2" /\
    forall n', n' ∈ before -> "c1" +:+ ":" +:+ nt_Name n' <> "c1:n2".
Proof.
  intros notifiers. split; [reflexivity|].
  exact (proj2 (X2_getNotifier_finds_the_first_match "c1" "c1:n2" notifiers)
           (slack_notifier "n2") eq_refl).
Defined.

(** X3, witness: two notifiers of distinct names, in the two orders. *)
Lemma X3_notifier_order_witness :
  let l1 := [slack_notifier "n1"; slack_notifier "n2"] in
  let l2 := [slack_notifier "n2"; slack_notifier "n1"] in
  l1 ≡ₚ l2 /\ NoDup (map nt_Name l1) /\
  (forall id, getNotifier "c1" id l1 = getNotifier "c1" id l2) /\
  (forall receiver recipients,
      addRecipients "c1" l1 receiver recipients
      = addRecipients "c1" l2 receiver recipients).
Proof.
  intros l1 l2.
  assert (l1 ≡ₚ l2) as Hp by apply perm_swap.
  assert (NoDup (map nt_Name l1)) as Hn.
  { apply NoDup_cons_2; [|apply NoDup_singleton].
    intros H. apply list_elem_of_singleton in H. discriminate H. }
  split; [exact Hp|]. split; [exact Hn|].
  exact (X3_notifier_order_is_irrelevant_for_distinct_names "c1" l1 l2 Hp Hn).
Defined.

(** X7, witness: the keys of a map of two groups, collected in the
    descending order. *)
Lemma X7_sorted_keys_witness :
  let m : gmap string nat := {[ "c1:g2" := 1%nat; "c1:g10" := 2%nat ]} in
  let collected := ["c1:g2"; "c1:g10"] in
  collected ≡ₚ (map_to_list m).*1 /\
  sort_Strings collected = sorted_keys m /\
  sorted_keys m = ["c1:g10"; "c1:g2"].
Proof.
  intros m collected.
  assert (collected ≡ₚ (map_to_list m).*1) as Hp
    by (vm_compute; first [reflexivity | apply perm_swap]).
  split; [exact Hp|]. split; [|reflexivity].
  destruct (X7_sorted_keys_do_not_depend_on_iteration_order nat m)
    as (_ & _ & _ & H).
  exact (H collected Hp).
Defined.

(** X10, witness: the group [c1:g1] exists and its recipient resolves, the
    group [c1:gone] is not found. *)
Lemma X10_cluster_assembler_witness :
  let rules := [metric_rule "r1" "active" "c1:g1" no_timing;
                event_rule "r2" "active" "c1:gone"] in
  let d := syncer "c1:n1" rules [] in
  let alerts := cAlertsMap_of rules in
  let notifiers := [slack_notifier "n1"] in
  let config := GetAlertManagerDefaultConfig in
  exists config',
    addClusterAlert2Config d config alerts (sorted_keys alerts) notifiers
    = Ok config' /\
    same_frame config config' /\
    exists rcs rts,
      Receivers config' = Receivers config ++ rcs /\
      Routes (cfg_Route config') = Routes (cfg_Route config) ++ rts /\
      map rc_Name rcs
      = List.filter (cluster_emits d notifiers) (sorted_keys alerts) /\
      map Receiver rts = map rc_Name rcs /\
      rts = map (fun k => clusterGroupRoute k (default [] (alerts !! k)))
                (List.filter (cluster_emits d notifiers)
                   (sorted_keys alerts)) /\
      Forall (fun rc => (0 < n_configs rc)%nat) rcs.
Proof.
  intros rules d alerts notifiers config.
  destruct (addClusterAlert2Config d config alerts (sorted_keys alerts)
              notifiers) as [config'|e|msg] eqn:Hrun;
    [|vm_compute in Hrun; discriminate Hrun..].
  exists config'. split; [reflexivity|].
  exact (X10_cluster_assembler_appends_paired_receivers_and_nodes
           (MetricRule:=Payload) (EventRule:=Payload)
           (SystemServiceRule:=Payload) (NodeRule:=Payload)
           (PodRule:=Payload) (WorkloadRule:=Payload)
           ref_Parse GetRuleID d alerts notifiers (sorted_keys alerts)
           config config' Hrun).
Defined.

(** X11, witness: the project [p1] with the group [p1:pg1], which exists,
    and the group [p1:gone], which is not found. *)
Lemma X11_project_assembler_witness :
  let rules := [project_rule "r1" "active" "c1:p1" "p1:pg1" no_timing;
                pod_rule "r2" "active" "c1:p1" "p1:gone" no_timing] in
  let d := syncer "c1:n1" [] rules in
  let projectGroups := pAlertsMap_of d rules in
  let notifiers := [slack_notifier "n1"] in
  let config := GetAlertManagerDefaultConfig in
  exists config',
    addProjectAlert2Config d config projectGroups (sorted_keys projectGroups)
      notifiers = Ok config' /\
    same_frame config config' /\
    exists rcs rts,
      Receivers config' = Receivers config ++ rcs /\
      Routes (cfg_Route config') = Routes (cfg_Route config) ++ rts /\
      map rc_Name rcs
      = flat_map (fun p => List.filter (project_emits d notifiers p)
                             (sorted_keys (default ∅ (projectGroups !! p))))
                 (sorted_keys projectGroups) /\
      map Receiver rts = map rc_Name rcs /\
      Forall (fun rc => (0 < n_configs rc)%nat) rcs.
Proof.
  intros rules d projectGroups notifiers config.
  destruct (addProjectAlert2Config d config projectGroups
              (sorted_keys projectGroups) notifiers)
    as [config'|e|msg] eqn:Hrun;
    [|vm_compute in Hrun; discriminate Hrun..].
  exists config'. split; [reflexivity|].
  exact (X11_project_assembler_appends_paired_receivers_and_nodes
           (MetricRule:=Payload) (EventRule:=Payload)
           (SystemServiceRule:=Payload) (NodeRule:=Payload)
           (PodRule:=Payload) (WorkloadRule:=Payload)
           ref_Parse GetRuleID d projectGroups notifiers
           (sorted_keys projectGroups) config config' Hrun).
Defined.

(** X12, witness: an event rule and a metric rule of the group [c1:g1]. *)
Lemma X12_rule_ids_witness :
  let a := metric_rule "r1" "alerting" "c1:g1" no_timing in
  let rules := [event_rule "r0" "active" "c1:g1"; a] in
  let d := syncer "c1:n1" rules [] in
  exists l,
    cAlertsMap_of rules !! "c1:g1" = Some l /\
    Metric2Rule "c1:g1" "c1:g1_r1" "critical" "rule" "c1" tt
      ∈ rg_Rules (clusterRuleGroup d "c1:g1" l) /\
    "c1:g1_r1" ∈ omap (fun r => Match r !! "rule_id")
                      (Routes (clusterGroupRoute "c1:g1" l)).
Proof.
  intros a rules d.
  exact (X12_publisher_and_assembler_agree_on_rule_ids
           (MetricRule:=Payload) (EventRule:=Payload)
           (SystemServiceRule:=Payload) (NodeRule:=Payload)
           (PodRule:=Payload) (WorkloadRule:=Payload)
           GetRuleID Metric2Rule d rules a tt
           (list_elem_of_further _ _ _ (list_elem_of_here _ _))
           eq_refl eq_refl).
Defined.

(** X15, witness: the notifier lister fails. *)
Lemma X15_failure_witness :
  let timeout := StatusOther "etcdserver: request timed out" in
  let d := with_notifiers
             (syncer "c1:n1" [metric_rule "r1" "active" "c1:g1" no_timing] [])
             (Err timeout) in
  let e := Wrapf timeout "List notifiers" in
  (sync_data d world0).1 = Err e /\
  (sync d world0).1 = Err e /\
  secrets (sync d world0).2 = secrets world0 /\
  exists t, trace (sync d world0).2 = trace world0 ++ t /\
            secret_calls t = [].
Proof.
  intros timeout d e.
  assert ((sync_data d world0).1 = Err e) as Hd by (vm_compute; reflexivity).
  split; [exact Hd|].
  exact (X15_failure_before_the_secret_leaves_it_untouched
           (MetricRule:=Payload) (EventRule:=Payload)
           (SystemServiceRule:=Payload) (NodeRule:=Payload)
           (PodRule:=Payload) (WorkloadRule:=Payload)
           ref_Parse GetRuleID ObjectInCluster ClusterMonitoringInfo
           ProjectMonitoringInfo ClusterAlertManagerInfo
           GetAlertManagerSecretName Metric2Rule
           GetAlertManagerDefaultConfig yaml_Marshal NotificationTmpl
           d world0 e eq_refl Hd).
Defined.

(** X16, witness: the rule-CR store refuses the artifact of the
    cluster. *)
Lemma X16_cluster_publish_witness :
  let rules := [metric_rule "r1" "active" "c1:g1" no_timing] in
  let prules := [project_rule "r2" "active" "c1:p1" "p1:pg1" no_timing] in
  let d := with_operator (syncer "c1:n1" rules prules)
             (refusing_in "cattle-prometheus") in
  let cAlertsMap := cAlertsMap_of rules in
  let pAlertsMap := pAlertsMap_of d prules in
  cAlertsMap <> ∅ /\
  sync_document d [slack_notifier "n1"] cAlertsMap pAlertsMap world0
  = (Err denied,
     log (CallSyncPrometheusRule
            (clusterPromRule d cAlertsMap (sorted_keys cAlertsMap)).2)
         world0).
Proof.
  intros rules prules d cAlertsMap pAlertsMap.
  assert (cAlertsMap <> ∅) as Hne.
  { intros H. apply (f_equal (fun m => m !! "c1:g1")) in H.
    vm_compute in H. discriminate H. }
  split; [exact Hne|].
  apply (X16_failing_cluster_publish_stops_the_reconcile
           (MetricRule:=Payload) (EventRule:=Payload)
           (SystemServiceRule:=Payload) (NodeRule:=Payload)
           (PodRule:=Payload) (WorkloadRule:=Payload)
           ref_Parse GetRuleID ClusterMonitoringInfo ProjectMonitoringInfo
           Metric2Rule GetAlertManagerDefaultConfig yaml_Marshal
           d [slack_notifier "n1"] cAlertsMap pAlertsMap world0 denied Hne).
  vm_compute. reflexivity.
Defined.

(** X17, witness: the rule-CR store takes the artifact of the project [p1]
    and refuses the one of [p2]; the project [p3] is not reached. *)
Lemma X17_project_publish_witness :
  let rules := [project_rule "r1" "active" "c1:p1" "p1:pg1" no_timing;
                pod_rule "r2" "active" "c1:p2" "p2:pg1" no_timing;
                pod_rule "r3" "active" "c1:p3" "p3:pg1" no_timing] in
  let d := with_operator (syncer "c1:n1" [] rules)
             (refusing_in "cattle-prometheus-p2") in
  let projectGroups := pAlertsMap_of d rules in
  sorted_keys projectGroups = ["p1"] ++ "p2" :: ["p3"] /\
  addProjectAlert2Operator d projectGroups (["p1"] ++ "p2" :: ["p3"]) world0
  = (Err denied,
     {| secrets := secrets world0;
        trace := trace world0 ++
          map (fun q => CallSyncPrometheusRule
                          (projectPromRule d projectGroups q).2)
              (filter (fun q => default ∅ (projectGroups !! q) <> ∅) ["p1"])
          ++ [CallSyncPrometheusRule
                (projectPromRule d projectGroups "p2").2] |}).
Proof.
  intros rules d projectGroups. split; [vm_compute; reflexivity|].
  apply (X17_project_publisher_stops_at_the_first_failure
           (MetricRule:=Payload) (EventRule:=Payload)
           (SystemServiceRule:=Payload) (NodeRule:=Payload)
           (PodRule:=Payload) (WorkloadRule:=Payload)
           ref_Parse GetRuleID ProjectMonitoringInfo Metric2Rule
           d projectGroups ["p1"] ["p3"] "p2" world0 denied).
  - intros q Hq. apply list_elem_of_singleton in Hq. subst q.
    vm_compute. reflexivity.
  - intros H. apply (f_equal (fun m => m !! "p2:pg1")) in H.
    vm_compute in H. discriminate H.
  - vm_compute. reflexivity.
Defined.

(** X18, witness: a listing with an inactive and an active cluster rule,
    and the project [p1] of the partition. *)
Lemma X18_publish_decision_witness :
  let rules := [metric_rule "r1" "inactive" "c1:g1" no_timing;
                event_rule "r2" "active" "c1:g2"] in
  let prules := [pod_rule "r3" "active" "c1:p1" "p1:pg1" no_timing] in
  let d := syncer "c1:n1" rules prules in
  "p1" ∈ sorted_keys (pAlertsMap_of d prules) /\
  (clusterPromRule d (cAlertsMap_of rules)
     (sorted_keys (cAlertsMap_of rules))).1 = true /\
  (projectPromRule d (pAlertsMap_of d prules) "p1").1 = true.
Proof.
  intros rules prules d.
  assert ("p1" ∈ sorted_keys (pAlertsMap_of d prules)) as Hin
    by (vm_compute; apply list_elem_of_here).
  destruct (X18_publish_decision_in_terms_of_the_listing
              (MetricRule:=Payload) (EventRule:=Payload)
              (SystemServiceRule:=Payload) (NodeRule:=Payload)
              (PodRule:=Payload) (WorkloadRule:=Payload)
              ref_Parse GetRuleID ObjectInCluster ClusterMonitoringInfo
              ProjectMonitoringInfo Metric2Rule) as (H1 & H2).
  split; [exact Hin|]. split.
  - exact (H1 d rules).
  - exact (H2 d prules "p1" Hin).
Defined.

(** X19, witness: the secret holds the key [extra.yaml], which the update
    keeps. *)
Lemma X19_update_witness :
  let d := syncer "c1:n1" [] [] in
  let ns := "cattle-prometheus" in
  let name := "alertmanager-cluster-alerting" in
  exists s',
    trace (sync_secret d "document" world_extra).2
    = trace world_extra
      ++ [CallSecretGet ns name; CallSecretUpdate ns name s'] /\
    Data_get s' "alertmanager.yaml" = "document" /\
    Data_get s' "notification.tmpl" = NotificationTmpl /\
    Data_get s' "extra.yaml" = "kept".
Proof.
  intros d ns name.
  destruct (X19_update_keeps_the_other_keys_of_the_secret
              (MetricRule:=Payload) (EventRule:=Payload)
              (SystemServiceRule:=Payload) (NodeRule:=Payload)
              (PodRule:=Payload) (WorkloadRule:=Payload)
              ClusterAlertManagerInfo GetAlertManagerSecretName
              NotificationTmpl d "document" world_extra
              {| Data := Some {[ "extra.yaml" := "kept" ]} |}
              {[ "extra.yaml" := "kept" ]} eq_refl eq_refl eq_refl)
    as (s' & H1 & H2 & H3 & H4).
  - vm_compute. discriminate.
  - exists s'. split; [exact H1|]. split; [exact H2|]. split; [exact H3|].
    rewrite (H4 "extra.yaml"); [reflexivity|discriminate..].
Defined.

(** X20, witness: the secret exists and has no data map. *)
Lemma X20_nil_map_witness :
  let d := syncer "c1:n1" [] [] in
  sync_secret d "document" world_nil
  = (Panic "assignment to entry in nil map",
     log (CallSecretGet "cattle-prometheus" "alertmanager-cluster-alerting")
       world_nil).
Proof.
  intros d.
  apply (X20_secret_without_data_map_makes_sync_panic
           (MetricRule:=Payload) (EventRule:=Payload)
           (SystemServiceRule:=Payload) (NodeRule:=Payload)
           (PodRule:=Payload) (WorkloadRule:=Payload)
           ClusterAlertManagerInfo GetAlertManagerSecretName
           NotificationTmpl d "document" world_nil {| Data := None |}
           eq_refl eq_refl eq_refl).
  discriminate.
Defined.

(** X21, witness: a secret client whose [Get] fails, a store without the
    secret, and a secret client whose [Update] fails. *)
Lemma X21_secret_errors_witness :
  let d := syncer "c1:n1" [] [] in
  let ns := "cattle-prometheus" in
  let name := "alertmanager-cluster-alerting" in
  let timeout := StatusOther "etcdserver: request timed out" in
  let get_fails := {| secret_Get_err := fun _ _ => Some timeout;
                      secret_Update_err := fun _ _ _ => None |} in
  let update_fails := {| secret_Get_err := fun _ _ => None;
                         secret_Update_err := fun _ _ _ => Some timeout |} in
  sync_secret (with_secretsGetter d get_fails) "document" world0
  = (Err (Wrapf timeout "Get secrets"), log (CallSecretGet ns name) world0) /\
  (exists e,
      sync_secret d "document" world_empty
      = (Err (Wrapf e "Get secrets"),
         log (CallSecretGet ns name) world_empty)) /\
  (sync_secret (with_secretsGetter d update_fails) "document" world0).1
  = Err (Wrapf timeout "Update secrets").
Proof.
  intros d ns name timeout get_fails update_fails.
  split; [|split].
  - exact (proj1 (X21_secret_client_errors_are_wrapped
                    (MetricRule:=Payload) (EventRule:=Payload)
                    (SystemServiceRule:=Payload) (NodeRule:=Payload)
                    (PodRule:=Payload) (WorkloadRule:=Payload)
                    ClusterAlertManagerInfo GetAlertManagerSecretName
                    NotificationTmpl (with_secretsGetter d get_fails)
                    "document" world0) timeout eq_refl).
  - exact (proj1 (proj2 (X21_secret_client_errors_are_wrapped
                    (MetricRule:=Payload) (EventRule:=Payload)
                    (SystemServiceRule:=Payload) (NodeRule:=Payload)
                    (PodRule:=Payload) (WorkloadRule:=Payload)
                    ClusterAlertManagerInfo GetAlertManagerSecretName
                    NotificationTmpl d "document" world_empty))
             eq_refl eq_refl).
  - apply (proj2 (proj2 (X21_secret_client_errors_are_wrapped
                    (MetricRule:=Payload) (EventRule:=Payload)
                    (SystemServiceRule:=Payload) (NodeRule:=Payload)
                    (PodRule:=Payload) (WorkloadRule:=Payload)
                    ClusterAlertManagerInfo GetAlertManagerSecretName
                    NotificationTmpl (with_secretsGetter d update_fails)
                    "document" world0))
             timeout
             {| Data := Some (<["notification.tmpl" := NotificationTmpl]>
                                (<["alertmanager.yaml" := "document"]> ∅)) |}).
    + vm_compute. apply list_elem_of_further, list_elem_of_here.
    + apply not_elem_of_nil.
    + reflexivity.
Defined.

(** X22, witness: the rules of two cluster groups, listed group after
    group in one order and in the other. *)
Lemma X22_listing_witness :
  let a := metric_rule "r1" "active" "c1:g1" no_timing in
  let b := event_rule "r2" "active" "c1:g2" in
  let prules := [pod_rule "r3" "active" "c1:p1" "p1:pg1" no_timing] in
  let d := syncer "c1:n1" [] [] in
  sync (with_rules d (Ok [a; b]) (Ok prules)) world0
  = sync (with_rules d (Ok [b; a]) (Ok prules)) world0.
Proof.
  intros a b prules d.
  apply (X22_sync_depends_on_the_listing_group_by_group
           (MetricRule:=Payload) (EventRule:=Payload)
           (SystemServiceRule:=Payload) (NodeRule:=Payload)
           (PodRule:=Payload) (WorkloadRule:=Payload)
           ref_Parse GetRuleID ObjectInCluster ClusterMonitoringInfo
           ProjectMonitoringInfo ClusterAlertManagerInfo
           GetAlertManagerSecretName Metric2Rule
           GetAlertManagerDefaultConfig yaml_Marshal NotificationTmpl
           d [a; b] [b; a] prules prules world0).
  - intros g. rewrite !filter_cons, !filter_nil.
    destruct (decide (in_cluster_group g a)) as [[_ Ha]|_];
      destruct (decide (in_cluster_group g b)) as [[_ Hb]|_];
      try reflexivity.
    simpl in Ha, Hb. rewrite <- Hb in Ha. discriminate Ha.
  - intros p g. reflexivity.
Defined.

End Examples.
